(** * The scoping-bot export workflow, embedded in Rocq

    The development follows the frontend sources:

    - [JS]             the parts of the JavaScript runtime the code calls
                       (values, strings, IEEE numbers and their printing,
                       plain objects, [JSON.stringify], [JSON.parse]);
    - [ExportApi]      [api/exportApi.js];
    - [ExportContext]  [contexts/ExportContext.jsx];
    - [ProjectContext] [contexts/ProjectContext.js];
    - [Exports]        [pages/Exports.jsx], the export page.

    Conventions.  A JavaScript string is a [string] of 8-bit code units.
    Case mapping and white space are those of ASCII: [toLowerCase], the
    [\s] class and [trim] are the source's on ASCII text ([ascii_text]),
    and a property that depends on them for other text says so.  A number
    is a binary64 [float].  A plain object is an association list in
    property order, read through its own properties only.  An awaited
    call is a value of [outcome]: the promise resolved, or it rejected
    with an error. *)

From Stdlib Require Import ZArith List String Ascii Bool Lia.
From Stdlib Require Import PrimFloat SpecFloat FloatOps.
Import ListNotations.

Set Warnings "-register-all".

Local Open Scope string_scope.
Local Open Scope Z_scope.

(* ================================================================== *)
(** * The JavaScript runtime *)
(* ================================================================== *)

Module JS.

(** ** Characters and strings *)

Definition code (c : ascii) : Z := Z.of_nat (nat_of_ascii c).

Definition chr (n : Z) : ascii := ascii_of_nat (Z.to_nat n).

Definition dquote : string := String (chr 34) "".

Definition is_digit (c : ascii) : bool := (48 <=? code c) && (code c <=? 57).

Definition digit_val (c : ascii) : Z := code c - 48.

(** A code unit of ASCII, and a text made of them. *)
Definition is_ascii (c : ascii) : bool := code c <? 128.

Fixpoint ascii_text (s : string) : bool :=
  match s with
  | EmptyString => true
  | String c r => is_ascii c && ascii_text r
  end.

(** White space of the [\s] class, of [trim] and of numeric strings, in
    ASCII: TAB, LF, VT, FF, CR and SPACE.  The white space beyond ASCII
    (the no-break space, the byte order mark, the line and paragraph
    separators and the other space separators) is not told apart from
    other text. *)
Definition is_space (c : ascii) : bool :=
  let n := code c in ((9 <=? n) && (n <=? 13)) || (n =? 32).

Definition lower_char (c : ascii) : ascii :=
  let n := code c in if (65 <=? n) && (n <=? 90) then chr (n + 32) else c.

(** [String.prototype.toLowerCase] on ASCII text: the letters [A] to [Z]
    become [a] to [z].  Code units beyond ASCII are left as they are,
    where the source maps the capital letters of every script. *)
Fixpoint toLowerCase (s : string) : string :=
  match s with
  | EmptyString => EmptyString
  | String c r => String (lower_char c) (toLowerCase r)
  end.

Fixpoint rev_string (s acc : string) : string :=
  match s with
  | EmptyString => acc
  | String c r => rev_string r (String c acc)
  end.

Fixpoint trimStart (s : string) : string :=
  match s with
  | String c r => if is_space c then trimStart r else s
  | EmptyString => EmptyString
  end.

Definition trimEnd (s : string) : string :=
  rev_string (trimStart (rev_string s "")) "".

(** [String.prototype.trim]. *)
Definition trim (s : string) : string := trimEnd (trimStart s).

Fixpoint starts_with (p s : string) : bool :=
  match p, s with
  | EmptyString, _ => true
  | String a p', String b s' => Ascii.eqb a b && starts_with p' s'
  | String _ _, EmptyString => false
  end.

Fixpoint drop (n : nat) (s : string) : string :=
  match n, s with
  | O, _ => s
  | S n', String _ r => drop n' r
  | S _, EmptyString => EmptyString
  end.

(** [String.prototype.includes]. *)
Fixpoint includes (s sub : string) : bool :=
  starts_with sub s ||
  match s with
  | EmptyString => false
  | String _ r => includes r sub
  end.

(** [s.split(sep)] for a separator of one code unit: the pieces between
    the separators, empty pieces kept. *)
Fixpoint split_go (sep : ascii) (s cur : string) : list string :=
  match s with
  | EmptyString => [rev_string cur ""]
  | String c r =>
      if Ascii.eqb c sep then rev_string cur "" :: split_go sep r ""
      else split_go sep r (String c cur)
  end.

Definition split (s : string) (sep : ascii) : list string := split_go sep s "".

(** [s.replace(/\s+/g, r)]: every maximal run of white space becomes [r]. *)
Fixpoint replace_spaces (r s : string) (in_run : bool) : string :=
  match s with
  | EmptyString => EmptyString
  | String c t =>
      if is_space c then
        if in_run then replace_spaces r t true
        else r ++ replace_spaces r t true
      else String c (replace_spaces r t false)
  end.

Fixpoint join (sep : string) (l : list string) : string :=
  match l with
  | [] => ""
  | [x] => x
  | x :: r => x ++ sep ++ join sep r
  end.

Fixpoint repeat_string (n : nat) (s : string) : string :=
  match n with
  | O => ""
  | S k => s ++ repeat_string k s
  end.

(** ** Decimal digits of integers *)

Fixpoint digits_go (fuel : nat) (n : Z) (acc : string) : string :=
  match fuel with
  | O => acc
  | S f =>
      let acc' := String (chr (48 + n mod 10)) acc in
      if n <? 10 then acc' else digits_go f (n / 10) acc'
  end.

(** The decimal numeral of a natural number, without leading zeros. *)
Definition Z_digits (n : Z) : string :=
  digits_go (S (Z.to_nat (Z.log2 n))) n "".

Definition slen (s : string) : Z := Z.of_nat (String.length s).

Definition take (n : nat) (s : string) : string := substring 0 n s.

(** ** Numbers

    A number is a binary64 float.  Its conversions to and from decimal
    text are computed on the exact value, a fraction of integers. *)

(** The exact value [m * 2^e] of a positive finite float, as [(p, q)]
    standing for [p / q]. *)
Definition frac_of (m : positive) (e : Z) : Z * Z :=
  match e with
  | Zneg k => (Zpos m, 2 ^ Zpos k)
  | _ => (Zpos m * 2 ^ e, 1)
  end.

(** The float nearest to [p / q], ties to even, with the given sign. *)
Definition float_of_frac (neg : bool) (p q : Z) : float :=
  match p, q with
  | Zpos p', Zpos q' =>
      SF2Prim (SFdiv prec emax (S754_finite neg p' 0) (S754_finite false q' 0))
  | _, _ => if neg then neg_zero else zero
  end.

Definition num_digits (n : Z) : Z := slen (Z_digits n).

(** The float nearest to [m * 10^e].  Far outside the binary64 range the
    result is known without computing the power of ten. *)
Definition float_of_dec (neg : bool) (m e : Z) : float :=
  if m <=? 0 then (if neg then neg_zero else zero)
  else if 310 <? e + num_digits m then (if neg then neg_infinity else infinity)
  else if e + num_digits m <? -330 then (if neg then neg_zero else zero)
  else if 0 <=? e then float_of_frac neg (m * 10 ^ e) 1
  else float_of_frac neg m (10 ^ (- e)).

(** *** [Number::toString], radix 10 *)

Fixpoint small_exp (fuel : nat) (p q j : Z) : Z :=
  match fuel with
  | O => j
  | S f => if q <=? p * 10 ^ j then j else small_exp f p q (j + 1)
  end.

(** The [n] with [10^(n-1) <= p/q < 10^n]. *)
Definition dec_exponent (p q : Z) : Z :=
  if q <=? p then num_digits (p / q) else 1 - small_exp 400 p q 1.

(** A [k]-digit [s] with [s * 10^(n-k)] reading back as [x], the one
    nearest to [x] when both neighbours do (the even one on a tie). *)
Definition pick_digits (x : float) (p q n k : Z) : option Z :=
  let '(a, b) :=
    if n <=? k then (p * 10 ^ (k - n), q) else (p, q * 10 ^ (n - k)) in
  let lo := a / b in
  let hi := lo + 1 in
  let ok s := PrimFloat.eqb (float_of_dec false s (n - k)) x in
  let dlo := a - lo * b in
  let dhi := hi * b - a in
  match ok lo, ok hi with
  | true, true =>
      Some (if dlo <? dhi then lo
            else if dhi <? dlo then hi
            else if Z.even lo then lo else hi)
  | true, false => Some lo
  | false, true => Some hi
  | false, false => None
  end.

Fixpoint shortest (fuel : nat) (x : float) (p q n k : Z) : Z * Z :=
  match fuel with
  | O => (p * 10 ^ (k - n) / q, k)
  | S f =>
      match pick_digits x p q n k with
      | Some s => (s, k)
      | None => shortest f x p q n (k + 1)
      end
  end.

Fixpoint strip_zeros_rev (s : string) : string :=
  match s with
  | String c r =>
      if Ascii.eqb c "0"%char then
        match r with
        | EmptyString => s
        | _ => strip_zeros_rev r
        end
      else s
  | EmptyString => EmptyString
  end.

Definition strip_trailing_zeros (s : string) : string :=
  rev_string (strip_zeros_rev (rev_string s "")) "".

Definition format_number (ds : string) (n : Z) : string :=
  let k := slen ds in
  if (k <=? n) && (n <=? 21) then
    ds ++ repeat_string (Z.to_nat (n - k)) "0"
  else if (0 <? n) && (n <=? 21) then
    take (Z.to_nat n) ds ++ "." ++ drop (Z.to_nat n) ds
  else if (-6 <? n) && (n <=? 0) then
    "0." ++ repeat_string (Z.to_nat (- n)) "0" ++ ds
  else
    let e := n - 1 in
    let es := (if 0 <=? e then "+" else "-") ++ Z_digits (Z.abs e) in
    if k =? 1 then ds ++ "e" ++ es
    else take 1 ds ++ "." ++ drop 1 ds ++ "e" ++ es.

Definition Number_toString (x : float) : string :=
  match Prim2SF x with
  | S754_nan => "NaN"
  | S754_zero _ => "0"
  | S754_infinity s => (if s then "-" else "") ++ "Infinity"
  | S754_finite s m e =>
      let '(p, q) := frac_of m e in
      let n := dec_exponent p q in
      let '(d, k) := shortest 17 (abs x) p q n 1 in
      let ds := Z_digits d in
      (if s then "-" else "")
        ++ format_number (strip_trailing_zeros ds) (n + (slen ds - k))
  end.

(** *** [Number.prototype.toFixed] *)

(** [floor (p/q * sc + 1/2)]: the nearest integer, the larger on a tie. *)
Definition round_scaled (p q sc : Z) : Z := (2 * p * sc + q) / (2 * q).

Definition fixed_digits (n : Z) (fd : nat) : string :=
  let ds := Z_digits n in
  let ds := repeat_string (S fd - String.length ds) "0" ++ ds in
  let k := (String.length ds - fd)%nat in
  match fd with
  | O => ds
  | _ => take k ds ++ "." ++ drop k ds
  end.

Definition toFixed (x : float) (fd : nat) : string :=
  match Prim2SF x with
  | S754_nan => "NaN"
  | S754_infinity _ => Number_toString x
  | S754_zero _ => fixed_digits 0 fd
  | S754_finite s m e =>
      let '(p, q) := frac_of m e in
      if 10 ^ 21 * q <=? p then Number_toString x
      else (if s then "-" else "")
             ++ fixed_digits (round_scaled p q (10 ^ Z.of_nat fd)) fd
  end.

(** *** [toLocaleString("en-US", {style: "currency", currency: "USD",
        minimumFractionDigits: 2})] *)

Fixpoint group_go (s : string) (cnt : nat) (acc : string) : string :=
  match s with
  | EmptyString => acc
  | String c r =>
      if Nat.eqb cnt 3 then group_go r 1 (String c (String ","%char acc))
      else group_go r (S cnt) (String c acc)
  end.

(** Digits in groups of three: [1234567] gives [1,234,567]. *)
Definition group3 (ds : string) : string := group_go (rev_string ds "") 0 "".

(** The infinity sign, U+221E, in UTF-8. *)
Definition infinity_sign : string :=
  String (chr 226) (String (chr 136) (String (chr 158) "")).

Definition usd (neg : bool) (body : string) : string :=
  (if neg then "-" else "") ++ "$" ++ body.

Definition toLocaleString_USD (x : float) : string :=
  match Prim2SF x with
  | S754_nan => usd false "NaN"
  | S754_infinity s => usd s infinity_sign
  | S754_zero s => usd s "0.00"
  | S754_finite s m e =>
      let '(p, q) := frac_of m e in
      let cents := round_scaled p q 100 in
      let ds := fixed_digits cents 2 in
      let k := (String.length ds - 3)%nat in
      usd s (group3 (take k ds) ++ drop k ds)
  end.

(** *** Reading decimal text *)

Fixpoint take_digits (s : string) (acc cnt : Z) : Z * Z * string :=
  match s with
  | String c r =>
      if is_digit c then take_digits r (acc * 10 + digit_val c) (cnt + 1)
      else (acc, cnt, s)
  | EmptyString => (acc, cnt, s)
  end.

(** The exponent part [e], [e+] or [e-] followed by digits, when the text
    starts with one: the exponent and the text after it. *)
Definition scan_exponent (s : string) : option (Z * string) :=
  match s with
  | String c r =>
      if Ascii.eqb c "e"%char || Ascii.eqb c "E"%char then
        let '(neg, r') :=
          match r with
          | String "-"%char t => (true, t)
          | String "+"%char t => (false, t)
          | _ => (false, r)
          end in
        let '(ex, cnt, rest) := take_digits r' 0 0 in
        if cnt =? 0 then None else Some (if neg then - ex else ex, rest)
      else None
  | EmptyString => None
  end.

(** The longest unsigned decimal literal the text starts with, as
    (mantissa, power of ten, rest of the text). *)
Definition scan_unsigned (s : string) : option (Z * Z * string) :=
  let '(i, ni, r1) := take_digits s 0 0 in
  let body :=
    match r1 with
    | String "."%char r2 =>
        let '(m, nf, r3) := take_digits r2 i 0 in
        if (ni =? 0) && (nf =? 0) then None else Some (m, - nf, r3)
    | _ => if ni =? 0 then None else Some (i, 0, r1)
    end in
  match body with
  | None => None
  | Some (m, e, r) =>
      match scan_exponent r with
      | Some (ex, r') => Some (m, e + ex, r')
      | None => Some (m, e, r)
      end
  end.

Definition scan_sign (s : string) : bool * string :=
  match s with
  | String "-"%char r => (true, r)
  | String "+"%char r => (false, r)
  | _ => (false, s)
  end.

(** The longest signed decimal literal ([Infinity] included) the text
    starts with: its value and the rest of the text. *)
Definition scan_decimal (s : string) : option (float * string) :=
  let '(neg, r) := scan_sign s in
  if starts_with "Infinity" r then
    Some (if neg then neg_infinity else infinity, drop 8 r)
  else
    match scan_unsigned r with
    | Some (m, e, rest) => Some (float_of_dec neg m e, rest)
    | None => None
    end.

(** The global [parseFloat] on a string. *)
Definition parseFloat_string (s : string) : float :=
  match scan_decimal (trimStart s) with
  | Some (x, _) => x
  | None => nan
  end.

Definition radix_digit (radix : Z) (c : ascii) : option Z :=
  let n := code c in
  let v :=
    if is_digit c then n - 48
    else if (97 <=? n) && (n <=? 102) then n - 87
    else if (65 <=? n) && (n <=? 70) then n - 55
    else 99 in
  if v <? radix then Some v else None.

Fixpoint radix_value (radix : Z) (s : string) (acc : Z) : option Z :=
  match s with
  | EmptyString => Some acc
  | String c r =>
      match radix_digit radix c with
      | Some v => radix_value radix r (acc * radix + v)
      | None => None
      end
  end.

Definition radix_prefix (s : string) : option (Z * string) :=
  match s with
  | String "0"%char (String c r) =>
      let l := lower_char c in
      if Ascii.eqb l "x"%char then Some (16, r)
      else if Ascii.eqb l "o"%char then Some (8, r)
      else if Ascii.eqb l "b"%char then Some (2, r)
      else None
  | _ => None
  end.

(** [StringToNumber]: the whole trimmed text is a numeric literal, or the
    result is NaN; the empty text is [0]. *)
Definition StringToNumber (s : string) : float :=
  let t := trim s in
  match t with
  | EmptyString => zero
  | _ =>
      match radix_prefix t with
      | Some (radix, EmptyString) => nan
      | Some (radix, ds) =>
          match radix_value radix ds 0 with
          | Some v => float_of_frac false v 1
          | None => nan
          end
      | None =>
          match scan_decimal t with
          | Some (x, EmptyString) => x
          | _ => nan
          end
      end
  end.

(** ** Values *)

Inductive value : Type :=
| VUndefined
| VNull
| VBool (b : bool)
| VNum (x : float)
| VStr (s : string)
| VArr (l : list value)
| VObj (o : list (string * value)).

(** The own properties of a plain object, in property order. *)
Definition props : Type := list (string * value).

Definition num_finite (x : float) : bool := negb (is_nan x || is_infinity x).

(** [ToBoolean]. *)
Definition truthy (v : value) : bool :=
  match v with
  | VUndefined | VNull => false
  | VBool b => b
  | VNum x => negb (is_nan x || is_zero x)
  | VStr s => negb (String.eqb s "")
  | VArr _ | VObj _ => true
  end.

(** [v == null]. *)
Definition nullish (v : value) : bool :=
  match v with
  | VUndefined | VNull => true
  | _ => false
  end.

(** [a || b]. *)
Definition or_else (a b : value) : value := if truthy a then a else b.

(** [typeof v === "object"]. *)
Definition typeof_object (v : value) : bool :=
  match v with
  | VNull | VArr _ | VObj _ => true
  | _ => false
  end.

Definition isArray (v : value) : bool :=
  match v with
  | VArr _ => true
  | _ => false
  end.

(** [ToString], for the values it completes on ([printable], below); on
    the others the source throws a TypeError. *)
Fixpoint ToString (v : value) : string :=
  match v with
  | VUndefined => "undefined"
  | VNull => "null"
  | VBool b => if b then "true" else "false"
  | VNum x => Number_toString x
  | VStr s => s
  | VArr l =>
      join ","
        (map (fun e =>
                match e with
                | VUndefined | VNull => ""
                | _ => ToString e
                end) l)
  | VObj _ => "[object Object]"
  end.

(** [Number(v)]. *)
Definition ToNumber (v : value) : float :=
  match v with
  | VUndefined => nan
  | VNull => zero
  | VBool b => if b then one else zero
  | VNum x => x
  | VStr s => StringToNumber s
  | VArr _ | VObj _ => StringToNumber (ToString v)
  end.

(** The global [parseFloat]. *)
Definition parseFloat (v : value) : float := parseFloat_string (ToString v).

(** ** Plain objects *)

Fixpoint lookup (k : string) (o : props) : option value :=
  match o with
  | [] => None
  | (k', v) :: r => if String.eqb k k' then Some v else lookup k r
  end.

(** [o[k]] on a plain object. *)
Definition get (o : props) (k : string) : value :=
  match lookup k o with
  | Some v => v
  | None => VUndefined
  end.

(** The values [ToString] completes on.  An object with an own property
    [toString] has no callable one (no property of a value read from JSON
    is callable) and its [valueOf] gives the object back: the conversion
    throws a TypeError.  So does the conversion of an array with such an
    element.  An object without it prints through [Object.prototype]. *)
Fixpoint printable (v : value) : bool :=
  match v with
  | VObj o => negb (existsb (fun kv => String.eqb (fst kv) "toString") o)
  | VArr l => forallb printable l
  | _ => true
  end.

(** An array index: a canonical numeral below [2^32 - 1].  Such keys come
    first in property order, in ascending order. *)
Definition array_index (k : string) : option Z :=
  match k with
  | EmptyString => None
  | String c _ =>
      let '(v, cnt, rest) := take_digits k 0 0 in
      match rest with
      | EmptyString =>
          if Ascii.eqb c "0"%char && negb (cnt =? 1) then None
          else if v <=? 4294967294 then Some v else None
      | _ => None
      end
  end.

Fixpoint insert_index (i : Z) (k : string) (v : value) (o : props) : props :=
  match o with
  | [] => [(k, v)]
  | (k', v') :: r =>
      match array_index k' with
      | Some j =>
          if i <? j then (k, v) :: o else (k', v') :: insert_index i k v r
      | None => (k, v) :: o
      end
  end.

Fixpoint replace (k : string) (v : value) (o : props) : props :=
  match o with
  | [] => []
  | (k', v') :: r =>
      if String.eqb k k' then (k, v) :: r else (k', v') :: replace k v r
  end.

(** [o[k] = v]: an existing property keeps its place, a new one goes where
    property order puts it. *)
Definition set (o : props) (k : string) (v : value) : props :=
  match lookup k o with
  | Some _ => replace k v o
  | None =>
      match array_index k with
      | Some i => insert_index i k v o
      | None => (o ++ [(k, v)])%list
      end
  end.

(** *** Assignment to a property of an object under construction

    [set] is what an object literal, the spread syntax and [JSON.parse]
    do: they define the property.  The assignment [obj[k] = v] goes
    through the prototype chain first, and for the key ["__proto__"] it
    finds the setter of [Object.prototype], which defines nothing: it
    replaces the prototype when [v] is an object or [null], and does
    nothing otherwise.  The setter is out of reach once the prototype is
    [null], or is an object with an own property ["__proto__"] (as
    [JSON.parse] makes them): then the assignment defines the property. *)

(** The prototype of an object under construction. *)
Inductive prototype : Type :=
| ObjectPrototype
| NullPrototype
| ValuePrototype (v : value).

Definition proto_setter_reached (p : prototype) : bool :=
  match p with
  | ObjectPrototype => true
  | NullPrototype => false
  | ValuePrototype (VObj o) =>
      match lookup "__proto__" o with
      | Some _ => false
      | None => true
      end
  | ValuePrototype _ => true
  end.

(** [obj[k] = v] on the object with the own properties [fst st] and the
    prototype [snd st]. *)
Definition assign_property (st : props * prototype) (k : string) (v : value)
  : props * prototype :=
  let '(o, p) := st in
  match lookup k o with
  | Some _ => (set o k v, p)
  | None =>
      if String.eqb k "__proto__" && proto_setter_reached p then
        match v with
        | VNull => (o, NullPrototype)
        | VObj _ | VArr _ => (o, ValuePrototype v)
        | _ => (o, p)
        end
      else (set o k v, p)
  end.

Fixpoint indexed (i : Z) (l : list value) : props :=
  match l with
  | [] => []
  | v :: r => (Z_digits i, v) :: indexed (i + 1) r
  end.

Fixpoint chars (s : string) : list value :=
  match s with
  | EmptyString => []
  | String c r => VStr (String c "") :: chars r
  end.

(** The own enumerable string-keyed properties, as the spread syntax,
    [Object.keys] and [Object.entries] see them. *)
Definition own_props (v : value) : props :=
  match v with
  | VObj o => o
  | VArr l => indexed 0 l
  | VStr s => indexed 0 (chars s)
  | _ => []
  end.

(** [Object.keys(v)]; [None] is the TypeError on [null] and [undefined]. *)
Definition keys (v : value) : option (list string) :=
  match v with
  | VUndefined | VNull => None
  | _ => Some (map fst (own_props v))
  end.

(** [v[k]]; [None] is the TypeError on [null] and [undefined]. *)
Definition prop (v : value) (k : string) : option value :=
  match v with
  | VUndefined | VNull => None
  | VObj o => Some (get o k)
  | VArr l =>
      if String.eqb k "length" then Some (VNum (float_of_frac false (Z.of_nat (List.length l)) 1))
      else Some (get (indexed 0 l) k)
  | VStr s =>
      if String.eqb k "length" then Some (VNum (float_of_frac false (slen s) 1))
      else Some (get (indexed 0 (chars s)) k)
  | VBool _ | VNum _ => Some VUndefined
  end.

(** ** [JSON.stringify] *)

Definition hex_digit (n : Z) : ascii :=
  if n <? 10 then chr (48 + n) else chr (87 + n).

Definition newline : string := String (chr 10) "".

Definition backslash : string := String (chr 92) "".

Definition quote_char (c : ascii) : string :=
  let n := code c in
  if n =? 34 then backslash ++ dquote
  else if n =? 92 then backslash ++ backslash
  else if n =? 8 then backslash ++ "b"
  else if n =? 12 then backslash ++ "f"
  else if n =? 10 then backslash ++ "n"
  else if n =? 13 then backslash ++ "r"
  else if n =? 9 then backslash ++ "t"
  else if n <? 32 then
    backslash ++ "u00"
      ++ String (hex_digit (n / 16)) (String (hex_digit (n mod 16)) "")
  else String c "".

Fixpoint quote_body (s : string) : string :=
  match s with
  | EmptyString => EmptyString
  | String c r => quote_char c ++ quote_body r
  end.

Definition QuoteJSONString (s : string) : string :=
  dquote ++ quote_body s ++ dquote.

(** Brackets around the serialized items, one per line when there is a
    gap. *)
Definition wrap (gap indent opening closing : string) (items : list string)
  : string :=
  match items with
  | [] => opening ++ closing
  | _ =>
      if String.eqb gap "" then opening ++ join "," items ++ closing
      else
        let inner := indent ++ gap in
        opening ++ newline ++ inner
          ++ join ("," ++ newline ++ inner) items
          ++ newline ++ indent ++ closing
  end.

(** [SerializeJSONProperty]; [None] is [undefined]. *)
Fixpoint stringify_at (gap indent : string) (v : value) : option string :=
  match v with
  | VUndefined => None
  | VNull => Some "null"
  | VBool b => Some (if b then "true" else "false")
  | VNum x => Some (if num_finite x then Number_toString x else "null")
  | VStr s => Some (QuoteJSONString s)
  | VArr l =>
      Some (wrap gap indent "[" "]"
              (map (fun e =>
                      match stringify_at gap (indent ++ gap) e with
                      | Some t => t
                      | None => "null"
                      end) l))
  | VObj o =>
      Some (wrap gap indent "{" "}"
              (flat_map (fun kv =>
                           let '(k, e) := kv in
                           match stringify_at gap (indent ++ gap) e with
                           | Some t =>
                               [QuoteJSONString k
                                  ++ (if String.eqb gap "" then ":" else ": ")
                                  ++ t]
                           | None => []
                           end) o))
  end.

(** [JSON.stringify(v)]. *)
Definition stringify (v : value) : option string := stringify_at "" "" v.

(** [JSON.stringify(v, null, 2)]. *)
Definition stringify2 (v : value) : option string := stringify_at "  " "" v.

(** ** [JSON.parse] *)

Definition json_ws (c : ascii) : bool :=
  let n := code c in (n =? 32) || (n =? 9) || (n =? 10) || (n =? 13).

Fixpoint skip_ws (s : string) : string :=
  match s with
  | String c r => if json_ws c then skip_ws r else s
  | EmptyString => EmptyString
  end.

(** A piece of a string literal: a byte of the text, or the UTF-16 code
    unit of a [\uXXXX] escape. *)
Inductive piece : Type :=
| Byte (c : ascii)
| Unit16 (n : Z).

Definition hex_val (c : ascii) : option Z := radix_digit 16 c.

Definition hex4 (a b c d : ascii) : option Z :=
  match hex_val a, hex_val b, hex_val c, hex_val d with
  | Some x, Some y, Some z, Some w => Some (((x * 16 + y) * 16 + z) * 16 + w)
  | _, _, _, _ => None
  end.

Definition simple_escape (c : ascii) : option ascii :=
  let n := code c in
  if (n =? 34) || (n =? 92) || (n =? 47) then Some c
  else if n =? 98 then Some (chr 8)
  else if n =? 102 then Some (chr 12)
  else if n =? 110 then Some (chr 10)
  else if n =? 114 then Some (chr 13)
  else if n =? 116 then Some (chr 9)
  else None.

(** The pieces of a string literal after its opening quote, and the text
    after its closing quote. *)
Fixpoint scan_string (s : string) (acc : list piece)
  : option (list piece * string) :=
  match s with
  | EmptyString => None
  | String c r =>
      let n := code c in
      if n =? 34 then Some (rev acc, r)
      else if n <? 32 then None
      else if n =? 92 then
        match r with
        | String e r1 =>
            match simple_escape e with
            | Some x => scan_string r1 (Byte x :: acc)
            | None =>
                if Ascii.eqb e "u"%char then
                  match r1 with
                  | String h1 (String h2 (String h3 (String h4 r2))) =>
                      match hex4 h1 h2 h3 h4 with
                      | Some u => scan_string r2 (Unit16 u :: acc)
                      | None => None
                      end
                  | _ => None
                  end
                else None
            end
        | EmptyString => None
        end
      else scan_string r (Byte c :: acc)
  end.

(** The UTF-8 bytes of a code point. *)
Definition utf8 (cp : Z) : string :=
  if cp <? 128 then String (chr cp) ""
  else if cp <? 2048 then
    String (chr (192 + cp / 64)) (String (chr (128 + cp mod 64)) "")
  else if cp <? 65536 then
    String (chr (224 + cp / 4096))
      (String (chr (128 + (cp / 64) mod 64))
         (String (chr (128 + cp mod 64)) ""))
  else
    String (chr (240 + cp / 262144))
      (String (chr (128 + (cp / 4096) mod 64))
         (String (chr (128 + (cp / 64) mod 64))
            (String (chr (128 + cp mod 64)) ""))).

(** The string of a literal's pieces; a high surrogate followed by a low
    one is one code point. *)
Fixpoint decode_pieces (l : list piece) : string :=
  match l with
  | [] => ""
  | Byte c :: r => String c (decode_pieces r)
  | Unit16 hi :: r =>
      match r with
      | Unit16 lo :: r' =>
          if (55296 <=? hi) && (hi <? 56320) && (56320 <=? lo) && (lo <? 57344)
          then utf8 (65536 + (hi - 55296) * 1024 + (lo - 56320))
                 ++ decode_pieces r'
          else utf8 hi ++ decode_pieces r
      | _ => utf8 hi ++ decode_pieces r
      end
  end.

Definition parse_string (s : string) : option (string * string) :=
  match scan_string s [] with
  | Some (ps, r) => Some (decode_pieces ps, r)
  | None => None
  end.

(** A JSON number: an optional minus, an integer part without a leading
    zero, an optional fraction with a digit, an optional exponent with a
    digit. *)
Definition parse_number (s : string) : option (float * string) :=
  let '(neg, r0) :=
    match s with
    | String "-"%char t => (true, t)
    | _ => (false, s)
    end in
  let '(i, ni, r1) := take_digits r0 0 0 in
  if (ni =? 0) || (starts_with "0" r0 && negb (ni =? 1)) then None
  else
    let frac :=
      match r1 with
      | String "."%char r2 =>
          let '(m, nf, r3) := take_digits r2 i 0 in
          if nf =? 0 then None else Some (m, - nf, r3)
      | _ => Some (i, 0, r1)
      end in
    match frac with
    | None => None
    | Some (m, e, r) =>
        match r with
        | String c _ =>
            if Ascii.eqb (lower_char c) "e"%char then
              match scan_exponent r with
              | Some (ex, r') => Some (float_of_dec neg m (e + ex), r')
              | None => None
              end
            else Some (float_of_dec neg m e, r)
        | EmptyString => Some (float_of_dec neg m e, r)
        end
    end.

Definition expect (lit : string) (v : value) (s : string)
  : option (value * string) :=
  if starts_with lit s then Some (v, drop (String.length lit) s) else None.

Fixpoint parse_value (fuel : nat) (s : string) : option (value * string) :=
  match fuel with
  | O => None
  | S f =>
      match skip_ws s with
      | EmptyString => None
      | String c r as t =>
          let n := code c in
          if n =? 123 then
            match skip_ws r with
            | String "}"%char r' => Some (VObj [], r')
            | r' => parse_members f r' []
            end
          else if n =? 91 then
            match skip_ws r with
            | String "]"%char r' => Some (VArr [], r')
            | r' => parse_elements f r' []
            end
          else if n =? 34 then
            match parse_string r with
            | Some (str, r') => Some (VStr str, r')
            | None => None
            end
          else if n =? 116 then expect "true" (VBool true) t
          else if n =? 102 then expect "false" (VBool false) t
          else if n =? 110 then expect "null" VNull t
          else
            match parse_number t with
            | Some (x, r') => Some (VNum x, r')
            | None => None
            end
      end
  end

with parse_elements (fuel : nat) (s : string) (acc : list value)
  : option (value * string) :=
  match fuel with
  | O => None
  | S f =>
      match parse_value f s with
      | Some (v, r) =>
          match skip_ws r with
          | String ","%char r' => parse_elements f r' (v :: acc)
          | String "]"%char r' => Some (VArr (rev (v :: acc)), r')
          | _ => None
          end
      | None => None
      end
  end

with parse_members (fuel : nat) (s : string) (acc : props)
  : option (value * string) :=
  match fuel with
  | O => None
  | S f =>
      match skip_ws s with
      | String c r =>
          if code c =? 34 then
            match parse_string r with
            | Some (k, r1) =>
                match skip_ws r1 with
                | String ":"%char r2 =>
                    match parse_value f r2 with
                    | Some (v, r3) =>
                        match skip_ws r3 with
                        | String ","%char r4 => parse_members f r4 (set acc k v)
                        | String "}"%char r4 => Some (VObj (set acc k v), r4)
                        | _ => None
                        end
                    | None => None
                    end
                | _ => None
                end
            | None => None
            end
          else None
      | EmptyString => None
      end
  end.

(** [JSON.parse(text)]; [None] is the SyntaxError. *)
Definition parse (text : string) : option value :=
  match parse_value (2 * String.length text + 2) text with
  | Some (v, r) =>
      match skip_ws r with
      | EmptyString => Some v
      | _ => None
      end
  | None => None
  end.

End JS.

Import JS.

(* ================================================================== *)
(** * Calls, errors and binary payloads *)
(* ================================================================== *)

(** An error as the code inspects it: its [message], and
    [err.response.status] when the server replied. *)
Record exn : Type := mkExn {
  err_message : string;
  err_status : option Z
}.

(** How a call ends: it returns (a promise resolves), or it throws (a
    promise rejects). *)
Inductive outcome (A : Type) : Type :=
| Ok (a : A)
| Throw (e : exn).

Arguments Ok {A} a.
Arguments Throw {A} e.

Definition TypeError (msg : string) : exn := mkExn msg None.

(** [err?.response?.status === st]. *)
Definition status_is (err : exn) (st : Z) : bool :=
  match err_status err with
  | Some x => x =? st
  | None => false
  end.

(** A [Blob]: its bytes and its [type]. *)
Record blob : Type := mkBlob {
  blob_bytes : string;
  blob_type : string
}.

Definition blob_size (b : blob) : Z := slen (blob_bytes b).

Definition blob_eqb (a b : blob) : bool :=
  String.eqb (blob_bytes a) (blob_bytes b)
  && String.eqb (blob_type a) (blob_type b).

(** ** The HTTP client

    [axios] resolves on a 2xx reply and rejects otherwise; a request that
    was given an abort signal rejects once the signal is aborted. *)

Module Axios.

(** What the backend sends back. *)
Record reply (A : Type) : Type := mkReply {
  status : Z;
  content_type : option string;
  body : A
}.

Arguments mkReply {A} status content_type body.
Arguments status {A} r.
Arguments content_type {A} r.
Arguments body {A} r.

(** What happens to a request on the wire. *)
Inductive wire (A : Type) : Type :=
| Replied (r : reply A)
| NetworkError (msg : string).

Arguments Replied {A} r.
Arguments NetworkError {A} msg.

(** The request configuration: whether an abort signal was passed. *)
Record config : Type := mkConfig {
  signal : bool
}.

(** The response object of a resolved request. *)
Record response (A : Type) : Type := mkResponse {
  headers_content_type : option string;
  data : A
}.

Arguments mkResponse {A} headers_content_type data.
Arguments headers_content_type {A} r.
Arguments data {A} r.

Definition CanceledError : exn := mkExn "canceled" None.

Definition status_error (st : Z) : exn :=
  mkExn ("Request failed with status code " ++ Z_digits st) (Some st).

(** [api.get(url, cfg)] and [api.post(url, body, cfg)], given whether the
    caller's controller is aborted while the request is in flight. *)
Definition request {A : Type} (cfg : config) (aborted : bool) (w : wire A)
  : outcome (response A) :=
  if signal cfg && aborted then Throw CanceledError
  else
    match w with
    | NetworkError msg => Throw (mkExn msg None)
    | Replied r =>
        if (200 <=? status r) && (status r <? 300)
        then Ok (mkResponse (content_type r) (body r))
        else Throw (status_error (status r))
    end.

End Axios.

(* ================================================================== *)
(** * [api/exportApi.js] *)
(* ================================================================== *)

Module ExportApi.

Import Axios.

(** [name.replace(/\s+/g, "_").toLowerCase() + `.${ext}`].  A [name] that
    is no string has no [replace] method: the call throws a TypeError. *)
Definition safeFileName (name : value) (ext : string) : outcome string :=
  match name with
  | VStr s => Ok (toLowerCase (replace_spaces "_" s false) ++ "." ++ ext)
  | _ => Throw (TypeError "name.replace is not a function")
  end.

(** The message of the error envelope in [fetchExportBlob]: the [detail]
    of the body read as JSON, or the default when the body does not parse,
    has no [detail], or reading it throws. *)
Definition envelope_message (b : blob) : string :=
  let errorMsg := "Export failed" in
  match parse (blob_bytes b) with
  | Some v =>
      match prop v "detail" with
      | Some d => ToString (or_else d (VStr errorMsg))
      | None => errorMsg
      end
  | None => errorMsg
  end.

(** [fetchExportBlob(url)]: the request is issued with
    [{ responseType: "blob" }] and nothing else. *)
Definition fetchExportBlob_config : config := mkConfig false.

Definition fetchExportBlob (aborted : bool) (w : wire blob) : outcome blob :=
  match request fetchExportBlob_config aborted w with
  | Throw e => Throw e
  | Ok res =>
      let contentType :=
        match headers_content_type res with
        | Some t => t
        | None => ""
        end in
      if includes contentType "application/json"
      then Throw (mkExn (envelope_message (data res)) None)
      else Ok (data res)
  end.

(** [getPdfBlob], [exportToExcel] and [exportToPdf] take the project id
    alone; whatever else a caller passes is dropped. *)
Definition getPdfBlob := fetchExportBlob.

Definition exportToExcel := fetchExportBlob.

Definition exportToPdf := fetchExportBlob.

(** [exportToJson(projectId)]: [api.get(url)], then [res.data]. *)
Definition exportToJson (aborted : bool) (w : wire value) : outcome value :=
  match request (mkConfig false) aborted w with
  | Throw e => Throw e
  | Ok res => Ok (data res)
  end.

(** The preview calls post the scope and return [res.data]. *)
Definition preview {A : Type} (w : wire A) : outcome A :=
  match request (mkConfig false) false w with
  | Throw e => Throw e
  | Ok res => Ok (data res)
  end.

Definition previewJson : wire value -> outcome value := preview.

Definition previewExcel : wire blob -> outcome blob := preview.

Definition previewPdf : wire blob -> outcome blob := preview.

End ExportApi.

(* ================================================================== *)
(** * Asynchronous code over a store

    An [async] function over a store [S] is a state transformer that may
    throw.  [await o] resumes with the settled outcome [o] of a promise;
    the store it resumes in is the one it left, no other update comes in
    between. *)
(* ================================================================== *)

Definition M (S A : Type) : Type := S -> outcome A * S.

Definition ret {S A : Type} (a : A) : M S A := fun s => (Ok a, s).

Definition bind {S A B : Type} (m : M S A) (k : A -> M S B) : M S B :=
  fun s =>
    match m s with
    | (Ok a, s') => k a s'
    | (Throw e, s') => (Throw e, s')
    end.

Definition throw {S A : Type} (e : exn) : M S A := fun s => (Throw e, s).

Definition await {S A : Type} (o : outcome A) : M S A := fun s => (o, s).

Definition modify {S : Type} (f : S -> S) : M S unit := fun s => (Ok tt, f s).

Definition try_catch {S A : Type} (m : M S A) (handler : exn -> M S A)
  : M S A :=
  fun s =>
    match m s with
    | (Ok a, s') => (Ok a, s')
    | (Throw e, s') => handler e s'
    end.

Definition try_finally {S A : Type} (m : M S A) (cleanup : S -> S) : M S A :=
  fun s => let '(r, s') := m s in (r, cleanup s').

Declare Scope async_scope.
Delimit Scope async_scope with async.

Notation "x <- c ;; k" := (bind c (fun x => k))
  (at level 61, c at next level, right associativity) : async_scope.
Notation "c ;;; k" := (bind c (fun _ => k))
  (at level 61, right associativity) : async_scope.

Fixpoint mapM {A B : Type} (f : A -> outcome B) (l : list A)
  : outcome (list B) :=
  match l with
  | [] => Ok []
  | a :: r =>
      match f a with
      | Throw e => Throw e
      | Ok b =>
          match mapM f r with
          | Throw e => Throw e
          | Ok bs => Ok (b :: bs)
          end
      end
  end.

Fixpoint filterM {A : Type} (f : A -> outcome bool) (l : list A)
  : outcome (list A) :=
  match l with
  | [] => Ok []
  | a :: r =>
      match f a with
      | Throw e => Throw e
      | Ok keep =>
          match filterM f r with
          | Throw e => Throw e
          | Ok bs => Ok (if keep then a :: bs else bs)
          end
      end
  end.

(** [v[k]] where a TypeError propagates. *)
Definition read (v : value) (k : string) : outcome value :=
  match prop v k with
  | Some x => Ok x
  | None => Throw (TypeError "cannot read properties of null")
  end.

(** [x === y] on values.  Two objects or arrays are the same only when
    they are one object, which separately built values never are. *)
Definition strict_eq (a b : value) : bool :=
  match a, b with
  | VUndefined, VUndefined => true
  | VNull, VNull => true
  | VBool x, VBool y => Bool.eqb x y
  | VNum x, VNum y => PrimFloat.eqb x y
  | VStr x, VStr y => String.eqb x y
  | _, _ => false
  end.

(** The three preview calls of one operation. *)
Inductive preview_call : Type :=
| PJson
| PExcel
| PPdf.

Definition preview_call_eqb (a b : preview_call) : bool :=
  match a, b with
  | PJson, PJson | PExcel, PExcel | PPdf, PPdf => true
  | _, _ => false
  end.

(* ================================================================== *)
(** * [api/projectApi.js] *)
(* ================================================================== *)

Module ProjectApi.

(** Modelled from the spec: [projectApi.getFinalizedScope(id)], which the
    provider calls, is not among the functions of [projectApi.js] in the
    sources.  The specification has the finalized scope fetched with a GET
    through the HTTP client, on which "a 400 status signals not yet
    finalized"; as the client's other calls do, it hands back the
    client's promise, read here at [res.data]. *)
Definition getFinalizedScope (w : Axios.wire value) : outcome value :=
  match Axios.request (Axios.mkConfig false) false w with
  | Throw e => Throw e
  | Ok res => Ok (Axios.data res)
  end.

(** ** The form [createProject] posts *)

(** An entry of a [FormData]: text, or a file. *)
Inductive entry : Type :=
| Text (s : string)
| Part (b : blob).

Definition form_data : Type := list (string * entry).

(** [formData.append(key, v)] for a [v] that is no file: the entry is the
    text of [v]. *)
Definition append (fd : form_data) (key : string) (v : value) : form_data :=
  (fd ++ [(key, Text (ToString v))])%list.

(** [appendIfPresent(formData, key, value)]. *)
Definition appendIfPresent (fd : form_data) (key : string) (v0 : value)
  : form_data :=
  if strict_eq v0 VUndefined || strict_eq v0 VNull then fd
  else
    let v :=
      match v0 with
      | VStr s => VStr (trim s)
      | _ => v0
      end in
    if negb (strict_eq v (VStr ""))
       && negb (strict_eq v VNull)
       && negb (strict_eq v VUndefined)
    then append fd key v
    else fd.

(** An element of [data.files]: an object with a [file] (a [File], or
    none) and a [type], or a [File] itself, whose [type] is its media
    type. *)
Inductive upload : Type :=
| Item (file : option blob) (type : value)
| Bare (f : blob).

(** The body of the [forEach] over [data.files]. *)
Definition append_upload (fd : form_data) (item : upload) : form_data :=
  let fileObj :=
    match item with
    | Item file _ => file
    | Bare f => Some f
    end in
  let type :=
    match item with
    | Item _ type => type
    | Bare f => VStr (blob_type f)
    end in
  let fd1 :=
    match fileObj with
    | Some f => (fd ++ [("files", Part f)])%list
    | None => fd
    end in
  if truthy type then append fd1 "file_types" type else fd1.

(** The [FormData] that [createProject(data)] posts to [/projects].
    [files] is [data.files] when it is an array. *)
Definition createProject (data : value) (files : option (list upload))
  : outcome form_data :=
  match prop data "name", prop data "domain", prop data "complexity",
        prop data "tech_stack", prop data "use_cases",
        prop data "compliance", prop data "duration" with
  | Some name, Some domain, Some complexity, Some tech_stack,
    Some use_cases, Some compliance, Some duration =>
      let fd := appendIfPresent [] "name" name in
      let fd := appendIfPresent fd "domain" domain in
      let fd := appendIfPresent fd "complexity" complexity in
      let fd := appendIfPresent fd "tech_stack" tech_stack in
      let fd := appendIfPresent fd "use_cases" use_cases in
      let fd :=
        match compliance with
        | VArr cs => fold_left (fun fd c => append fd "compliance" c) cs fd
        | _ => appendIfPresent fd "compliance" compliance
        end in
      let fd := appendIfPresent fd "duration" duration in
      Ok (match files with
          | Some items => fold_left append_upload items fd
          | None => fd
          end)
  | _, _, _, _, _, _, _ =>
      Throw (TypeError "cannot read properties of null")
  end.

End ProjectApi.

(* ================================================================== *)
(** * [contexts/ProjectContext.js] *)
(* ================================================================== *)

Module ProjectContext.

Local Open Scope async_scope.

(** The backend calls the provider issues. *)
Inductive call : Type :=
| CreateProject
| GenerateScope
| GetProject
| FinalizeScope
| ExportToJson
| GetFinalizedScope
| Preview (p : preview_call).

(** The shared state the provider holds. *)
Inductive field : Type :=
| Projects
| LastPreviewScope
| LastRedirectUrl.

(** What happens during an operation, in time order. *)
Inductive event : Type :=
| Issued (c : call)
| Fulfilled (c : call)
| Failed (c : call)
| Updated (f : field).

Record state : Type := mkState {
  projects : list value;
  lastPreviewScope : value;
  lastRedirectUrl : value;
  log : list event
}.

Definition record (e : event) (s : state) : state :=
  mkState (projects s) (lastPreviewScope s) (lastRedirectUrl s)
          (log s ++ [e])%list.

(** [setProjects(updater)].  An updater that throws is taken to throw at
    the call. *)
Definition setProjects (f : list value -> outcome (list value)) : M state unit :=
  fun s =>
    match f (projects s) with
    | Ok l =>
        (Ok tt,
         record (Updated Projects)
           (mkState l (lastPreviewScope s) (lastRedirectUrl s) (log s)))
    | Throw e => (Throw e, s)
    end.

Definition setLastPreviewScope (v : value) : M state unit :=
  modify (fun s =>
    record (Updated LastPreviewScope)
      (mkState (projects s) v (lastRedirectUrl s) (log s))).

Definition setLastRedirectUrl (v : value) : M state unit :=
  modify (fun s =>
    record (Updated LastRedirectUrl)
      (mkState (projects s) (lastPreviewScope s) v (log s))).

(** One awaited backend call: it is issued, and it settles as [o]. *)
Definition backend {A : Type} (c : call) (o : outcome A) : M state A :=
  fun s =>
    match o with
    | Ok a => (Ok a, record (Fulfilled c) (record (Issued c) s))
    | Throw e => (Throw e, record (Failed c) (record (Issued c) s))
    end.

Definition id_of (p : value) : outcome value := read p "id".

(** [{ ...a, ...b }]. *)
Definition merge (a b : value) : value :=
  VObj (fold_left (fun o kv => set o (fst kv) (snd kv)) (own_props b)
          (own_props a)).

(** [list.map((p) => (p.id === id ? { ...p, ...next } : p))]. *)
Definition replaceById (items : list value) (id next : value)
  : outcome (list value) :=
  mapM (fun p =>
          match id_of p with
          | Throw e => Throw e
          | Ok pid => Ok (if strict_eq pid id then merge p next else p)
          end) items.

(** [list.filter((p) => p.id !== id)]. *)
Definition removeById (items : list value) (id : value)
  : outcome (list value) :=
  filterM (fun p =>
             match id_of p with
             | Throw e => Throw e
             | Ok pid => Ok (negb (strict_eq pid id))
             end) items.

(** The outcomes of the three preview calls, and the order in which they
    settle. *)
Record previews_run : Type := mkRun {
  json_outcome : outcome value;
  excel_outcome : outcome blob;
  pdf_outcome : outcome blob;
  settle_order : list preview_call
}.

Definition preview_error (r : previews_run) (p : preview_call)
  : option exn :=
  match p with
  | PJson => match json_outcome r with Throw e => Some e | Ok _ => None end
  | PExcel => match excel_outcome r with Throw e => Some e | Ok _ => None end
  | PPdf => match pdf_outcome r with Throw e => Some e | Ok _ => None end
  end.

(** The settlements [Promise.all] gets to see: up to and including the
    first rejection. *)
Fixpoint settle (r : previews_run) (order : list preview_call) (seen : list preview_call)
  : list event * option exn :=
  match order with
  | [] => ([], None)
  | p :: rest =>
      if existsb (preview_call_eqb p) seen then settle r rest seen
      else
        match preview_error r p with
        | Some e => ([Failed (Preview p)], Some e)
        | None =>
            let '(evs, res) := settle r rest (p :: seen) in
            (Fulfilled (Preview p) :: evs, res)
        end
  end.

(** [await Promise.all([previewJson(..), previewExcel(..), previewPdf(..)])]:
    the three calls are issued in the order written; they settle in the
    run's order (calls the order leaves out settle last, as written); the
    first rejection rejects the whole, and only when all three are
    fulfilled does the caller get the three results. *)
Definition previews_all (r : previews_run) : M state (value * blob * blob) :=
  fun s =>
    let issued :=
      [Issued (Preview PJson); Issued (Preview PExcel); Issued (Preview PPdf)] in
    let '(evs, res) :=
      settle r (settle_order r ++ [PJson; PExcel; PPdf])%list [] in
    let s' :=
      mkState (projects s) (lastPreviewScope s) (lastRedirectUrl s)
              (log s ++ issued ++ evs)%list in
    match res, json_outcome r, excel_outcome r, pdf_outcome r with
    | None, Ok j, Ok x, Ok p => (Ok (j, x, p), s')
    | Some e, _, _, _ => (Throw e, s')
    | None, _, _, _ => (Throw (TypeError "unreachable"), s')
    end.

(** [getProjectById(id)]. *)
Definition getProjectById (got : outcome value) : M state value :=
  try_catch (backend GetProject got) (fun err => throw err).

(** What [createProject] and [finalizeScope] return. *)
Record result : Type := mkResult {
  res_projectId : value;
  res_scope : value;
  res_redirectUrl : value;
  res_previews : value * blob * blob
}.

Definition exports_url (id : value) : value :=
  VStr ("/exports/" ++ ToString id).

(** [createProject(data)]. *)
Definition createProject
  (created generated : outcome value) (run : previews_run)
  (refreshed : outcome value) : M state result :=
  try_catch
    (res_data <- backend CreateProject created ;;
     projectId <- await (read res_data "id") ;;
     scope <- backend GenerateScope generated ;;
     pv <- previews_all run ;;
     fullProject <- getProjectById refreshed ;;
     setProjects (fun prev =>
       match removeById prev projectId with
       | Ok l => Ok (fullProject :: l)
       | Throw e => Throw e
       end) ;;;
     setLastPreviewScope (or_else (fst (fst pv)) scope) ;;;
     setLastRedirectUrl (exports_url projectId) ;;;
     ret (mkResult projectId scope (exports_url projectId) pv))
    (fun err => throw err).

(** [regenerateScope(id, draftScope = null)]. *)
Definition regenerateScope
  (draftScope : value) (exported : outcome value) (run : previews_run)
  : M state value :=
  try_catch
    (scopeToUse <-
       try_catch (backend ExportToJson exported)
         (fun err =>
            if status_is err 400 then ret (or_else draftScope (VObj []))
            else throw err) ;;
     pv <- previews_all run ;;
     setLastPreviewScope (or_else (fst (fst pv)) VNull) ;;;
     ret (fst (fst pv)))
    (fun err => throw err).

(** [res.data?.scope || scopeData]. *)
Definition finalized_scope (res_data scopeData : value) : value :=
  match prop res_data "scope" with
  | Some sc => or_else sc scopeData
  | None => scopeData
  end.

(** [finalizeScope(id, scopeData)]. *)
Definition finalizeScope
  (id scopeData : value) (finalized refreshed : outcome value)
  (run : previews_run) : M state result :=
  try_catch
    (res_data <- backend FinalizeScope finalized ;;
     let finalizedScope := finalized_scope res_data scopeData in
     fullProject <- getProjectById refreshed ;;
     setProjects (fun cur => replaceById cur id fullProject) ;;;
     pv <- previews_all run ;;
     setLastPreviewScope (or_else (fst (fst pv)) finalizedScope) ;;;
     setLastRedirectUrl (exports_url id) ;;;
     ret (mkResult id finalizedScope (exports_url id) pv))
    (fun err => throw err).

(** [getFinalizedScope(id)].  [projectApi.getFinalizedScope] is one more
    call through the HTTP client; [res_data] is how it settles. *)
Definition getFinalizedScope (res_data : outcome value) : M state value :=
  try_catch
    (d <- backend GetFinalizedScope res_data ;;
     if negb (truthy d) then ret VNull else ret d)
    (fun err => throw err).

(** ** The project list

    [updateProject], [deleteProject] and [deleteAllProjects] change the
    list at once and put it back when the backend call fails.  [prev] is
    [projects] as the render that made the function saw it. *)

(** [updateProject(id, data)]; [updated] is how
    [projectApi.updateProject(id, data)] settles (its [res.data]). *)
Definition updateProject (prev : list value) (id data : value)
  (updated : outcome value) : M state value :=
  setProjects (fun cur => replaceById cur id data) ;;;
  try_catch
    (res_data <- await updated ;;
     setProjects (fun cur => replaceById cur id (or_else res_data data)) ;;;
     ret res_data)
    (fun err => setProjects (fun _ => Ok prev) ;;; throw err).

(** [deleteProject(id)]; [deleted] is how [projectApi.deleteProject(id)]
    settles. *)
Definition deleteProject (prev : list value) (id : value)
  (deleted : outcome unit) : M state unit :=
  setProjects (fun cur => removeById cur id) ;;;
  try_catch
    (await deleted)
    (fun err => setProjects (fun _ => Ok prev) ;;; throw err).

(** [deleteAllProjects()]. *)
Definition deleteAllProjects (prev : list value) (deleted : outcome unit)
  : M state unit :=
  setProjects (fun _ => Ok []) ;;;
  try_catch
    (await deleted)
    (fun err => setProjects (fun _ => Ok prev) ;;; throw err).

(** The provider's state: the shared state above, with the [loading] and
    [error] that [fetchProjects] sets. *)
Module Provider.

Record t : Type := mk {
  shared : state;
  loading : bool;
  error : value
}.

Definition setLoading (b : bool) (p : t) : t := mk (shared p) b (error p).

Definition setError (v : value) (p : t) : t := mk (shared p) (loading p) v.

End Provider.

(** An update of the shared state, made by the provider. *)
Definition on_shared {A : Type} (m : M state A) : M Provider.t A :=
  fun p =>
    let '(o, s') := m (Provider.shared p) in
    (o, Provider.mk s' (Provider.loading p) (Provider.error p)).

(** [fetchProjects()]; [got] is how [projectApi.getProjects()] settles:
    its [res.data], an array, or [None] for a [res.data] that is falsy. *)
Definition fetchProjects (got : outcome (option (list value)))
  : M Provider.t unit :=
  try_finally
    (try_catch
       (modify (Provider.setLoading true) ;;;
        res_data <- await got ;;
        on_shared
          (setProjects (fun _ =>
             Ok (match res_data with
                 | Some l => l
                 | None => []
                 end))) ;;;
        modify (Provider.setError VNull))
       (fun err => modify (Provider.setError (VStr "Failed to fetch projects"))))
    (Provider.setLoading false).

End ProjectContext.

(* ================================================================== *)
(** * [contexts/ExportContext.jsx] *)
(* ================================================================== *)

Module ExportContext.

Local Open Scope async_scope.

Record state : Type := mkState {
  loading : bool;
  error : value
}.

Definition setLoading (b : bool) (s : state) : state := mkState b (error s).

Definition setError (v : value) (s : state) : state := mkState (loading s) v.

(** [err?.message || err?.response?.data?.detail || "Export failed. Please
    try again."]; the errors of the HTTP client carry a message. *)
Definition error_text (err : exn) : value :=
  or_else (VStr (err_message err)) (VStr "Export failed. Please try again.").

(** [handleExport(fn, ...args)], where [fn(...args)] settles as [o]. *)
Definition handleExport {A : Type} (o : outcome A) : M state A :=
  try_finally
    (try_catch
       (modify (setLoading true) ;;;
        modify (setError VNull) ;;;
        await o)
       (fun err =>
          modify (setError (error_text err)) ;;;
          throw err))
    (setLoading false).

(** [getPdfBlob(id)]. *)
Definition getPdfBlob (w : Axios.wire blob) : M state blob :=
  handleExport (ExportApi.getPdfBlob false w).

(** [getFinalizedScope(id)]: the finalized scope, or [null] when the
    backend answers 400. *)
Definition getFinalizedScope (w : Axios.wire value) : M state value :=
  try_catch
    (handleExport (ExportApi.exportToJson false w))
    (fun err => if status_is err 400 then ret VNull else throw err).

(** [!data || Object.keys(data).length === 0]. *)
Definition no_data (data : value) : bool :=
  negb (truthy data)
  || match keys data with
     | Some [] => true
     | _ => false
     end.

(** [previewPdf(id, scope)]; [None] is the [null] it returns without a
    call when there is nothing to render. *)
Definition previewPdf (scope : value) (finalized : Axios.wire value)
  (rendered : Axios.wire blob) : M state (option blob) :=
  finalScope <- getFinalizedScope finalized ;;
  let data := or_else finalScope scope in
  if no_data data then ret None
  else
    b <- handleExport (ExportApi.previewPdf rendered) ;;
    ret (Some b).

(** [previewJson(id, scope)]; [rendered] tells what the backend answers
    to the scope it is sent. *)
Definition previewJson (scope : value) (finalized : Axios.wire value)
  (rendered : value -> Axios.wire value) : M state value :=
  finalScope <- getFinalizedScope finalized ;;
  let data := or_else finalScope scope in
  if no_data data then ret (VObj [])
  else handleExport (ExportApi.previewJson (rendered data)).

(** [previewExcel(id, scope)]. *)
Definition previewExcel (scope : value) (finalized : Axios.wire value)
  (rendered : value -> Axios.wire blob) : M state (option blob) :=
  finalScope <- getFinalizedScope finalized ;;
  let data := or_else finalScope scope in
  if no_data data then ret None
  else
    b <- handleExport (ExportApi.previewExcel (rendered data)) ;;
    ret (Some b).

(** [downloadExcel(id)], [downloadPdf(id)] and [exportJson(id, download)]. *)
Definition downloadExcel (w : Axios.wire blob) : M state blob :=
  handleExport (ExportApi.exportToExcel false w).

Definition downloadPdf (w : Axios.wire blob) : M state blob :=
  handleExport (ExportApi.exportToPdf false w).

Definition exportJson (w : Axios.wire value) : M state value :=
  handleExport (ExportApi.exportToJson false w).

End ExportContext.

(* ================================================================== *)
(** * [pages/Exports.jsx] *)
(* ================================================================== *)

Module Exports.

Local Open Scope async_scope.

(** ** The component's store *)

(** [activeTab]: ["json"], ["excel"] or ["pdf"]. *)
Inductive tab : Type :=
| TabJson
| TabExcel
| TabPdf.

Definition tab_eqb (a b : tab) : bool :=
  match a, b with
  | TabJson, TabJson | TabExcel, TabExcel | TabPdf, TabPdf => true
  | _, _ => false
  end.

(** [excelPreview]: the grid the Excel tab shows. *)
Record table : Type := mkTable {
  headers : list string;
  rows : list (list value)
}.

(** What [toast.success], [toast.error] and [toast.info] show. *)
Inductive toast : Type :=
| ToastSuccess (msg : string)
| ToastError (msg : string)
| ToastInfo (msg : string).

(** The entry of [downloadState] for one download. *)
Module Download.

Record t : Type := mk {
  loading : bool;
  progress : Z;
  controller : option nat
}.

End Download.

(** The four downloads: ["json"], ["excel"], ["pdf"] and ["all"]. *)
Inductive download_key : Type :=
| KJson
| KExcel
| KPdf
| KAll.

Definition download_key_eqb (a b : download_key) : bool :=
  match a, b with
  | KJson, KJson | KExcel, KExcel | KPdf, KPdf | KAll, KAll => true
  | _, _ => false
  end.

Definition downloads : Type := download_key -> Download.t.

(** An object URL made by [URL.createObjectURL]. *)
Record object_url : Type := mkUrl {
  url_id : nat;
  url_blob : blob
}.

(** The object URLs made so far, and the revoked ones. *)
Record url_store : Type := mkUrls {
  created : nat;
  revoked : list nat
}.

(** The entries of a ZIP archive, by name, in the order they were added:
    a file with its data, or a folder, which has none. *)
Definition zip_entries : Type := list (string * option string).

(** A file the browser saved: a download link that was clicked, or the
    archive handed to [saveAs] with its entries. *)
Inductive saved_file : Type :=
| File (name : string) (content : blob)
| Archive (name : string) (entries : zip_entries).

(** A backend call the page makes for the PDF preview. *)
Inductive request : Type :=
| GetPdfBlob
| PreviewPdf (draft : value).

(** The state, the refs, and what the page did to the outside. *)
Record page : Type := mkPage {
  jsonText : string;
  project : value;
  activeTab : tab;
  loading : bool;
  isFinalized : bool;
  justFinalized : bool;
  finalizing : bool;
  showSuccessBanner : bool;
  excelSection : string;
  excelPreview : table;
  previewPdfUrl : option object_url;
  cachedPdfBlobRef : option blob;
  lastPdfKeyRef : string;
  prevJsonRef : string;
  downloadState : downloads;
  toasts : list toast;
  saved : list saved_file;
  requests : list request;
  urls : url_store
}.

Definition setJsonText (x : string) (s : page) : page :=
  mkPage x (project s) (activeTab s) (loading s) (isFinalized s)
    (justFinalized s) (finalizing s) (showSuccessBanner s) (excelSection s)
    (excelPreview s) (previewPdfUrl s) (cachedPdfBlobRef s) (lastPdfKeyRef
    s) (prevJsonRef s) (downloadState s) (toasts s) (saved s) (requests s)
    (urls s).

Definition setProject (x : value) (s : page) : page :=
  mkPage (jsonText s) x (activeTab s) (loading s) (isFinalized s)
    (justFinalized s) (finalizing s) (showSuccessBanner s) (excelSection s)
    (excelPreview s) (previewPdfUrl s) (cachedPdfBlobRef s) (lastPdfKeyRef
    s) (prevJsonRef s) (downloadState s) (toasts s) (saved s) (requests s)
    (urls s).

Definition setActiveTab (x : tab) (s : page) : page :=
  mkPage (jsonText s) (project s) x (loading s) (isFinalized s)
    (justFinalized s) (finalizing s) (showSuccessBanner s) (excelSection s)
    (excelPreview s) (previewPdfUrl s) (cachedPdfBlobRef s) (lastPdfKeyRef
    s) (prevJsonRef s) (downloadState s) (toasts s) (saved s) (requests s)
    (urls s).

Definition setLoading (x : bool) (s : page) : page :=
  mkPage (jsonText s) (project s) (activeTab s) x (isFinalized s)
    (justFinalized s) (finalizing s) (showSuccessBanner s) (excelSection s)
    (excelPreview s) (previewPdfUrl s) (cachedPdfBlobRef s) (lastPdfKeyRef
    s) (prevJsonRef s) (downloadState s) (toasts s) (saved s) (requests s)
    (urls s).

Definition setIsFinalized (x : bool) (s : page) : page :=
  mkPage (jsonText s) (project s) (activeTab s) (loading s) x
    (justFinalized s) (finalizing s) (showSuccessBanner s) (excelSection s)
    (excelPreview s) (previewPdfUrl s) (cachedPdfBlobRef s) (lastPdfKeyRef
    s) (prevJsonRef s) (downloadState s) (toasts s) (saved s) (requests s)
    (urls s).

Definition setJustFinalized (x : bool) (s : page) : page :=
  mkPage (jsonText s) (project s) (activeTab s) (loading s) (isFinalized
    s) x (finalizing s) (showSuccessBanner s) (excelSection s) (excelPreview
    s) (previewPdfUrl s) (cachedPdfBlobRef s) (lastPdfKeyRef s) (prevJsonRef
    s) (downloadState s) (toasts s) (saved s) (requests s) (urls s).

Definition setFinalizing (x : bool) (s : page) : page :=
  mkPage (jsonText s) (project s) (activeTab s) (loading s) (isFinalized
    s) (justFinalized s) x (showSuccessBanner s) (excelSection s)
    (excelPreview s) (previewPdfUrl s) (cachedPdfBlobRef s) (lastPdfKeyRef
    s) (prevJsonRef s) (downloadState s) (toasts s) (saved s) (requests s)
    (urls s).

Definition setShowSuccessBanner (x : bool) (s : page) : page :=
  mkPage (jsonText s) (project s) (activeTab s) (loading s) (isFinalized
    s) (justFinalized s) (finalizing s) x (excelSection s) (excelPreview s)
    (previewPdfUrl s) (cachedPdfBlobRef s) (lastPdfKeyRef s) (prevJsonRef s)
    (downloadState s) (toasts s) (saved s) (requests s) (urls s).

Definition setExcelSection (x : string) (s : page) : page :=
  mkPage (jsonText s) (project s) (activeTab s) (loading s) (isFinalized
    s) (justFinalized s) (finalizing s) (showSuccessBanner s) x
    (excelPreview s) (previewPdfUrl s) (cachedPdfBlobRef s) (lastPdfKeyRef
    s) (prevJsonRef s) (downloadState s) (toasts s) (saved s) (requests s)
    (urls s).

Definition setExcelPreview (x : table) (s : page) : page :=
  mkPage (jsonText s) (project s) (activeTab s) (loading s) (isFinalized
    s) (justFinalized s) (finalizing s) (showSuccessBanner s) (excelSection
    s) x (previewPdfUrl s) (cachedPdfBlobRef s) (lastPdfKeyRef s)
    (prevJsonRef s) (downloadState s) (toasts s) (saved s) (requests s)
    (urls s).

Definition setPreviewPdfUrl (x : option object_url) (s : page) : page :=
  mkPage (jsonText s) (project s) (activeTab s) (loading s) (isFinalized
    s) (justFinalized s) (finalizing s) (showSuccessBanner s) (excelSection
    s) (excelPreview s) x (cachedPdfBlobRef s) (lastPdfKeyRef s)
    (prevJsonRef s) (downloadState s) (toasts s) (saved s) (requests s)
    (urls s).

Definition set_cachedPdfBlobRef (x : option blob) (s : page) : page :=
  mkPage (jsonText s) (project s) (activeTab s) (loading s) (isFinalized
    s) (justFinalized s) (finalizing s) (showSuccessBanner s) (excelSection
    s) (excelPreview s) (previewPdfUrl s) x (lastPdfKeyRef s) (prevJsonRef
    s) (downloadState s) (toasts s) (saved s) (requests s) (urls s).

Definition set_lastPdfKeyRef (x : string) (s : page) : page :=
  mkPage (jsonText s) (project s) (activeTab s) (loading s) (isFinalized
    s) (justFinalized s) (finalizing s) (showSuccessBanner s) (excelSection
    s) (excelPreview s) (previewPdfUrl s) (cachedPdfBlobRef s) x
    (prevJsonRef s) (downloadState s) (toasts s) (saved s) (requests s)
    (urls s).

Definition set_prevJsonRef (x : string) (s : page) : page :=
  mkPage (jsonText s) (project s) (activeTab s) (loading s) (isFinalized
    s) (justFinalized s) (finalizing s) (showSuccessBanner s) (excelSection
    s) (excelPreview s) (previewPdfUrl s) (cachedPdfBlobRef s)
    (lastPdfKeyRef s) x (downloadState s) (toasts s) (saved s) (requests s)
    (urls s).

Definition setDownloadState (x : downloads) (s : page) : page :=
  mkPage (jsonText s) (project s) (activeTab s) (loading s) (isFinalized
    s) (justFinalized s) (finalizing s) (showSuccessBanner s) (excelSection
    s) (excelPreview s) (previewPdfUrl s) (cachedPdfBlobRef s)
    (lastPdfKeyRef s) (prevJsonRef s) x (toasts s) (saved s) (requests s)
    (urls s).

Definition set_toasts (x : list toast) (s : page) : page :=
  mkPage (jsonText s) (project s) (activeTab s) (loading s) (isFinalized
    s) (justFinalized s) (finalizing s) (showSuccessBanner s) (excelSection
    s) (excelPreview s) (previewPdfUrl s) (cachedPdfBlobRef s)
    (lastPdfKeyRef s) (prevJsonRef s) (downloadState s) x (saved s)
    (requests s) (urls s).

Definition set_saved (x : list saved_file) (s : page) : page :=
  mkPage (jsonText s) (project s) (activeTab s) (loading s) (isFinalized
    s) (justFinalized s) (finalizing s) (showSuccessBanner s) (excelSection
    s) (excelPreview s) (previewPdfUrl s) (cachedPdfBlobRef s)
    (lastPdfKeyRef s) (prevJsonRef s) (downloadState s) (toasts s) x
    (requests s) (urls s).

Definition set_requests (x : list request) (s : page) : page :=
  mkPage (jsonText s) (project s) (activeTab s) (loading s) (isFinalized
    s) (justFinalized s) (finalizing s) (showSuccessBanner s) (excelSection
    s) (excelPreview s) (previewPdfUrl s) (cachedPdfBlobRef s)
    (lastPdfKeyRef s) (prevJsonRef s) (downloadState s) (toasts s) (saved s)
    x (urls s).

Definition set_urls (x : url_store) (s : page) : page :=
  mkPage (jsonText s) (project s) (activeTab s) (loading s) (isFinalized
    s) (justFinalized s) (finalizing s) (showSuccessBanner s) (excelSection
    s) (excelPreview s) (previewPdfUrl s) (cachedPdfBlobRef s)
    (lastPdfKeyRef s) (prevJsonRef s) (downloadState s) (toasts s) (saved s)
    (requests s) x.

Definition initial_downloads : downloads :=
  fun _ => Download.mk false 0 None.

(** The store of a freshly mounted page. *)
Definition initial_page : page :=
  mkPage "" VNull TabJson false false false false false ""
         (mkTable [] []) None None "" "" initial_downloads [] [] []
         (mkUrls 0 []).

Definition toast_show (t : toast) (s : page) : page :=
  set_toasts (toasts s ++ [t])%list s.

(** [URL.createObjectURL(b)] hands out a new URL. *)
Definition createObjectURL (b : blob) (s : page) : object_url * page :=
  (mkUrl (created (urls s)) b,
   set_urls (mkUrls (S (created (urls s))) (revoked (urls s))) s).

Definition revokeObjectURL (u : object_url) (s : page) : page :=
  set_urls (mkUrls (created (urls s)) (url_id u :: revoked (urls s))) s.

(** The text [JSON.stringify(v, null, 2)] gives for a [v] other than
    [undefined]. *)
Definition text_of (o : option string) : string :=
  match o with
  | Some t => t
  | None => ""
  end.

(** ** Derived values *)

(** [parsedDraft], memoized on [jsonText]: [null] for blank text and for
    text that does not parse. *)
Definition parse_draft (jsonText : string) : value :=
  if String.eqb (trim jsonText) "" then VNull
  else
    match parse jsonText with
    | Some obj => obj
    | None => VNull
    end.

Definition parsedDraft (s : page) : value := parse_draft (jsonText s).

(** [formatCurrency(v)]. *)
Definition formatCurrency (v : value) : value :=
  if nullish v || strict_eq v (VStr "") then VStr ""
  else
    let n := ToNumber v in
    if is_nan n then v else VStr (toLocaleString_USD n).

(** ** Writing the grid back: [updateParsedDraft] *)

Fixpoint with_index {A : Type} (i : nat) (l : list A) : list (A * nat) :=
  match l with
  | [] => []
  | a :: r => (a, i) :: with_index (S i) r
  end.

(** [row[idx]]. *)
Definition cell (row : list value) (idx : nat) : value := nth idx row VUndefined.

(** The overview object built from the rows: [if (k) newOverview[k] = v],
    starting from [{}].  Only its own properties are serialized. *)
Definition overview_of_rows (newRows : list (list value)) : props :=
  fst (fold_left
         (fun newOverview row =>
            let k := cell row 0 in
            let v := cell row 1 in
            if truthy k then assign_property newOverview (ToString k) v
            else newOverview)
         newRows ([], ObjectPrototype)).

(** One row object: [headers.reduce((obj, h, idx) => { obj[h] = row[idx];
    return obj; }, {})]. *)
Definition object_of_row (hs : list string) (row : list value) : value :=
  VObj (fst (fold_left
               (fun obj hi => assign_property obj (fst hi) (cell row (snd hi)))
               (with_index 0 hs) ([], ObjectPrototype))).

(** [{ ...parsedDraft, [section]: v }]. *)
Definition with_section (draft : value) (section : string) (v : value)
  : value :=
  VObj (set (own_props draft) section v).

(** The draft [updateParsedDraft] serializes. *)
Definition newDraft (r : page) (section : string)
  (newRows : list (list value)) : value :=
  if String.eqb section "overview" then
    with_section (parsedDraft r) "overview" (VObj (overview_of_rows newRows))
  else
    with_section (parsedDraft r) section
      (VArr (map (object_of_row (headers (excelPreview r))) newRows)).

(** [updateParsedDraft(section, newRows)], called in the render [r]. *)
Definition updateParsedDraft (r : page) (section : string)
  (newRows : list (list value)) (s : page) : page :=
  if negb (truthy (parsedDraft r)) then s
  else setJsonText (text_of (stringify2 (newDraft r section newRows))) s.

(** ** The grid's handlers *)

(** [row[j] = x]: past the end the array grows, the gap reading
    [undefined]. *)
Fixpoint assign (row : list value) (j : nat) (x : value) : list value :=
  match j, row with
  | O, [] => [x]
  | O, _ :: t => x :: t
  | S k, [] => VUndefined :: assign [] k x
  | S k, h :: t => h :: assign t k x
  end.

(** [newRows[i][j] = x] on the rows. *)
Fixpoint assign_cell (rs : list (list value)) (i j : nat) (x : value)
  : list (list value) :=
  match i, rs with
  | _, [] => []
  | O, row :: t => assign row j x :: t
  | S k, row :: t => row :: assign_cell t k j x
  end.

(** The [onChange] of the input in row [i], column [j], called in the
    render [r].  The grid renders inputs for the cells it has, in rows
    other than the Total row; for a row it does not have, [newRows[i]] is
    [undefined] and the assignment throws before any update. *)
Definition editCell (r : page) (i j : nat) (text : string) (s : page) : page :=
  if (i <? List.length (rows (excelPreview r)))%nat then
    let newRows := assign_cell (rows (excelPreview r)) i j (VStr text) in
    updateParsedDraft r (excelSection r) newRows
      (setExcelPreview (mkTable (headers (excelPreview r)) newRows) s)
  else s.

Fixpoint remove_nth {A : Type} (i : nat) (l : list A) : list A :=
  match i, l with
  | _, [] => []
  | O, _ :: t => t
  | S k, h :: t => h :: remove_nth k t
  end.

(** The Delete button of row [i]. *)
Definition deleteRow (r : page) (i : nat) (s : page) : page :=
  let newRows := remove_nth i (rows (excelPreview r)) in
  updateParsedDraft r (excelSection r) newRows
    (setExcelPreview (mkTable (headers (excelPreview r)) newRows) s).

(** The Add New button. *)
Definition addRow (r : page) (s : page) : page :=
  let emptyRow := map (fun _ => VStr "") (headers (excelPreview r)) in
  let newRows := (rows (excelPreview r) ++ [emptyRow])%list in
  updateParsedDraft r (excelSection r) newRows
    (setExcelPreview (mkTable (headers (excelPreview r)) newRows) s).

(** ** The Excel preview effect *)

(** The cell shown for column [h] of the row object [r]. *)
Definition shown_cell (r : value) (h : string) : outcome value :=
  match read r h with
  | Throw e => Throw e
  | Ok v =>
      if includes (toLowerCase h) "rate" || includes (toLowerCase h) "cost"
      then Ok (formatCurrency v)
      else Ok v
  end.

(** [headers.filter((h) => h.split(" ").length === 2)]. *)
Definition monthCols (hs : list string) : list string :=
  filter (fun h => Nat.eqb (List.length (split h " "%char)) 2) hs.

(** [parseFloat(v || 0) || 0]. *)
Definition month_effort (v : value) : float :=
  let x := parseFloat (or_else v (VNum 0)) in
  if truthy (VNum x) then x else 0%float.

(** [monthCols.reduce((acc, m) => acc + (parseFloat(r[m] || 0) || 0), 0)]. *)
Fixpoint sumMonths (cols : list string) (r : value) (acc : float)
  : outcome float :=
  match cols with
  | [] => Ok acc
  | m :: rest =>
      match read r m with
      | Throw e => Throw e
      | Ok v => sumMonths rest r (acc + month_effort v)%float
      end
  end.

(** [parseFloat(r["Rate/month"] || 0)]. *)
Definition rate_of (r : value) : outcome float :=
  match read r "Rate/month" with
  | Throw e => Throw e
  | Ok v => Ok (parseFloat (or_else v (VNum 0)))
  end.

(** The [arr.forEach] loop over [totalEfforts] and [totalCost]. *)
Fixpoint totals (cols : list string) (arr : list value)
  (totalEfforts totalCost : float) : outcome (float * float) :=
  match arr with
  | [] => Ok (totalEfforts, totalCost)
  | r :: rest =>
      match sumMonths cols r 0%float with
      | Throw e => Throw e
      | Ok sum =>
          match rate_of r with
          | Throw e => Throw e
          | Ok rate =>
              totals cols rest (totalEfforts + sum)%float
                     (totalCost + sum * rate)%float
          end
      end
  end.

(** The Total row: effort in the last column but one, cost in the last. *)
Definition totalRow (hs : list string) (totalEfforts totalCost : float)
  : list value :=
  let n := Z.of_nat (List.length hs) in
  map (fun hi =>
         let idx := Z.of_nat (snd hi) in
         if idx =? n - 2 then VNum (StringToNumber (toFixed totalEfforts 2))
         else if idx =? n - 1 then formatCurrency (VNum totalCost)
         else if idx =? 0 then VStr "Total"
         else VStr "")
      (with_index 0 hs).

(** The grid of an array section whose first element is an object. *)
Definition array_table (section : string) (arr : list value) : outcome table :=
  match keys (nth 0 arr VUndefined) with
  | None => Throw (TypeError "cannot convert undefined or null to object")
  | Some hs =>
      match mapM (fun r => mapM (shown_cell r) hs) arr with
      | Throw e => Throw e
      | Ok rs =>
          if String.eqb section "resourcing_plan" then
            match totals (monthCols hs) arr 0%float 0%float with
            | Throw e => Throw e
            | Ok (totalEfforts, totalCost) =>
                Ok (mkTable hs (rs ++ [totalRow hs totalEfforts totalCost])%list)
            end
          else Ok (mkTable hs rs)
      end
  end.

(** The grid of the overview: [Object.entries(ov).map(([k, v]) => [k, v])]. *)
Definition overview_table (ov : value) : table :=
  mkTable ["Field"; "Value"]
          (map (fun kv => [VStr (fst kv); snd kv]) (own_props ov)).

(** The sections the selector offers. *)
Definition section_keys (draft : value) : list string :=
  map fst
      (filter (fun kv => isArray (snd kv) || String.eqb (fst kv) "overview")
              (own_props draft)).

(** The effect on [parsedDraft, excelSection, activeTab]. *)
Definition excelPreviewEffect (r : page) : M page unit :=
  let draft := parsedDraft r in
  if negb (truthy draft) || negb (tab_eqb (activeTab r) TabExcel) then ret tt
  else
    (match section_keys draft with
     | k :: _ =>
         if String.eqb (excelSection r) "" then modify (setExcelSection k)
         else ret tt
     | [] => ret tt
     end) ;;;
    if String.eqb (excelSection r) "" then ret tt
    else if String.eqb (excelSection r) "overview" then
      ov <- await (read draft "overview") ;;
      modify (setExcelPreview (overview_table (or_else ov (VObj []))))
    else
      sec <- await (read draft (excelSection r)) ;;
      match sec with
      | VArr arr =>
          if negb (Nat.eqb (List.length arr) 0)
             && typeof_object (nth 0 arr VUndefined)
          then
            t <- await (array_table (excelSection r) arr) ;;
            modify (setExcelPreview t)
          else modify (setExcelPreview (mkTable [] []))
      | _ => ret tt
      end.

(** ** The effects on the text and the flags *)

(** The load effect on [id, incomingDraft, justFinalized], run in the
    render [r]: [got] is how [projectApi.getProject(id)] settles (its
    [res.data]), [finalized] how [getFinalizedScope(id)] does. *)
Definition loadProject (r : page) (incomingDraft : value)
  (got finalized : outcome value) : M page unit :=
  try_finally
    (try_catch
       (modify (setLoading true) ;;;
        res_data <- await got ;;
        modify (setProject res_data) ;;;
        if isFinalized r && justFinalized r then ret tt
        else
          finalizedData <- await finalized ;;
          if truthy finalizedData then
            modify (setJsonText (text_of (stringify2 finalizedData))) ;;;
            modify (setIsFinalized true)
          else if truthy incomingDraft then
            modify (setJsonText (text_of (stringify2 incomingDraft))) ;;;
            modify (setIsFinalized false)
          else
            modify (setJsonText "") ;;;
            modify (setIsFinalized false))
       (fun e => ret tt))
    (setLoading false).

(** The effect on [jsonText]: clear the cached PDF. *)
Definition clearCachedPdf (s : page) : page :=
  setPreviewPdfUrl None (set_lastPdfKeyRef "" (set_cachedPdfBlobRef None s)).

(** The effect on [jsonText, isFinalized, justFinalized]: one pass of the
    edit detection, run in the render [r] on the store [s]. *)
Definition detectEdit (r : page) (s : page) : page :=
  let s1 :=
    if isFinalized r
       && negb (String.eqb (prevJsonRef s) "")
       && negb (String.eqb (prevJsonRef s) (jsonText r))
       && negb (justFinalized r)
    then setIsFinalized false s
    else s in
  let s2 := set_prevJsonRef (jsonText r) s1 in
  if justFinalized r then setJustFinalized false s2 else s2.

(** The cleanup of the effect on [previewPdfUrl], for the URL of the
    render it was set up in. *)
Definition revokePreviewUrl (r : page) (s : page) : page :=
  match previewPdfUrl r with
  | Some u => revokeObjectURL u s
  | None => s
  end.

(** ** The PDF preview effect *)

(** [cachedBlob.size > 0 && cachedBlob.type === "application/pdf"]. *)
Definition valid_pdf (b : blob) : bool :=
  (0 <? blob_size b) && String.eqb (blob_type b) "application/pdf".

Definition log_request (q : request) (s : page) : page :=
  set_requests (requests s ++ [q])%list s.

Definition show_blob (b : blob) (s : page) : page :=
  let '(u, s') := createObjectURL b s in setPreviewPdfUrl (Some u) s'.

(** The cache miss, up to its [await]: the call is made. *)
Definition requestPdf (r : page) (s : page) : page :=
  log_request (if isFinalized r then GetPdfBlob
               else PreviewPdf (parsedDraft r)) s.

(** The cache miss, from its [await] on.  [fetched] is how the call
    settled and [s] is the store by then: the page went on while the call
    was in flight.  The blob is checked, cached under the key of the
    render that made the call, and shown; nothing looks at whether the
    draft of that render is still the one in the editor. *)
Definition settlePdf (r : page) (currentKey : string)
  (fetched : outcome (option blob)) (s : page) : page :=
  match fetched with
  | Throw err => toast_show (ToastError "Failed to load PDF preview.") s
  | Ok (Some b) =>
      if valid_pdf b then
        let s1 := set_lastPdfKeyRef currentKey (set_cachedPdfBlobRef (Some b) s) in
        show_blob b (revokePreviewUrl r s1)
      else toast_show (ToastError " Invalid PDF generated.") s
  | Ok None => toast_show (ToastError " Invalid PDF generated.") s
  end.

(** The cache miss when the call settles before anything else happens. *)
Definition fetchPdf (r : page) (currentKey : string)
  (fetched : outcome (option blob)) (s : page) : page :=
  settlePdf r currentKey fetched (requestPdf r s).

(** The effect on [activeTab, parsedDraft, isFinalized, id, getPdfBlob,
    previewPdf], run in the render [r] on the store [s], up to the
    [await] of the call it may make: the store it leaves, and the key of
    the call when it made one. *)
Definition pdfPreviewEffect_start (r : page) (s : page)
  : page * option string :=
  if negb (tab_eqb (activeTab r) TabPdf) || negb (truthy (parsedDraft r))
  then (s, None)
  else
    let currentKey := text_of (stringify (parsedDraft r)) in
    match cachedPdfBlobRef s with
    | Some cachedBlob =>
        if String.eqb (lastPdfKeyRef s) currentKey then
          (if valid_pdf cachedBlob then show_blob cachedBlob s else s, None)
        else (requestPdf r s, Some currentKey)
    | None => (requestPdf r s, Some currentKey)
    end.

(** The effect when the call it may make settles before anything else
    happens.  [fetched] is how the call settles: [getPdfBlob(id)] when
    finalized, [previewPdf(id, parsedDraft)] otherwise ([None] is the
    [null] the latter may return). *)
Definition pdfPreviewEffect (r : page) (fetched : outcome (option blob))
  (s : page) : page :=
  match pdfPreviewEffect_start r s with
  | (s1, Some currentKey) => settlePdf r currentKey fetched s1
  | (s1, None) => s1
  end.

(** The effects that run after a render in which [jsonText] changed, in
    the order the component declares them: the cached PDF is cleared, the
    edit detection makes a pass, and the PDF preview runs on the new
    [parsedDraft].  [r] is the new render; the store is the one of that
    render.  [text_changed] is the store when these effects have
    returned, with the key of the call the last of them made;
    [after_text_change] is the store when that call has settled before
    anything else happened. *)
Definition text_changed (r : page) : page * option string :=
  pdfPreviewEffect_start r (detectEdit r (clearCachedPdf r)).


(** ** [handleFinalize] *)

(** Up to the first [await]. *)
Definition finalize_begin : M page unit := modify (setFinalizing true).

(** From [finalizeScope] resolving to the second [await]. *)
Definition finalize_succeeded : M page unit :=
  modify (toast_show (ToastSuccess "Scope finalized successfully!")) ;;;
  modify (setJustFinalized true) ;;;
  modify (setIsFinalized true) ;;;
  modify (setShowSuccessBanner true).

(** From [getFinalizedScope] resolving to the end of the [try] block. *)
Definition finalize_refetched (finalizedData : value) : M page unit :=
  (if truthy finalizedData
   then modify (setJsonText (text_of (stringify2 finalizedData)))
   else ret tt) ;;;
  modify (setPreviewPdfUrl None).

(** [handleFinalize], called in the render [r]: [finalized] is how
    [finalizeScope(id, parsedDraft)] settles, [refetched] how
    [getFinalizedScope(id)] does.  The page goes on while an awaited call
    is in flight: React renders and runs the effects, the user may type.
    [meanwhile1] and [meanwhile2] are what that does to the store during
    the first and during the second [await]. *)
Definition handleFinalize_with (meanwhile1 meanwhile2 : page -> page)
  (r : page) (finalized : outcome unit) (refetched : outcome value)
  : M page unit :=
  if negb (truthy (parsedDraft r)) then ret tt
  else
    try_finally
      (try_catch
         (finalize_begin ;;;
          modify meanwhile1 ;;;
          await finalized ;;;
          finalize_succeeded ;;;
          modify meanwhile2 ;;;
          finalizedData <- await refetched ;;
          finalize_refetched finalizedData)
         (fun err => modify (toast_show (ToastError "Failed to finalize scope."))))
      (setFinalizing false).

(** [handleFinalize] when nothing else touches the store while it
    waits. *)
Definition handleFinalize (r : page) (finalized : outcome unit)
  (refetched : outcome value) : M page unit :=
  handleFinalize_with (fun s => s) (fun s => s) r finalized refetched.

(** The timer [handleFinalize] leaves behind fires five seconds later. *)
Definition hide_banner (s : page) : page := setShowSuccessBanner false s.

(** ** Downloads *)

Definition update_key (key : download_key) (f : Download.t -> Download.t)
  (s : page) : page :=
  setDownloadState
    (fun k => if download_key_eqb k key then f (downloadState s k)
              else downloadState s k) s.

Definition startDownload (key : download_key) (controller : nat) : page -> page :=
  update_key key (fun d => Download.mk true 0 (Some controller)).

Definition updateProgress (key : download_key) (percent : Z) : page -> page :=
  update_key key (fun d =>
    Download.mk (Download.loading d) percent (Download.controller d)).

Definition finishDownload (key : download_key) : page -> page :=
  update_key key (fun d => Download.mk false 100 None).

Definition resetDownload (key : download_key) : page -> page :=
  update_key key (fun d => Download.mk false 0 None).

(** [parsedDraft?.overview?.["Project Name"] || `project_${id}`]. *)
Definition projectName (r : page) (id : string) : value :=
  let named :=
    match prop (parsedDraft r) "overview" with
    | Some ov =>
        match prop ov "Project Name" with
        | Some n => n
        | None => VUndefined
        end
    | None => VUndefined
    end in
  or_else named (VStr ("project_" ++ id)).

(** The link [downloadFile] builds and clicks: the file is saved under
    [filename], and the URL is revoked. *)
Definition click_link (b : blob) (filename : string) (s : page) : page :=
  let '(u, s1) := createObjectURL b s in
  revokeObjectURL u (set_saved (saved s1 ++ [File filename b])%list s1).

(** [downloadFile(key, fetchFn, defaultName, ext)] with a new controller.
    [fetched] is how [fetchFn(opts)] settles ([None]: no blob), and
    [aborted] is [controller.signal.aborted] when the [catch] block reads
    it: whether the user pressed Cancel in the meantime.  The toasts of
    the [catch] block print [defaultName] as a template literal does for
    a name that is [printable]. *)
Definition downloadFile (key : download_key) (controller : nat)
  (fetched : outcome (option blob)) (aborted : bool)
  (defaultName : value) (ext : string) : M page unit :=
  modify (startDownload key controller) ;;;
  try_catch
    (ob <- await fetched ;;
     match ob with
     | Some b =>
         if blob_size b =? 0 then throw (mkExn "Empty file" None)
         else
           filename <- await (ExportApi.safeFileName defaultName ext) ;;
           modify (click_link b filename) ;;;
           modify (finishDownload key) ;;;
           modify (toast_show (ToastSuccess (filename ++ " downloaded")))
     | None => throw (mkExn "Empty file" None)
     end)
    (fun err =>
       (if aborted
        then modify (toast_show
                       (ToastInfo (ToString defaultName ++ " download cancelled")))
        else modify (toast_show
                       (ToastError ("Failed to download " ++ ToString defaultName)))) ;;;
       modify (resetDownload key)).

(** What [new Blob([text])] holds for the [text] of [JSON.stringify]. *)
Definition blob_part (o : option string) : string :=
  match o with
  | Some t => t
  | None => "undefined"
  end.

(** The [fetchFn] of [handleDownloadJson]: the [opts] it is given go to
    [exportApi.exportToJson], which takes the project id alone. *)
Definition fetchJson (aborted : bool) (w : Axios.wire value)
  : outcome (option blob) :=
  match ExportApi.exportToJson aborted w with
  | Throw e => Throw e
  | Ok d => Ok (Some (mkBlob (blob_part (stringify2 d)) "application/json"))
  end.

(** The [fetchFn] of [handleDownloadExcel] and of [handleDownloadPdf]. *)
Definition fetchBinary (aborted : bool) (w : Axios.wire blob)
  : outcome (option blob) :=
  match ExportApi.fetchExportBlob aborted w with
  | Throw e => Throw e
  | Ok b => Ok (Some b)
  end.

(** The three buttons, called in the render [r]; [aborted] says whether
    the user presses Cancel while the request is in flight. *)
Definition handleDownloadJson (r : page) (id : string) (controller : nat)
  (aborted : bool) (w : Axios.wire value) : M page unit :=
  downloadFile KJson controller (fetchJson aborted w) aborted
    (projectName r id) "json".

Definition handleDownloadExcel (r : page) (id : string) (controller : nat)
  (aborted : bool) (w : Axios.wire blob) : M page unit :=
  downloadFile KExcel controller (fetchBinary aborted w) aborted
    (projectName r id) "xlsx".

Definition handleDownloadPdf (r : page) (id : string) (controller : nat)
  (aborted : bool) (w : Axios.wire blob) : M page unit :=
  downloadFile KPdf controller (fetchBinary aborted w) aborted
    (projectName r id) "pdf".

(** ** Download all *)

(** JSZip's [file], with the options the page leaves at their defaults;
    [createFolders] is on by default, so the folders of a name with [/]
    in it become entries of their own. *)

(** [this.files[name] = entry]: the entry [name] is added, or replaced. *)
Fixpoint zip_put (zip : zip_entries) (name : string) (data : option string)
  : zip_entries :=
  match zip with
  | [] => [(name, data)]
  | (n, d) :: rest =>
      if String.eqb n name then (name, data) :: rest
      else (n, d) :: zip_put rest name data
  end.

(** [path.slice(-1) === "/"]. *)
Fixpoint ends_with_slash (path : string) : bool :=
  match path with
  | EmptyString => false
  | String c EmptyString => Ascii.eqb c "/"%char
  | String _ r => ends_with_slash r
  end.

(** [path.lastIndexOf("/")], scanning from place [i]. *)
Fixpoint lastIndexOf_slash (path : string) (i : nat) (found : option nat)
  : option nat :=
  match path with
  | EmptyString => found
  | String c r =>
      lastIndexOf_slash r (S i)
        (if Ascii.eqb c "/"%char then Some i else found)
  end.

(** [parentFolder(path)]: the path before its last [/], a [/] at its end
    apart; empty when that [/] is at the start or there is none. *)
Definition parentFolder (path : string) : string :=
  let path :=
    if ends_with_slash path then take (String.length path - 1) path
    else path in
  match lastIndexOf_slash path 0 None with
  | Some (S n) => take (S n) path
  | _ => ""
  end.

Definition forceTrailingSlash (path : string) : string :=
  if ends_with_slash path then path else path ++ "/".

(** [folderAdd(name, true)]: a folder that is not there yet is added,
    after its own parent folders. *)
Fixpoint folderAdd (fuel : nat) (zip : zip_entries) (name : string)
  : zip_entries :=
  let name := forceTrailingSlash name in
  if existsb (fun e => String.eqb (fst e) name) zip then zip
  else
    let zip :=
      match fuel, parentFolder name with
      | _, EmptyString => zip
      | S f, parent => folderAdd f zip parent
      | O, _ => zip
      end in
    zip_put zip name None.

(** [zip.file(name, data)]. *)
Definition zip_file (zip : zip_entries) (name data : string) : zip_entries :=
  let zip :=
    match parentFolder name with
    | EmptyString => zip
    | parent => folderAdd (String.length name) zip parent
    end in
  zip_put zip name (Some data).

(** [handleDownloadAll] with a new controller, called in the render [r].
    The three requests are made one after the other; [aborted] is
    [controller.signal.aborted] when the [catch] block reads it. *)
Definition handleDownloadAll (r : page) (id : string) (controller : nat)
  (aborted : bool) (wj : Axios.wire value) (wx wp : Axios.wire blob)
  : M page unit :=
  modify (startDownload KAll controller) ;;;
  try_catch
    (let zip := [] in
     let name := projectName r id in
     jsonData <- await (ExportApi.exportToJson aborted wj) ;;
     jsonName <- await (ExportApi.safeFileName name "json") ;;
     let zip := zip_file zip jsonName (text_of (stringify2 jsonData)) in
     excelBlob <- await (ExportApi.exportToExcel aborted wx) ;;
     excelName <- await (ExportApi.safeFileName name "xlsx") ;;
     let zip := zip_file zip excelName (blob_bytes excelBlob) in
     pdfBlob <- await (ExportApi.exportToPdf aborted wp) ;;
     pdfName <- await (ExportApi.safeFileName name "pdf") ;;
     let zip := zip_file zip pdfName (blob_bytes pdfBlob) in
     zipName <- await (ExportApi.safeFileName name "zip") ;;
     modify (fun s => set_saved (saved s ++ [Archive zipName zip])%list s) ;;;
     modify (finishDownload KAll) ;;;
     modify (toast_show (ToastSuccess "All files downloaded")))
    (fun err =>
       (if aborted
        then modify (toast_show (ToastInfo "Download all cancelled"))
        else modify (toast_show (ToastError "Failed to download all files"))) ;;;
       modify (resetDownload KAll)).

(** Running an asynchronous function to its end. *)
Definition run {A : Type} (m : M page A) (s : page) : page := snd (m s).

(** ** The cleanup of the preview URL

    The effect on [previewPdfUrl] does nothing but leave a cleanup, which
    revokes the URL of the render it was set up in.  React runs it when a
    later render has another [previewPdfUrl], and when the page goes. *)

(** Object URLs are strings, each made once: two are the same when they
    were made by the same call. *)
Definition same_url (a b : option object_url) : bool :=
  match a, b with
  | Some u, Some v => Nat.eqb (url_id u) (url_id v)
  | None, None => true
  | _, _ => false
  end.

(** The render after an update: [prev] is the store the last render
    showed, [s] the store after the update. *)
Definition commitPreviewUrl (prev s : page) : page :=
  if same_url (previewPdfUrl prev) (previewPdfUrl s) then s
  else revokePreviewUrl prev s.

(** The page is left. *)
Definition unmount (s : page) : page := revokePreviewUrl s s.

(** ** [handleRegenerate] *)

(** The store of the page with the state of the regenerate box. *)
Module Regen.

Record t : Type := mk {
  page_of : page;
  regenPrompt : string;
  regenLoading : bool
}.

End Regen.

Definition on_page (f : page -> page) (s : Regen.t) : Regen.t :=
  Regen.mk (f (Regen.page_of s)) (Regen.regenPrompt s) (Regen.regenLoading s).

Definition setRegenPrompt (x : string) (s : Regen.t) : Regen.t :=
  Regen.mk (Regen.page_of s) x (Regen.regenLoading s).

Definition setRegenLoading (b : bool) (s : Regen.t) : Regen.t :=
  Regen.mk (Regen.page_of s) (Regen.regenPrompt s) b.

(** [handleRegenerate], called in the render [r]; [updated] is how
    [regenerateScope(id, parsedDraft, regenPrompt)] settles. *)
Definition handleRegenerate (r : Regen.t) (updated : outcome value)
  : M Regen.t unit :=
  if negb (truthy (parsedDraft (Regen.page_of r)))
     || String.eqb (trim (Regen.regenPrompt r)) ""
  then ret tt
  else
    try_finally
      (try_catch
         (modify (setRegenLoading true) ;;;
          u <- await updated ;;
          modify (on_page (setJsonText (text_of (stringify2 u)))) ;;;
          modify (on_page (setIsFinalized false)) ;;;
          modify (setRegenPrompt ""))
         (fun err =>
            modify (on_page (toast_show (ToastError "Failed to regenerate scope")))))
      (setRegenLoading false).

End Exports.

(* ================================================================== *)
(** * [components/ProjectForm.jsx] *)
(* ================================================================== *)

Module ProjectForm.

Local Open Scope async_scope.

(** ** The compliance needs *)

(** The options, each with its value and its label. *)
Definition COMPLIANCE_OPTIONS_IN : list (string * string) :=
  [("DPDP-2023", "DPDP Act 2023 (India)");
   ("CERT-In-2022", "CERT-In Directions 2022");
   ("IT-Rules-2021", "MeitY IT Rules 2021");
   ("RBI-KYC-AML", "RBI KYC/AML & Master Directions");
   ("NPCI-UPI", "NPCI (UPI/IMPS/AEPS) Conformance");
   ("UIDAI-Aadhaar", "UIDAI (Aadhaar eKYC/eSign)");
   ("ABDM-NDHM", "ABDM / NDHM (Health)");
   ("IRDAI-IT", "IRDAI IT & Outsourcing (Insurance)");
   ("ONDC", "ONDC Protocol Conformance");
   ("NCMC", "MoHUA NCMC (Mobility)");
   ("FSSAI", "FSSAI (Food/Agri)");
   ("CEA-CERC", "CEA / CERC (Power sector)");
   ("NABH", "NABH (Hospitals/Labs)")].

Definition COMPLIANCE_OPTIONS_GLOBAL : list (string * string) :=
  [("ISO-27001", "ISO 27001");
   ("SOC-2", "SOC 2");
   ("PCI-DSS", "PCI-DSS");
   ("HIPAA", "HIPAA");
   ("GDPR", "GDPR");
   ("WCAG", "WCAG 2.2 / ADA")].

Definition INDIA_VALUES : list string := map fst COMPLIANCE_OPTIONS_IN.

Definition GLOBAL_VALUES : list string := map fst COMPLIANCE_OPTIONS_GLOBAL.

Definition ALL_VALUES : list string := (INDIA_VALUES ++ GLOBAL_VALUES)%list.

Definition ALL_COMPLIANCE : list (string * string) :=
  (COMPLIANCE_OPTIONS_IN ++ COMPLIANCE_OPTIONS_GLOBAL)%list.

(** The recommended needs of each domain. *)
Definition DOMAIN_COMPLIANCE_MAP : list (string * list string) :=
  [("fintech",
    ["RBI-KYC-AML"; "NPCI-UPI"; "UIDAI-Aadhaar"; "DPDP-2023"; "CERT-In-2022";
     "IT-Rules-2021"; "PCI-DSS"; "ISO-27001"; "SOC-2"]);
   ("healthtech",
    ["ABDM-NDHM"; "NABH"; "DPDP-2023"; "CERT-In-2022"; "IT-Rules-2021";
     "ISO-27001"]);
   ("govtech",
    ["UIDAI-Aadhaar"; "IT-Rules-2021"; "CERT-In-2022"; "DPDP-2023"; "WCAG"]);
   ("ecommerce",
    ["ONDC"; "DPDP-2023"; "IT-Rules-2021"; "CERT-In-2022"; "PCI-DSS";
     "ISO-27001"]);
   ("insurtech", ["IRDAI-IT"; "DPDP-2023"; "CERT-In-2022"; "ISO-27001"; "SOC-2"]);
   ("edtech", ["DPDP-2023"; "IT-Rules-2021"; "CERT-In-2022"; "WCAG"]);
   ("smart mobility", ["NCMC"; "RBI-KYC-AML"; "NPCI-UPI"; "DPDP-2023"]);
   ("b2b saas", ["ISO-27001"; "SOC-2"; "DPDP-2023"]);
   ("agritech", ["FSSAI"; "DPDP-2023"]);
   ("logistics", ["ISO-27001"; "SOC-2"; "DPDP-2023"]);
   ("energy/utilities", ["CEA-CERC"; "DPDP-2023"; "CERT-In-2022"]);
   ("civictech", ["IT-Rules-2021"; "CERT-In-2022"; "DPDP-2023"; "WCAG"]);
   ("regtech", ["RBI-KYC-AML"; "UIDAI-Aadhaar"; "DPDP-2023"; "ISO-27001"]);
   ("other", ["DPDP-2023"; "CERT-In-2022"; "IT-Rules-2021"])].

Fixpoint assoc {A : Type} (k : string) (l : list (string * A)) : option A :=
  match l with
  | [] => None
  | (k', a) :: r => if String.eqb k k' then Some a else assoc k r
  end.

(** [(s || "").toLowerCase().trim()]. *)
Definition normalize (s : string) : string := trim (toLowerCase s).

(** The names an object literal inherits and that [normalize] can give:
    those of [Object.prototype] that are in lower case. *)
Definition inherited (d : string) : bool :=
  String.eqb d "constructor" || String.eqb d "__proto__".

(** [/(a|b|...)/.test(d)]: one of the words occurs in [d]. *)
Definition test (words : list string) (d : string) : bool :=
  existsb (includes d) words.

(** [DOMAIN_COMPLIANCE_MAP[key]] for a key of the map. *)
Definition recommended_for (key : string) : list string :=
  match assoc key DOMAIN_COMPLIANCE_MAP with
  | Some l => l
  | None => []
  end.

(** [recommendForDomain(domain)].  [None] stands for what the map
    inherits under the name [d], which is no list. *)
Definition recommendForDomain (domain : string) : option (list string) :=
  let d := normalize domain in
  match assoc d DOMAIN_COMPLIANCE_MAP with
  | Some l => Some l
  | None =>
      if inherited d then None
      else if test ["bank"; "nbfc"; "upi"; "lending"; "fin"] d
      then Some (recommended_for "fintech")
      else if test ["health"; "hospital"; "lims"; "telemed"] d
      then Some (recommended_for "healthtech")
      else if test ["gov"; "e-gov"; "municipal"; "smart city"] d
      then Some (recommended_for "civictech")
      else if test ["commerce"; "retail"; "ondc"] d
      then Some (recommended_for "ecommerce")
      else if test ["insurance"] d
      then Some (recommended_for "insurtech")
      else if test ["education"; "edtech"; "learning"] d
      then Some (recommended_for "edtech")
      else if test ["mobility"; "transport"; "ncmc"; "metro"] d
      then Some (recommended_for "smart mobility")
      else if test ["hr"; "payroll"; "b2b"; "saas"] d
      then Some (recommended_for "b2b saas")
      else if test ["agri"; "fpo"; "farm"] d
      then Some (recommended_for "agritech")
      else if test ["logistics"; "supply"] d
      then Some (recommended_for "logistics")
      else if test ["energy"; "discom"; "utility"; "power"] d
      then Some (recommended_for "energy/utilities")
      else if test ["regtech"; "kyc"; "aml"] d
      then Some (recommended_for "regtech")
      else Some (recommended_for "other")
  end.

(** [ALL_COMPLIANCE.find((o) => o.value === v)?.label || v]. *)
Definition labelFor (v : string) : string :=
  match assoc v ALL_COMPLIANCE with
  | Some label => if String.eqb label "" then v else label
  | None => v
  end.

(** ** The group actions *)

Definition mem (x : string) (l : list string) : bool := existsb (String.eqb x) l.

(** The elements of a [Set] made from [l], in insertion order, after those
    of [seen]. *)
Fixpoint uniq (l seen : list string) : list string :=
  match l with
  | [] => []
  | x :: r => if mem x seen then uniq r seen else x :: uniq r (x :: seen)
  end.

(** [Array.from(new Set([...arrA, ...arrB]))]. *)
Definition uniqMerge (arrA arrB : list string) : list string :=
  uniq (arrA ++ arrB)%list [].

(** What each button makes of the selection [compliance] of its
    render. *)
Definition selectIndia (compliance : list string) : list string :=
  uniqMerge compliance INDIA_VALUES.

Definition selectGlobal (compliance : list string) : list string :=
  uniqMerge compliance GLOBAL_VALUES.

Definition selectAll (compliance : list string) : list string := ALL_VALUES.

Definition clearIndia (compliance : list string) : list string :=
  filter (fun v => negb (mem v INDIA_VALUES)) compliance.

Definition clearGlobal (compliance : list string) : list string :=
  filter (fun v => negb (mem v GLOBAL_VALUES)) compliance.

Definition clearAll (compliance : list string) : list string := [].

Definition applyRecommended (compliance recommended : list string)
  : list string :=
  uniqMerge compliance recommended.

Definition replaceWithRecommended (compliance recommended : list string)
  : list string :=
  recommended.

(** The chip of the need [v]: its button removes [v]. *)
Definition removeNeed (v : string) (compliance : list string) : list string :=
  filter (fun x => negb (String.eqb x v)) compliance.

(** ** The form *)

Record form : Type := mkForm {
  name : string;
  domain : string;
  complexity : string;
  tech_stack : string;
  use_cases : string;
  compliance : list string;
  duration : string;
  files : list (blob * string)
}.

Definition blank_form : form := mkForm "" "" "" "" "" [] "" [].

(** [Object.entries(form)] without [files], which holds the files with
    their types. *)
Definition entries (f : form) : props :=
  [("name", VStr (name f));
   ("domain", VStr (domain f));
   ("complexity", VStr (complexity f));
   ("tech_stack", VStr (tech_stack f));
   ("use_cases", VStr (use_cases f));
   ("compliance", VArr (map VStr (compliance f)));
   ("duration", VStr (duration f))].

(** [validateField(name, value)]: the [switch] on an empty value has the
    [default] case alone. *)
Definition validateField (field : string) (v : value) : string :=
  let isEmpty :=
    match v with
    | VArr l => Nat.eqb (List.length l) 0
    | _ => negb (truthy v) || String.eqb (trim (ToString v)) ""
    end in
  if isEmpty then "" else "".

(** The files the input or the drop brings are added, without a type. *)
Definition handleFileChange (picked : list blob) (f : form) : form :=
  mkForm (name f) (domain f) (complexity f) (tech_stack f) (use_cases f)
    (compliance f) (duration f)
    (files f ++ map (fun b => (b, "")) picked)%list.

Definition handleRemoveFile (index : nat) (f : form) : form :=
  mkForm (name f) (domain f) (complexity f) (tech_stack f) (use_cases f)
    (compliance f) (duration f) (Exports.remove_nth index (files f)).

(** What the page shows and does besides the form. *)
Record store : Type := mkStore {
  form_of : form;
  loading : bool;
  validationErrors : list (string * string);
  toasts : list Exports.toast;
  payloads : list form;
  submitted : list (value * value * value);
  navigations : list (string * option value)
}.

Definition setForm (x : form) (s : store) : store :=
  mkStore x (loading s) (validationErrors s) (toasts s) (payloads s)
    (submitted s) (navigations s).

Definition setLoading (x : bool) (s : store) : store :=
  mkStore (form_of s) x (validationErrors s) (toasts s) (payloads s)
    (submitted s) (navigations s).

Definition setValidationErrors (x : list (string * string)) (s : store)
  : store :=
  mkStore (form_of s) (loading s) x (toasts s) (payloads s) (submitted s)
    (navigations s).

Definition toast_show (t : Exports.toast) (s : store) : store :=
  mkStore (form_of s) (loading s) (validationErrors s) (toasts s ++ [t])%list
    (payloads s) (submitted s) (navigations s).

(** [createProject(payload)] is called. *)
Definition post (payload : form) (s : store) : store :=
  mkStore (form_of s) (loading s) (validationErrors s) (toasts s)
    (payloads s ++ [payload])%list (submitted s) (navigations s).

(** [onSubmit({ project_id, scope, redirect_url })]. *)
Definition call_onSubmit (arg : value * value * value) (s : store) : store :=
  mkStore (form_of s) (loading s) (validationErrors s) (toasts s) (payloads s)
    (submitted s ++ [arg])%list (navigations s).

(** [navigate(to)] and [navigate(to, { state: { draftScope } })]. *)
Definition navigate (to : string) (draftScope : option value) (s : store)
  : store :=
  mkStore (form_of s) (loading s) (validationErrors s) (toasts s) (payloads s)
    (submitted s) (navigations s ++ [(to, draftScope)])%list.

(** The errors [handleSubmit] collects over the fields other than
    [files]. *)
Definition newErrors (f : form) : list (string * string) :=
  flat_map
    (fun kv =>
       let msg := validateField (fst kv) (snd kv) in
       if String.eqb msg "" then [] else [(fst kv, msg)])
    (entries f).

(** [Object.entries(form).some(...)]: a field that is not blank, a
    compliance need, or a file. *)
Definition hasAtLeastOne (f : form) : bool :=
  existsb
    (fun kv =>
       match snd kv with
       | VArr l => negb (Nat.eqb (List.length l) 0)
       | v => truthy v && negb (String.eqb (trim (ToString v)) "")
       end)
    (entries f)
  || negb (Nat.eqb (List.length (files f)) 0).

(** [handleSubmit], called in the render [r]; [created] is how
    [createProject(payload)] settles, and [onSubmit] tells whether the
    page was given that callback, which is taken to return. *)
Definition handleSubmit (r : store) (onSubmit : bool)
  (created : outcome ProjectContext.result) : M store unit :=
  let f := form_of r in
  if negb (hasAtLeastOne f) then
    modify (toast_show
              (Exports.ToastError
                 "Please fill at least one field or upload a file."))
  else
    modify (setValidationErrors (newErrors f)) ;;;
    if negb (Nat.eqb (List.length (newErrors f)) 0) then
      modify (toast_show (Exports.ToastError "Please fix the highlighted errors."))
    else
      modify (setLoading true) ;;;
      try_finally
        (try_catch
           (modify (post f) ;;;
            res <- await created ;;
            let projectId := ProjectContext.res_projectId res in
            let scope := ProjectContext.res_scope res in
            let redirectUrl := ProjectContext.res_redirectUrl res in
            modify (toast_show
                      (Exports.ToastSuccess
                         (" Project " ++ dquote
                            ++ ToString (or_else (VStr (name f)) (VStr "Untitled"))
                            ++ dquote ++ " created successfully!"))) ;;;
            (if onSubmit
             then modify (call_onSubmit (projectId, scope, redirectUrl))
             else ret tt) ;;;
            modify (navigate ("/exports/" ++ ToString projectId)
                      (if truthy scope then Some scope else None)) ;;;
            modify (setForm blank_form) ;;;
            modify (setValidationErrors []))
           (fun err =>
              modify (toast_show
                        (Exports.ToastError "Failed to create and scope project."))))
        (setLoading false).

(** The [data] that [createProject] hands to [projectApi.createProject]:
    the fields of the form, and its files. *)
Definition payload_data (f : form) : value := VObj (entries f).

Definition payload_files (f : form) : list ProjectApi.upload :=
  map (fun ft => ProjectApi.Item (Some (fst ft)) (VStr (snd ft))) (files f).

End ProjectForm.

(* ================================================================== *)
(** * Part II: what the properties are stated with *)
(* ================================================================== *)

Import Exports.
Import ProjectContext.
Local Close Scope Z_scope.
Local Open Scope list_scope.

(** ** The overview grid *)









(** ** The Total row *)

Fixpoint spaces (s : string) : nat :=
  match s with
  | EmptyString => 0
  | String c r => (if Ascii.eqb c " "%char then 1 else 0) + spaces r
  end.

(** A header of exactly two tokens separated by a space. *)
Definition two_tokens (h : string) : Prop :=
  exists a b, h = (a ++ " " ++ b)%string /\ spaces a = 0%nat /\ spaces b = 0%nat.

(** Floating-point summation from the left. *)
Definition fsum (l : list float) : float := fold_left PrimFloat.add l 0%float.

(** The effort of a row: the sum of its month columns. *)
Definition row_effort (hs : list string) (row : props) : float :=
  fsum (map (fun m => month_effort (get row m)) (monthCols hs)).

(** The row's [Rate/month] field, read as a number. *)
Definition row_rate (row : props) : float :=
  parseFloat (or_else (get row "Rate/month") (VNum 0)).

Definition total_effort (hs : list string) (objs : list props) : float :=
  fsum (map (row_effort hs) objs).

Definition total_cost (hs : list string) (objs : list props) : float :=
  fsum (map (fun row => (row_effort hs row * row_rate row)%float) objs).

(** The cells the grid shows for a row object. *)
Definition shown_row (hs : list string) (row : props) : list value :=
  map (fun h =>
         if includes (toLowerCase h) "rate" || includes (toLowerCase h) "cost"
         then formatCurrency (get row h) else get row h) hs.

Definition quoted (s : string) : string := (dquote ++ s ++ dquote)%string.

(** The single-row resourcing plan of the specification, as the text of
    the JSON editor. *)
Definition example_plan_text : string :=
  ("{" ++ quoted "resourcing_plan" ++ ": [{"
     ++ quoted "Role" ++ ": " ++ quoted "Dev" ++ ", "
     ++ quoted "Rate/month" ++ ": 1000, "
     ++ quoted "Month 1" ++ ": 2, "
     ++ quoted "Month 2" ++ ": 1}]}")%string.

Definition example_plan_row : props :=
  [("Role", VStr "Dev"); ("Rate/month", VNum 1000);
   ("Month 1", VNum 2); ("Month 2", VNum 1)].

(** The Excel tab on the resourcing plan of that text. *)
Definition example_plan_page : page :=
  setExcelSection "resourcing_plan"
    (setActiveTab TabExcel (setJsonText example_plan_text initial_page)).

(** ** Writing a resourcing-plan edit back *)

(** The Excel tab after its effect ran: the grid of that plan. *)
Definition example_plan_shown : page :=
  run (excelPreviewEffect example_plan_page) example_plan_page.

(** ** A 400 on the finalized-scope fetch *)

(** The backend answers the finalized-scope fetch with HTTP 400. *)
Definition not_finalized_reply (detail : value) : Axios.wire value :=
  Axios.Replied (Axios.mkReply 400 (Some "application/json") detail).

(** A page showing a finalized scope, about to load another project. *)
Definition finalized_page : page :=
  setIsFinalized true (setJsonText example_plan_text initial_page).

(** ** The PDF preview cache *)

(** The cache key of a text: [JSON.stringify(parsedDraft)]. *)
Definition cache_key (jsonText : string) : string :=
  text_of (stringify (parse_draft jsonText)).


Definition compact_text : string := ("{" ++ quoted "a" ++ ":1}")%string.

Definition spaced_text : string := ("{ " ++ quoted "a" ++ ": 1 }")%string.

Definition a_pdf : blob := mkBlob "%PDF-1.7 first" "application/pdf".




(** The PDF tab of a draft whose text is [compact_text], nothing cached:
    the render whose PDF effect makes a call.  And the page after the
    user has changed the draft while that call is in flight. *)
Definition edited_text : string := ("{" ++ quoted "a" ++ ":2}")%string.

Definition first_render : page :=
  setActiveTab TabPdf (setJsonText compact_text initial_page).

Definition edited_render : page :=
  setJsonText edited_text (requestPdf first_render first_render).

(** ** Downloads *)

(** The file name [safeFileName] makes of a project name. *)
Definition safe_base (name : string) : string :=
  toLowerCase (replace_spaces "_" name false).



(** The toast of the [catch] block of [downloadFile]. *)
Definition failure_toast (aborted : bool) (defaultName : value) : toast :=
  if aborted then ToastInfo (ToString defaultName ++ " download cancelled")%string
  else ToastError ("Failed to download " ++ ToString defaultName)%string.

(** The toast of the [catch] block of [handleDownloadAll]. *)
Definition failure_toast_all (aborted : bool) : toast :=
  if aborted then ToastInfo "Download all cancelled"
  else ToastError "Failed to download all files".

(** The outcome of a download that was caught: nothing saved, the
    download back to idle, one toast. *)
Definition caught (key : download_key) (t : toast) (s s' : page) : Prop :=
  saved s' = saved s
  /\ downloadState s' key = Download.mk false 0 None
  /\ toasts s' = toasts s ++ [t].

(** A sign-in page sent in place of the PDF. *)
Definition html_reply : Axios.wire blob :=
  Axios.Replied
    (Axios.mkReply 200 (Some "text/html")
       (mkBlob "<html>Sign in</html>" "text/html")).

(** ** Cancelling a download *)

Definition xlsx_type : string :=
  "application/vnd.openxmlformats-officedocument.spreadsheetml.sheet".

(** The backend sends the spreadsheet. *)
Definition xlsx_reply : Axios.wire blob :=
  Axios.Replied (Axios.mkReply 200 (Some xlsx_type) (mkBlob "PK sheet" xlsx_type)).

(** ** The three preview calls *)

(** All three preview calls of the run are fulfilled. *)
Definition all_fulfilled (r : previews_run) : Prop :=
  forall p, preview_error r p = None.

(** One of the three preview calls of the run fails. *)
Definition some_failed (r : previews_run) : Prop :=
  exists p e, preview_error r p = Some e.

(** The same outcomes, settling in another order. *)
Definition in_order (r : previews_run) (order : list preview_call)
  : previews_run :=
  mkRun (json_outcome r) (excel_outcome r) (pdf_outcome r) order.

(** In the log [l], every update of the shared state that comes after the
    preview calls were issued has the three of them fulfilled before it. *)
Definition updates_follow_previews (l : list event) : Prop :=
  forall l1 f l2,
    l = l1 ++ Updated f :: l2 ->
    In (Issued (Preview PJson)) l1 ->
    forall p, In (Fulfilled (Preview p)) l1.

(** In the log [l], no update of the shared state comes after the preview
    calls were issued. *)
Definition no_update_after_previews (l : list event) : Prop :=
  forall l1 f l2,
    l = l1 ++ Updated f :: l2 -> ~ In (Issued (Preview PJson)) l1.

(** The three previews are among the calls [done]. *)
Definition all_done (done : list preview_call) : bool :=
  existsb (preview_call_eqb PJson) done
  && existsb (preview_call_eqb PExcel) done
  && existsb (preview_call_eqb PPdf) done.

(** [updates_follow_previews], as a scan of the log from the left:
    [issued] tells whether the previews were issued, [done] holds the
    previews fulfilled so far. *)
Fixpoint joined (l : list event) (issued : bool) (done : list preview_call)
  : bool :=
  match l with
  | [] => true
  | Updated _ :: r => (negb issued || all_done done) && joined r issued done
  | Issued (Preview PJson) :: r => joined r true done
  | Fulfilled (Preview p) :: r => joined r issued (p :: done)
  | _ :: r => joined r issued done
  end.

(** The events of the settlements: previews fulfilled or failed. *)
Definition settlement (e : event) : Prop :=
  exists p, e = Fulfilled (Preview p) \/ e = Failed (Preview p).

Fixpoint fulfilled (evs : list event) : list preview_call :=
  match evs with
  | [] => []
  | Fulfilled (Preview p) :: r => p :: fulfilled r
  | _ :: r => fulfilled r
  end.

(** The log with more events at its end. *)
Definition logged (s : state) (evs : list event) : state :=
  mkState (projects s) (lastPreviewScope s) (lastRedirectUrl s) (log s ++ evs).

Definition issued_previews : list event :=
  [Issued (Preview PJson); Issued (Preview PExcel); Issued (Preview PPdf)].

(** [no_update_after_previews], as a scan of the log from the left. *)
Fixpoint quiet (l : list event) (issued : bool) : bool :=
  match l with
  | [] => true
  | Updated _ :: r => negb issued && quiet r issued
  | Issued (Preview PJson) :: r => quiet r true
  | _ :: r => quiet r issued
  end.

Definition is_ok {A : Type} (o : outcome A) : bool :=
  match o with
  | Ok _ => true
  | Throw _ => false
  end.

(** The shared state, the log apart. *)
Definition same_fields (a b : state) : Prop :=
  projects a = projects b
  /\ lastPreviewScope a = lastPreviewScope b
  /\ lastRedirectUrl a = lastRedirectUrl b.

(** What it means for an operation [op], started in the state [s], to
    gate its updates on the three previews. *)
Definition gated {A : Type} (op : previews_run -> M state A) (s : state)
  : Prop :=
  forall pr,
    updates_follow_previews (log (snd (op pr s)))
    /\ (some_failed pr ->
        is_ok (fst (op pr s)) = false
        /\ no_update_after_previews (log (snd (op pr s)))
        /\ lastPreviewScope (snd (op pr s)) = lastPreviewScope s
        /\ lastRedirectUrl (snd (op pr s)) = lastRedirectUrl s)
    /\ (forall order,
          same_fields (snd (op (in_order pr order) s)) (snd (op pr s))
          /\ is_ok (fst (op (in_order pr order) s)) = is_ok (fst (op pr s))
          /\ (all_fulfilled pr ->
              fst (op (in_order pr order) s) = fst (op pr s))).

(** ** Concrete inputs *)

(** A run in which the PDF preview fails first, and the other two previews
    are fulfilled after it. *)
Definition pdf_fails_first : previews_run :=
  mkRun (Ok (VObj [])) (Ok (mkBlob "PK sheet" xlsx_type))
        (Throw (Axios.status_error 500)) [PPdf; PExcel; PJson].

Definition empty_context : state := mkState [] VNull VNull [].

(** A draft in the editor. *)
Definition draft_page : page := setJsonText compact_text initial_page.

(** The overview of a draft, and the Excel tab showing it. *)
Definition overview_example_text : string :=
  ("{" ++ quoted "overview" ++ ": {"
     ++ quoted "Project Name" ++ ": " ++ quoted "My App" ++ ", "
     ++ quoted "Domain" ++ ": " ++ quoted "Fintech" ++ "}}")%string.


Definition overview_page : page :=
  let p := setExcelSection "overview"
             (setActiveTab TabExcel (setJsonText overview_example_text initial_page)) in
  run (excelPreviewEffect p) p.





(** The backend sends the three artifacts of a finalized project. *)
Definition json_reply : Axios.wire value :=
  Axios.Replied (Axios.mkReply 200 (Some "application/json") (VObj [])).

Definition pdf_reply : Axios.wire blob :=
  Axios.Replied (Axios.mkReply 200 (Some "application/pdf") a_pdf).

(** The backend sends an empty spreadsheet. *)
Definition empty_blob : blob := mkBlob "" xlsx_type.



(** ** Currency cells *)

(** What [formatCurrency] gives for each kind of cell. *)
Definition currency_text (v : value) : Prop :=
  exists neg body, v = VStr (usd neg body).

(** ** File names *)

Fixpoint all_chars (P : ascii -> bool) (s : string) : bool :=
  match s with
  | EmptyString => true
  | String c r => P c && all_chars P r
  end.

(** A capital letter of ASCII. *)
Definition is_upper (c : ascii) : bool := ((65 <=? code c) && (code c <=? 90))%Z.

(** A character a safe file name is made of: no white space, no capital
    letter. *)
Definition safe_char (c : ascii) : bool := negb (is_space c) && negb (is_upper c).

(** ** The error envelope of the binary exports *)

(** The content type a response declares. *)
Definition declared (r : Axios.reply blob) : string :=
  match Axios.content_type r with
  | Some t => t
  | None => ""
  end.

Definition is_2xx (st : Z) : bool := ((200 <=? st) && (st <? 300))%Z.

(** A login page sent with status 200, and an error envelope. *)
Definition envelope_reply : Axios.reply blob :=
  Axios.mkReply 200 (Some "application/json; charset=utf-8")
    (mkBlob ("{" ++ quoted "detail" ++ ": " ++ quoted "Scope not found" ++ "}")
            "application/json").

(** ** The grid of an array section *)

(** Headers that become the keys of a row object, in the order they are
    written in: no repeats, no array index and no ["__proto__"] among
    them. *)
Definition plain_headers (hs : list string) : Prop :=
  NoDup hs
  /\ Forall (fun h => array_index h = None /\ h <> "__proto__") hs.

(** No header names a rate or a cost. *)
Definition no_currency (hs : list string) : Prop :=
  Forall (fun h =>
            includes (toLowerCase h) "rate" || includes (toLowerCase h) "cost"
            = false) hs.

(** The fields of the row object [o] under the headers [hs]. *)
Definition under (hs : list string) (o : props) : props :=
  map (fun h => (h, get o h)) hs.

(** The value of the field at place [j] becomes [x]. *)
Fixpoint put_nth (j : nat) (x : value) (o : props) : props :=
  match j, o with
  | _, [] => []
  | O, (k, _) :: r => (k, x) :: r
  | S n, kv :: r => kv :: put_nth n x r
  end.

(** The element at place [i] becomes [f] of it. *)
Fixpoint edit_nth {A : Type} (i : nat) (f : A -> A) (l : list A) : list A :=
  match i, l with
  | _, [] => []
  | O, a :: r => f a :: r
  | S n, a :: r => a :: edit_nth n f r
  end.

(** The render [r] shows the section [section] of the draft [d], which
    is the array of the row objects [objs], in a grid with the headers
    [hs], each cell the value of its row object under its header. *)
Definition on_array_grid (r : page) (d : props) (section : string)
  (hs : list string) (objs : list props) : Prop :=
  parsedDraft r = VObj d
  /\ excelSection r = section
  /\ String.eqb section "overview" = false
  /\ lookup section d = Some (VArr (map VObj objs))
  /\ excelPreview r = mkTable hs (map (fun o => map (get o) hs) objs).

(** The text of the draft [d] with the rows [objs'] in [section]. *)
Definition section_text (d : props) (section : string) (objs' : list props)
  : string :=
  text_of (stringify2 (VObj (set d section (VArr (map VObj objs'))))).

(** A draft with a section of activities, and the Excel tab on it. *)
Definition activities_text : string :=
  ("{" ++ quoted "activities" ++ ": [{"
     ++ quoted "Task" ++ ": " ++ quoted "Design" ++ ", "
     ++ quoted "Owner" ++ ": " ++ quoted "Ana" ++ "}]}")%string.

Definition activities_draft : props :=
  [("activities", VArr [VObj [("Task", VStr "Design"); ("Owner", VStr "Ana")]])].

Definition activities_tab : page :=
  setExcelSection "activities"
    (setActiveTab TabExcel (setJsonText activities_text initial_page)).

Definition activities_page : page :=
  run (excelPreviewEffect activities_tab) activities_tab.

(** ** How a download ends *)

(** The outcome of a download that went through: the file saved, the
    download done, one toast. *)
Definition delivered (key : download_key) (file : saved_file) (t : toast)
  (s s' : page) : Prop :=
  saved s' = saved s ++ [file]
  /\ downloadState s' key = Download.mk false 100 None
  /\ toasts s' = toasts s ++ [t].

(** ** Object URLs are released *)

(** Every object URL made so far is revoked, but the one the page shows. *)
Definition tidy (s : page) : Prop :=
  forall n, n < created (urls s) ->
    In n (revoked (urls s))
    \/ exists u, previewPdfUrl s = Some u /\ url_id u = n.

(** What an update may do to the URLs: revoke some, and make new ones
    that it revokes itself, but for one that it may show. *)
Definition makes_urls (s s' : page) : Prop :=
  created (urls s) <= created (urls s')
  /\ (forall n, In n (revoked (urls s)) -> In n (revoked (urls s')))
  /\ (forall n, created (urls s) <= n < created (urls s') ->
        In n (revoked (urls s'))
        \/ exists u, previewPdfUrl s' = Some u /\ url_id u = n)
  /\ (previewPdfUrl s' = previewPdfUrl s
      \/ previewPdfUrl s' = None
      \/ exists u, previewPdfUrl s' = Some u
                   /\ created (urls s) <= url_id u < created (urls s')).

(** ** The project list *)

(** [p.id], for a [p] that has properties. *)
Definition id_val (p : value) : value :=
  match prop p "id" with
  | Some x => x
  | None => VUndefined
  end.

(** [p.id === id]. *)
Definition has_id (id : value) (p : value) : bool := strict_eq (id_val p) id.

(** A list whose elements have properties: none is [null] or
    [undefined]. *)
Definition listed (l : list value) : Prop := Forall (fun p => nullish p = false) l.

(** The list with the project [id] merged with [next]. *)
Definition replaced (id next : value) (l : list value) : list value :=
  map (fun p => if has_id id p then merge p next else p) l.

Definition two_projects : list value :=
  [VObj [("id", VStr "a")]; VObj [("id", VStr "b")]].

(** ** The export context *)

(** The scope the previews of the export context render: the finalized
    scope when the backend has one, the scope passed otherwise, that is
    when the backend answers 400 or sends a falsy scope. *)
Definition preview_data (scope : value) (finalized : Axios.wire value)
  : outcome value :=
  match ExportApi.exportToJson false finalized with
  | Ok finalScope => Ok (or_else finalScope scope)
  | Throw e => if status_is e 400 then Ok (or_else VNull scope) else Throw e
  end.

(** ** The project form *)

Fixpoint nodupb (l : list string) : bool :=
  match l with
  | [] => true
  | x :: r => negb (ProjectForm.mem x r) && nodupb r
  end.

(** A recommendation as the form can show and apply it. *)
Definition sound_recommendation (l : list string) : bool :=
  negb (Nat.eqb (List.length l) 0)
  && nodupb l
  && forallb (fun v => ProjectForm.mem v ProjectForm.ALL_VALUES) l.

(** ** Submitting the project form *)

(** The entry of a text field: none for a blank field. *)
Definition present (key text : string) : ProjectApi.form_data :=
  if String.eqb (trim text) "" then [] else [(key, ProjectApi.Text (trim text))].

(** The entries of a file of the form: the file, and its type when it has
    one. *)
Definition file_entries (ft : blob * string) : ProjectApi.form_data :=
  ("files", ProjectApi.Part (fst ft))
    :: (if String.eqb (snd ft) "" then []
        else [("file_types", ProjectApi.Text (snd ft))]).

(** The entries under one key. *)
Definition entries_of (key : string) (fd : ProjectApi.form_data)
  : list ProjectApi.entry :=
  map snd (filter (fun kv => String.eqb (fst kv) key) fd).

(** Nothing is filled in: every text field is blank, no need is selected
    and no file attached. *)
Definition blank (f : ProjectForm.form) : Prop :=
  trim (ProjectForm.name f) = ""
  /\ trim (ProjectForm.domain f) = ""
  /\ trim (ProjectForm.complexity f) = ""
  /\ trim (ProjectForm.tech_stack f) = ""
  /\ trim (ProjectForm.use_cases f) = ""
  /\ ProjectForm.compliance f = []
  /\ trim (ProjectForm.duration f) = ""
  /\ ProjectForm.files f = [].

(** The toast of a project that was created. *)
Definition created_toast (f : ProjectForm.form) : toast :=
  ToastSuccess
    (" Project " ++ dquote
       ++ (if String.eqb (ProjectForm.name f) "" then "Untitled"
           else ProjectForm.name f)
       ++ dquote ++ " created successfully!")%string.

(** ** The text of a draft reads back *)

(** The piece that the escape of a character reads back as. *)
Definition piece_of (c : ascii) : piece :=
  if ((code c <? 32)%Z
      && negb ((code c =? 8) || (code c =? 9) || (code c =? 10)
               || (code c =? 12) || (code c =? 13))%Z)%bool
  then Unit16 (code c) else Byte c.

(** What follows cannot go on a number: the end of the text, or a
    character that is no digit, no point and no exponent mark. *)
Definition number_end (rest : string) : bool :=
  match rest with
  | EmptyString => true
  | String c _ =>
      negb (is_digit c) && negb (Ascii.eqb c "."%char)
      && negb (Ascii.eqb (lower_char c) "e"%char)
  end.

(** [parse_number] after the sign, in its three steps. *)
Definition number_tail (neg : bool) (m e : Z) (r : string)
  : option (float * string) :=
  match r with
  | String c _ =>
      if Ascii.eqb (lower_char c) "e"%char then
        match scan_exponent r with
        | Some (ex, r') => Some (float_of_dec neg m (e + ex), r')
        | None => None
        end
      else Some (float_of_dec neg m e, r)
  | EmptyString => Some (float_of_dec neg m e, r)
  end.

Definition number_frac (i : Z) (r1 : string) : option (Z * Z * string) :=
  match r1 with
  | String "."%char r2 =>
      let '(m, nf, r3) := take_digits r2 i 0%Z in
      if (nf =? 0)%Z then None else Some (m, (- nf)%Z, r3)
  | _ => Some (i, 0%Z, r1)
  end.

Definition number_body (neg : bool) (r0 : string) : option (float * string) :=
  let '(i, ni, r1) := take_digits r0 0%Z 0%Z in
  if ((ni =? 0)%Z || (starts_with "0" r0 && negb (ni =? 1)%Z))%bool then None
  else
    match number_frac i r1 with
    | None => None
    | Some (m, e, r) => number_tail neg m e r
    end.

(** The character a number starts with. *)
Definition number_start (c : ascii) : bool :=
  (is_digit c || Ascii.eqb c "-"%char)%bool.

Fixpoint ws_only (s : string) : bool :=
  match s with
  | EmptyString => true
  | String c r => json_ws c && ws_only r
  end.

(** A character that starts a value: no white space, no closing bracket. *)
Definition solid (c : ascii) : bool :=
  negb (json_ws c) && negb (is_space c)
  && negb (Ascii.eqb c "]"%char) && negb (Ascii.eqb c "}"%char).

Definition starts_solid (t : string) : bool :=
  match t with
  | String c _ => solid c
  | EmptyString => false
  end.

(** The text [t] reads as the value [e] before anything that cannot go on
    a number, whenever the reader has a step for each character of [t]. *)
Definition reads (t : string) (e : value) : Prop :=
  starts_solid t = true
  /\ forall fuel rest,
       number_end rest = true -> String.length t <= fuel ->
       parse_value fuel (t ++ rest) = Some (e, rest).

(** What [wrap] puts before each item and before the closing bracket, and
    what follows the key of a member. *)
Definition pre_of (gap indent : string) : string :=
  if String.eqb gap "" then "" else newline ++ indent ++ gap.

Definition post_of (gap indent : string) : string :=
  if String.eqb gap "" then "" else newline ++ indent.

Definition member_of (gap : string) (T : value -> string)
    (kv : string * value) : string :=
  QuoteJSONString (fst kv) ++ (if String.eqb gap "" then ":" else ": ")
    ++ T (snd kv).

(** Assigning the properties of [o] one after the other, as the reader of
    an object does. *)
Definition set_all (o acc : props) : props :=
  fold_left (fun a kv => set a (fst kv) (snd kv)) o acc.

(** The values whose text reads back: no [undefined], numbers that are
    finite and whose digits read back as the number, objects that list
    their properties in the order in which assigning them one by one
    leaves them. *)
Fixpoint jsonable (v : value) : Prop :=
  match v with
  | VUndefined => False
  | VNull | VBool _ | VStr _ => True
  | VNum x =>
      num_finite x = true /\ parse_number (Number_toString x) = Some (x, "")
  | VArr l =>
      (fix all (l : list value) : Prop :=
         match l with
         | [] => True
         | e :: r => jsonable e /\ all r
         end) l
  | VObj o =>
      set_all o [] = o
      /\ (fix all (o : props) : Prop :=
            match o with
            | [] => True
            | kv :: r => jsonable (snd kv) /\ all r
            end) o
  end.

(** The text of a value that is not [undefined]. *)
Definition item_text (gap indent : string) (e : value) : string :=
  match stringify_at gap indent e with
  | Some t => t
  | None => "null"
  end.

(** A draft with a text section, a number with a fraction and an array
    of rows. *)
Definition resourcing_draft : value :=
  VObj [("overview", VObj [("Project Name", VStr "Demo")]);
        ("resourcing_plan",
         VArr [VObj [("Role", VStr "Dev"); ("Rate/month", VNum 1000);
                     ("Month 1", VNum 2.5)]])].

(** The Excel tab of a page that holds this draft, on its resourcing
    plan. *)
Definition resourcing_page : page :=
  let p := setExcelSection "resourcing_plan"
             (setActiveTab TabExcel
                (setJsonText (text_of (stringify2 resourcing_draft))
                   initial_page)) in
  run (excelPreviewEffect p) p.

(* ================================================================== *)
(** * Part III: properties *)
(* ================================================================== *)

(* ================================================================== *)
(** * Plain objects as maps *)
(* ================================================================== *)

Section ObjectLaws.

Implicit Types (o : props) (k : string) (v : value).

Lemma lookup_app k o1 o2 :
  lookup k (o1 ++ o2) =
  match lookup k o1 with
  | Some v => Some v
  | None => lookup k o2
  end.
Proof.
  induction o1 as [|[k' v'] o1 IH]; simpl; [reflexivity|].
  destruct (String.eqb k k'); [reflexivity | exact IH].
Qed.

Lemma lookup_none k o : lookup k o = None <-> ~ In k (map fst o).
Proof.
  induction o as [|[k' v'] o IH]; simpl.
  - split; [intros _ [] | reflexivity].
  - destruct (String.eqb_spec k k') as [->|Hne].
    + split; [discriminate | intros H; exfalso; apply H; now left].
    + rewrite IH. split.
      * intros H [Heq|Hin]; [now apply Hne | now apply H].
      * intros H Hin. apply H. now right.
Qed.


Lemma keys_replace k v o : map fst (replace k v o) = map fst o.
Proof.
  induction o as [|[k' v'] o IH]; simpl; [reflexivity|].
  destruct (String.eqb_spec k k') as [->|Hne]; simpl; [reflexivity|].
  now rewrite IH.
Qed.

Lemma lookup_replace k k' v o :
  lookup k' (replace k v o) =
  if String.eqb k' k then
    match lookup k o with
    | Some _ => Some v
    | None => None
    end
  else lookup k' o.
Proof.
  induction o as [|[k0 v0] o IH]; simpl.
  - now destruct (String.eqb k' k).
  - destruct (String.eqb_spec k k0) as [->|Hne]; simpl.
    + destruct (String.eqb_spec k' k0) as [->|Hne']; reflexivity.
    + rewrite IH. destruct (String.eqb_spec k' k) as [->|Hne'].
      * destruct (String.eqb_spec k k0); [contradiction | reflexivity].
      * reflexivity.
Qed.

Lemma insert_index_split i k v o :
  exists o1 o2, o = (o1 ++ o2)%list /\ insert_index i k v o = (o1 ++ (k, v) :: o2)%list.
Proof.
  induction o as [|[k' v'] o IH]; simpl.
  - now exists [], [].
  - destruct (array_index k') as [j|].
    + destruct (i <? j)%Z.
      * now exists [], ((k', v') :: o).
      * destruct IH as (o1 & o2 & -> & ->).
        now exists ((k', v') :: o1), o2.
    + now exists [], ((k', v') :: o).
Qed.

(** A new property lands somewhere among the old ones, which keep their
    order. *)
Lemma set_new_split k v o :
  lookup k o = None ->
  exists o1 o2, o = (o1 ++ o2)%list /\ set o k v = (o1 ++ (k, v) :: o2)%list.
Proof.
  intros H. unfold set. rewrite H.
  destruct (array_index k) as [i|].
  - apply insert_index_split.
  - exists o, []. now rewrite app_nil_r.
Qed.


Lemma lookup_set_other k k' v o :
  k' <> k -> lookup k' (set o k v) = lookup k' o.
Proof.
  intros Hne. destruct (lookup k o) as [v0|] eqn:H.
  - unfold set. rewrite H, lookup_replace.
    destruct (String.eqb_spec k' k); [contradiction | reflexivity].
  - destruct (set_new_split k v o H) as (o1 & o2 & Ho & ->).
    subst o. rewrite !lookup_app. simpl.
    destruct (String.eqb_spec k' k); [contradiction | reflexivity].
Qed.



End ObjectLaws.

(* ================================================================== *)
(** * The overview grid (C10) *)
(* ================================================================== *)




(** An assignment to a key other than ["__proto__"] defines it. *)
Lemma assign_property_set st k v :
  k <> "__proto__" -> assign_property st k v = (set (fst st) k v, snd st).
Proof.
  intros Hk. destruct st as [o p]. unfold assign_property.
  apply String.eqb_neq in Hk. rewrite Hk. cbn [andb fst snd].
  now destruct (lookup k o).
Qed.













Lemma set_fresh_plain o k v :
  lookup k o = None -> array_index k = None -> set o k v = o ++ [(k, v)].
Proof. intros H1 H2. unfold set. now rewrite H1, H2. Qed.





Lemma jsonText_updateParsedDraft r section newRows s :
  truthy (parsedDraft r) = true ->
  jsonText (updateParsedDraft r section newRows s)
  = text_of (stringify2 (newDraft r section newRows)).
Proof. intros H. unfold updateParsedDraft. now rewrite H. Qed.





(* ================================================================== *)
(** * The Total row (C5) *)
(* ================================================================== *)

(** ** Headers of two tokens *)

Lemma length_split_go s cur :
  List.length (split_go " "%char s cur) = S (spaces s).
Proof.
  revert cur. induction s as [|c s IH]; intros cur; simpl; [reflexivity|].
  destruct (Ascii.eqb c " "%char); simpl; now rewrite IH.
Qed.

Lemma spaces_app a b : spaces (a ++ b)%string = (spaces a + spaces b)%nat.
Proof. induction a as [|c a IH]; simpl; [reflexivity|]. rewrite IH. lia. Qed.

Lemma one_space_two_tokens h : spaces h = 1%nat <-> two_tokens h.
Proof.
  split.
  - induction h as [|c h IH]; simpl; [discriminate|].
    destruct (Ascii.eqb_spec c " "%char) as [->|Hne]; simpl.
    + intros [= H]. now exists "", h.
    + intros H. destruct (IH H) as (a & b & -> & Ha & Hb).
      exists (String c a), b. simpl.
      destruct (Ascii.eqb_spec c " "%char); [contradiction|]. auto.
  - intros (a & b & -> & Ha & Hb). rewrite !spaces_app, Ha, Hb. reflexivity.
Qed.

Lemma monthCols_spec hs h :
  In h (monthCols hs) <-> In h hs /\ two_tokens h.
Proof.
  unfold monthCols, split. rewrite filter_In, length_split_go.
  rewrite <- one_space_two_tokens, Nat.eqb_eq. intuition lia.
Qed.

(** ** The sums of the Total row *)

Lemma mapM_ok {A B : Type} (f : A -> outcome B) (g : A -> B) (l : list A) :
  (forall a, In a l -> f a = Ok (g a)) -> mapM f l = Ok (map g l).
Proof.
  induction l as [|a l IH]; intros H; simpl; [reflexivity|].
  rewrite (H a) by now left. rewrite IH; [reflexivity|].
  intros x Hx. apply H. now right.
Qed.

Lemma sumMonths_object cols row acc :
  sumMonths cols (VObj row) acc
  = Ok (fold_left PrimFloat.add (map (fun m => month_effort (get row m)) cols) acc).
Proof.
  revert acc. induction cols as [|m cols IH]; intros acc; simpl; [reflexivity|].
  apply IH.
Qed.

Lemma totals_objects cols objs te tc :
  totals cols (map VObj objs) te tc
  = Ok (fold_left PrimFloat.add
          (map (fun row => fsum (map (fun m => month_effort (get row m)) cols)) objs) te,
        fold_left PrimFloat.add
          (map (fun row =>
                  (fsum (map (fun m => month_effort (get row m)) cols)
                   * row_rate row)%float) objs) tc).
Proof.
  revert te tc. induction objs as [|row objs IH]; intros te tc; simpl; [reflexivity|].
  rewrite sumMonths_object. cbn [rate_of read prop]. apply IH.
Qed.

Lemma shown_rows_objects hs objs :
  mapM (fun r => mapM (shown_cell r) hs) (map VObj objs)
  = Ok (map (shown_row hs) objs).
Proof.
  rewrite (mapM_ok _ (fun r => match r with VObj row => shown_row hs row | _ => [] end)).
  - now rewrite map_map.
  - intros a Ha. apply in_map_iff in Ha. destruct Ha as (row & <- & _).
    apply mapM_ok. intros h _. unfold shown_cell. cbn [read prop].
    now destruct (includes (toLowerCase h) "rate" || includes (toLowerCase h) "cost").
Qed.

(** The Total row of an array of row objects. *)
Lemma array_table_resourcing (first : props) (rest : list props) :
  let objs := first :: rest in
  let hs := map fst first in
  array_table "resourcing_plan" (map VObj objs)
  = Ok (mkTable hs
          (map (shown_row hs) objs
             ++ [totalRow hs (total_effort hs objs) (total_cost hs objs)])).
Proof.
  intros objs hs. unfold array_table.
  change (keys (nth 0 (map VObj objs) VUndefined)) with (Some hs).
  cbv iota beta. rewrite shown_rows_objects.
  cbn [String.eqb Ascii.eqb Bool.eqb]. rewrite totals_objects.
  reflexivity.
Qed.

Lemma example_plan_parsed :
  parsedDraft example_plan_page
  = VObj [("resourcing_plan", VArr [VObj example_plan_row])].
Proof. vm_compute. reflexivity. Qed.

(** C5.  The Total row of the resourcing plan.  For an array of row
    objects the grid ends with the Total row, whose effort is the sum
    over the rows of the month columns and whose cost is the sum over the
    rows of the row's month sum times its [Rate/month]; the month columns
    are the headers of exactly two tokens separated by a space.  For the
    single row [{Role: "Dev", "Rate/month": 1000, "Month 1": 2,
    "Month 2": 1}] the Total row carries the effort [3] and the cost
    ["$3,000.00"]. *)
Theorem total_row_of_resourcing_plan :
  (forall (first : props) (rest : list props),
     let objs := first :: rest in
     let hs := map fst first in
     array_table "resourcing_plan" (map VObj objs)
     = Ok (mkTable hs
             (map (shown_row hs) objs
                ++ [totalRow hs (total_effort hs objs) (total_cost hs objs)])))
  /\ (forall hs h, In h (monthCols hs) <-> In h hs /\ two_tokens h)
  /\ excelPreview (run (excelPreviewEffect example_plan_page) example_plan_page)
     = mkTable ["Role"; "Rate/month"; "Month 1"; "Month 2"]
         [[VStr "Dev"; VStr "$1,000.00"; VNum 2; VNum 1];
          [VStr "Total"; VStr ""; VNum 3; VStr "$3,000.00"]].
Proof.
  split; [exact array_table_resourcing|].
  split; [exact monthCols_spec|].
  vm_compute. reflexivity.
Qed.

(* ================================================================== *)
(** * Writing a resourcing-plan edit back (C1) *)
(* ================================================================== *)

(** C1, at a failing input.  On the single-row resourcing plan, typing
    [3] into the [Month 1] cell of the first row writes a draft back in
    which that cell changed, the [Rate/month] of the row became the
    string ["$1,000.00"], and the Total row of the display became a
    second data row. *)
Theorem edit_cell_writes_total_row_back :
  parse (jsonText (editCell example_plan_shown 0 2 "3" example_plan_shown))
  = Some (VObj
      [("resourcing_plan",
        VArr [VObj [("Role", VStr "Dev"); ("Rate/month", VStr "$1,000.00");
                    ("Month 1", VStr "3"); ("Month 2", VNum 1)];
              VObj [("Role", VStr "Total"); ("Rate/month", VStr "");
                    ("Month 1", VNum 3); ("Month 2", VStr "$3,000.00")]])]).
Proof. vm_compute. reflexivity. Qed.

(* ================================================================== *)
(** * The guard after finalizing (C2) *)
(* ================================================================== *)

(** Unfolding one run of an asynchronous function. *)
Ltac async_steps :=
  cbv [run try_finally try_catch bind await modify ret throw
       finalize_begin finalize_succeeded finalize_refetched];
  cbn.

Lemma draft_text_not_empty s : truthy (parsedDraft s) = true -> jsonText s <> "".
Proof.
  unfold parsedDraft. intros H E. rewrite E in H. discriminate H.
Qed.

Lemma string_neqb a b : a <> b -> String.eqb a b = false.
Proof. intros H. now apply String.eqb_neq. Qed.

(** C2.  The guard after finalizing.  When [handleFinalize] has set the
    finalized flag, and with it [justFinalized], and waits for the
    finalized scope, the next pass of the edit detection leaves
    [isFinalized] set and clears [justFinalized]; a pass that sees
    [justFinalized] never reverts the flag, whatever text it compares.
    The guard lasts that one pass: the pass after it keeps the flag while
    the text is the same, and reverts it to draft when the text was
    edited. *)
Theorem finalize_guard_lasts_one_pass (s : page) (t' : string) :
  truthy (parsedDraft s) = true ->
  t' <> jsonText s ->
  let s1 := run finalize_succeeded s in
  let s2 := detectEdit s1 s1 in
  let s3 := setJsonText t' s2 in
  (isFinalized s1 = true /\ justFinalized s1 = true)
  /\ (isFinalized s2 = true /\ justFinalized s2 = false)
  /\ (forall r s0,
        justFinalized r = true ->
        isFinalized (detectEdit r s0) = isFinalized s0
        /\ justFinalized (detectEdit r s0) = false)
  /\ isFinalized (detectEdit s2 s2) = true
  /\ isFinalized (detectEdit s3 s3) = false.
Proof.
  intros Hdraft Hedit s1 s2 s3.
  pose proof (draft_text_not_empty s Hdraft) as Hne.
  split; [split; reflexivity|].
  split.
  { subst s2 s1. unfold detectEdit. cbn. rewrite ?andb_false_r. cbn. split; reflexivity. }
  split.
  { intros r s0 Hj. unfold detectEdit. rewrite Hj. cbn [negb].
    rewrite ?andb_false_r. split; reflexivity. }
  split.
  { subst s2 s1. unfold detectEdit. cbn. rewrite ?andb_false_r. cbn.
    rewrite String.eqb_refl. cbn. rewrite andb_false_r. reflexivity. }
  subst s3 s2 s1. unfold detectEdit. cbn. rewrite ?andb_false_r. cbn.
  rewrite (string_neqb _ _ Hne).
  rewrite String.eqb_sym, (string_neqb _ _ Hedit). reflexivity.
Qed.

(* ================================================================== *)
(** * A 400 on the finalized-scope fetch (C3) *)
(* ================================================================== *)

(** C3, at a failing input.  When the backend answers the
    finalized-scope fetch with HTTP 400, [getFinalizedScope] of the
    export context resolves to [null], but [getFinalizedScope] of the
    project context, which the export page calls, rejects with the 400
    error.  The load pass of the page catches it and changes neither the
    text nor [isFinalized]: a page that showed a finalized scope stays
    finalized, and a fresh page does not show the incoming draft. *)
Theorem finalized_scope_fetch_400 (detail : value) :
  let w := not_finalized_reply detail in
  (forall st, fst (ExportContext.getFinalizedScope w st) = Ok VNull)
  /\ (forall st,
        fst (ProjectContext.getFinalizedScope (ProjectApi.getFinalizedScope w) st)
        = Throw (Axios.status_error 400))
  /\ (forall r incomingDraft project s,
        isFinalized r && justFinalized r = false ->
        let s' :=
          run (loadProject r incomingDraft (Ok project)
                 (Throw (Axios.status_error 400))) s in
        jsonText s' = jsonText s
        /\ isFinalized s' = isFinalized s
        /\ toasts s' = toasts s)
  /\ (let s' :=
        run (loadProject finalized_page (VObj [("overview", VObj [])])
               (Ok VNull) (Throw (Axios.status_error 400))) finalized_page in
      isFinalized s' = true /\ jsonText s' = example_plan_text)
  /\ (let s' :=
        run (loadProject initial_page (VObj [("overview", VObj [])])
               (Ok VNull) (Throw (Axios.status_error 400))) initial_page in
      jsonText s' = "").
Proof.
  intros w. split; [|split; [|split; [|split]]].
  - intros st. reflexivity.
  - intros st. reflexivity.
  - intros r incomingDraft project s H s'. subst s'.
    unfold loadProject. rewrite H. async_steps. now repeat split.
  - vm_compute. now split.
  - reflexivity.
Qed.

(* ================================================================== *)
(** * The PDF preview cache (C4) *)
(* ================================================================== *)




Lemma requests_settlePdf r key fetched s :
  requests (settlePdf r key fetched s) = requests s.
Proof.
  unfold settlePdf.
  destruct fetched as [[b|]|e]; [destruct (valid_pdf b)| |]; try reflexivity.
  unfold show_blob, revokePreviewUrl. destruct (previewPdfUrl r); reflexivity.
Qed.




(* ================================================================== *)
(** * Downloads (C6, C7, C8) *)
(* ================================================================== *)





Lemma downloadState_update_key key f s :
  downloadState (update_key key f s) key = f (downloadState s key).
Proof.
  unfold update_key. cbn. now destruct key.
Qed.

Ltac download_steps :=
  cbv [run try_finally try_catch bind await modify ret throw
       handleDownloadAll downloadFile handleDownloadJson handleDownloadExcel
       handleDownloadPdf fetchBinary fetchJson
       startDownload finishDownload resetDownload];
  cbn.









Lemma downloadFile_throw key controller e aborted defaultName ext s :
  caught key (failure_toast aborted defaultName) s
    (run (downloadFile key controller (Throw e) aborted defaultName ext) s).
Proof.
  unfold caught, failure_toast. download_steps.
  destruct key, aborted; cbn; repeat split.
Qed.

Lemma downloadFile_empty key controller fetched aborted defaultName ext s :
  fetched = Ok None
  \/ (exists b, fetched = Ok (Some b) /\ blob_size b = 0%Z) ->
  caught key (failure_toast aborted defaultName) s
    (run (downloadFile key controller fetched aborted defaultName ext) s).
Proof.
  intros [->|(b & -> & Hb)]; unfold caught, failure_toast; download_steps.
  - destruct key, aborted; cbn; repeat split.
  - rewrite Hb. destruct key, aborted; cbn; repeat split.
Qed.

(** A reply whose declared content type is JSON is an error envelope. *)
Lemma fetchExportBlob_json aborted st ct b :
  includes ct "application/json" = true ->
  exists e,
    ExportApi.fetchExportBlob aborted (Axios.Replied (Axios.mkReply st (Some ct) b))
    = Throw e.
Proof.
  intros H. unfold ExportApi.fetchExportBlob, Axios.request. cbn.
  destruct ((200 <=? st)%Z && (st <? 300)%Z); cbn.
  - rewrite H. eauto.
  - eauto.
Qed.

(** Any other reply in the 2xx range is handed on as it is. *)
Lemma fetchExportBlob_other aborted st ct b :
  (200 <= st < 300)%Z ->
  includes ct "application/json" = false ->
  ExportApi.fetchExportBlob aborted (Axios.Replied (Axios.mkReply st (Some ct) b))
  = Ok b.
Proof.
  intros Hst H. unfold ExportApi.fetchExportBlob, Axios.request. cbn.
  replace ((200 <=? st)%Z && (st <? 300)%Z) with true
    by (symmetry; apply andb_true_iff; split; [apply Z.leb_le | apply Z.ltb_lt]; lia).
  cbn. now rewrite H.
Qed.

Lemma handleDownloadAll_throw r id controller aborted wj wx wp s :
  (exists e, ExportApi.exportToExcel aborted wx = Throw e)
  \/ (exists e, ExportApi.exportToPdf aborted wp = Throw e) ->
  caught KAll (failure_toast_all aborted) s
    (run (handleDownloadAll r id controller aborted wj wx wp) s).
Proof.
  intros Hfail. unfold caught, failure_toast_all, handleDownloadAll.
  cbv [run try_finally try_catch bind await modify ret throw].
  destruct (ExportApi.exportToJson aborted wj) as [j|ej];
    [|destruct aborted; cbn; repeat split].
  destruct (ExportApi.safeFileName (projectName r id) "json") as [nj|e1];
    [|destruct aborted; cbn; repeat split].
  destruct (ExportApi.exportToExcel aborted wx) as [x|ex];
    [|destruct aborted; cbn; repeat split].
  destruct (ExportApi.safeFileName (projectName r id) "xlsx") as [nx|e2];
    [|destruct aborted; cbn; repeat split].
  destruct (ExportApi.exportToPdf aborted wp) as [p|ep];
    [|destruct aborted; cbn; repeat split].
  exfalso. destruct Hfail as [[e H]|[e H]]; discriminate H.
Qed.

(** C7, counterexample.  A reply to the PDF download that declares
    [text/html] is saved as the PDF file, with the success toast.  And
    download all has no check for an empty payload: a zero-byte
    spreadsheet is archived as an empty entry, and the archive is
    saved with the success toast. *)
Lemma wrong_content_type_is_saved :
  (let s' := run (handleDownloadPdf finalized_page "7" 0 false html_reply)
                 finalized_page in
   saved s' = [File "project_7.pdf" (mkBlob "<html>Sign in</html>" "text/html")]
   /\ toasts s' = [ToastSuccess "project_7.pdf downloaded"]
   /\ downloadState s' KPdf = Download.mk false 100 None)
  /\ (let w := Axios.Replied (Axios.mkReply 200 (Some xlsx_type) empty_blob) in
      let s' := run (handleDownloadAll overview_page "7" 0 false
                       json_reply w pdf_reply) overview_page in
      blob_size empty_blob = 0%Z
      /\ saved s'
         = [Archive "my_app.zip"
              [("my_app.json", Some "{}"); ("my_app.xlsx", Some "");
               ("my_app.pdf", Some "%PDF-1.7 first")]]
      /\ toasts s' = [ToastSuccess "All files downloaded"]).
Proof. vm_compute. repeat split. Qed.

(** C7, amended.  In a single-format download whose default name
    converts to text, a missing or zero-byte blob is a caught error:
    nothing is saved, the download is reset and the user gets the failure
    toast (the cancelled toast when the download was cancelled
    meanwhile); so it is for the spreadsheet and PDF downloads on a
    zero-byte reply.  A reply to a binary fetch whose declared content
    type contains [application/json] is a caught error in the
    spreadsheet and PDF downloads, under the same proviso, and in
    download all.  A non-empty reply of any other content type to the
    PDF download is saved as it is, under the file name [safeFileName]
    gives. *)
Theorem empty_or_json_typed_download_is_caught :
  (forall key controller fetched aborted defaultName ext s,
     printable defaultName = true ->
     fetched = Ok None
     \/ (exists b, fetched = Ok (Some b) /\ blob_size b = 0%Z) ->
     caught key (failure_toast aborted defaultName) s
       (run (downloadFile key controller fetched aborted defaultName ext) s))
  /\ (forall r id controller aborted st ct ty s,
        printable (projectName r id) = true ->
        (200 <= st < 300)%Z -> includes ct "application/json" = false ->
        let w := Axios.Replied (Axios.mkReply st (Some ct) (mkBlob "" ty)) in
        caught KExcel (failure_toast aborted (projectName r id)) s
          (run (handleDownloadExcel r id controller aborted w) s)
        /\ caught KPdf (failure_toast aborted (projectName r id)) s
             (run (handleDownloadPdf r id controller aborted w) s))
  /\ (forall r id controller aborted st ct b s,
        includes ct "application/json" = true ->
        let w := Axios.Replied (Axios.mkReply st (Some ct) b) in
        (printable (projectName r id) = true ->
         caught KExcel (failure_toast aborted (projectName r id)) s
           (run (handleDownloadExcel r id controller aborted w) s)
         /\ caught KPdf (failure_toast aborted (projectName r id)) s
              (run (handleDownloadPdf r id controller aborted w) s))
        /\ (forall wj wp,
              caught KAll (failure_toast_all aborted) s
                (run (handleDownloadAll r id controller aborted wj w wp) s))
        /\ (forall wj wx,
              caught KAll (failure_toast_all aborted) s
                (run (handleDownloadAll r id controller aborted wj wx w) s)))
  /\ (forall r id filename controller st ct b s,
        (200 <= st < 300)%Z -> includes ct "application/json" = false ->
        blob_size b <> 0%Z ->
        ExportApi.safeFileName (projectName r id) "pdf" = Ok filename ->
        let w := Axios.Replied (Axios.mkReply st (Some ct) b) in
        saved (run (handleDownloadPdf r id controller false w) s)
        = saved s ++ [File filename b]).
Proof.
  split; [intros; now apply downloadFile_empty|]. split; [|split].
  - intros r id controller aborted st ct ty s _ Hst Hct w.
    unfold handleDownloadExcel, handleDownloadPdf, fetchBinary. subst w.
    rewrite (fetchExportBlob_other aborted st ct _ Hst Hct).
    split; apply downloadFile_empty; right; eexists; split; reflexivity.
  - intros r id controller aborted st ct b s Hct w.
    destruct (fetchExportBlob_json aborted st ct b Hct) as [e He]. fold w in He.
    split; [|split].
    + intros _. unfold handleDownloadExcel, handleDownloadPdf, fetchBinary.
      rewrite He. split; apply downloadFile_throw.
    + intros. apply handleDownloadAll_throw. left. exists e. exact He.
    + intros. apply handleDownloadAll_throw. right. exists e. exact He.
  - intros r id filename controller st ct b s Hst Hct Hb Hname w. subst w.
    unfold handleDownloadPdf, fetchBinary.
    rewrite (fetchExportBlob_other false st ct b Hst Hct).
    download_steps. apply Z.eqb_neq in Hb. rewrite Hb, Hname. reflexivity.
Qed.

(* ================================================================== *)
(** * Cancelling a download (C8) *)
(* ================================================================== *)

(** C8, at a failing input.  The export calls give the same result
    whether or not the download's controller is aborted: the signal is
    not passed on to the request.  So a spreadsheet download the user
    cancels while the backend sends the file ends with the file saved,
    the success toast and the progress at 100.  The cancelled toast and
    the reset to idle come only when the fetch itself fails while the
    controller is aborted. *)
Theorem cancel_does_not_reach_the_request :
  (forall aborted w,
     ExportApi.fetchExportBlob aborted w = ExportApi.fetchExportBlob false w)
  /\ (forall aborted w,
        ExportApi.exportToJson aborted w = ExportApi.exportToJson false w)
  /\ (let s' := run (handleDownloadExcel finalized_page "7" 0 true xlsx_reply)
                    finalized_page in
      saved s' = [File "project_7.xlsx" (mkBlob "PK sheet" xlsx_type)]
      /\ toasts s' = [ToastSuccess "project_7.xlsx downloaded"]
      /\ downloadState s' KExcel = Download.mk false 100 None)
  /\ (forall key controller e defaultName ext s,
        caught key
          (ToastInfo (ToString defaultName ++ " download cancelled")%string) s
          (run (downloadFile key controller (Throw e) true defaultName ext) s)).
Proof.
  split; [|split; [|split]].
  - intros aborted w. reflexivity.
  - intros aborted w. reflexivity.
  - vm_compute. repeat split.
  - intros. apply (downloadFile_throw key controller e true).
Qed.

(* ================================================================== *)
(** * The three preview calls (C9) *)
(* ================================================================== *)

Lemma existsb_preview p done :
  existsb (preview_call_eqb p) done = true <-> In p done.
Proof.
  rewrite existsb_exists. split.
  - intros (q & Hq & E). destruct p, q; try discriminate; exact Hq.
  - intros H. exists p. split; [exact H | now destruct p].
Qed.

Lemma all_done_spec done : all_done done = true <-> forall p, In p done.
Proof.
  unfold all_done. rewrite !andb_true_iff, !existsb_preview. split.
  - intros [[H1 H2] H3] []; assumption.
  - intros H. repeat split; apply H.
Qed.

Lemma joined_sound l : forall issued done,
  joined l issued done = true ->
  forall l1 f l2,
    l = l1 ++ Updated f :: l2 ->
    issued = true \/ In (Issued (Preview PJson)) l1 ->
    forall p, In p done \/ In (Fulfilled (Preview p)) l1.
Proof.
  induction l as [|e l IH]; intros issued done Hj l1 f l2 Hl Hiss p.
  - now destruct l1.
  - destruct l1 as [|e1 l1]; cbn in Hl; injection Hl as -> ->.
    + cbn in Hj. apply andb_true_iff in Hj. destruct Hj as [Hd _].
      destruct Hiss as [->|[]]. cbn in Hd. left. now apply all_done_spec.
    + assert (Hstep : forall issued' done',
                joined (l1 ++ Updated f :: l2) issued' done' = true ->
                (issued' = true \/ In (Issued (Preview PJson)) l1) ->
                (forall q, In q done' -> In q done \/ e1 = Fulfilled (Preview q)) ->
                In p done \/ In (Fulfilled (Preview p)) (e1 :: l1)).
      { intros issued' done' Hj' Hiss' Hdone.
        destruct (IH issued' done' Hj' l1 f l2 eq_refl Hiss' p) as [H|H].
        - destruct (Hdone p H) as [H'|H']; [now left | right; now left].
        - right. now right. }
      destruct e1 as [c|c|c|g]; cbn in Hj.
      * destruct c as [| | | | | |q]; try destruct q;
          (eapply Hstep; [exact Hj | | now left]);
          try (destruct Hiss as [?|[E|?]]; [now left | discriminate E | now right]).
        now left.
      * destruct c as [| | | | | |q];
          try (eapply Hstep; [exact Hj | | now left];
               destruct Hiss as [?|[E|?]]; [now left | discriminate E | now right]).
        eapply Hstep; [exact Hj | |].
        -- destruct Hiss as [?|[E|?]]; [now left | discriminate E | now right].
        -- intros q' [<-|H]; [now right | now left].
      * eapply Hstep; [exact Hj | | now left].
        destruct Hiss as [?|[E|?]]; [now left | discriminate E | now right].
      * apply andb_true_iff in Hj. destruct Hj as [_ Hj].
        eapply Hstep; [exact Hj | | now left].
        destruct Hiss as [?|[E|?]]; [now left | discriminate E | now right].
Qed.

Lemma joined_updates_follow l :
  joined l false [] = true -> updates_follow_previews l.
Proof.
  intros Hj l1 f l2 Hl Hin p.
  destruct (joined_sound l false [] Hj l1 f l2 Hl (or_intror Hin) p) as [[]|H].
  exact H.
Qed.

Lemma settle_settlements r order : forall seen evs res,
  settle r order seen = (evs, res) -> Forall settlement evs.
Proof.
  induction order as [|p order IH]; intros seen evs res; cbn.
  - intros [= <- <-]. constructor.
  - destruct (existsb (preview_call_eqb p) seen); [apply IH|].
    destruct (preview_error r p) as [e|].
    + intros [= <- <-]. constructor; [|constructor]. exists p. now right.
    + destruct (settle r order (p :: seen)) as [evs' res'] eqn:E.
      intros [= <- <-]. constructor; [exists p; now left|].
      eapply IH, E.
Qed.

Lemma settle_all_fulfilled r order :
  all_fulfilled r ->
  forall seen evs res,
    settle r order seen = (evs, res) ->
    res = None
    /\ forall p, In p order -> In p seen \/ In p (fulfilled evs).
Proof.
  intros Hall. induction order as [|p order IH]; intros seen evs res; cbn.
  - intros [= <- <-]. split; [reflexivity | intros p []].
  - destruct (existsb (preview_call_eqb p) seen) eqn:Hseen.
    + intros E. destruct (IH _ _ _ E) as [-> H]. split; [reflexivity|].
      intros q [<-|Hq]; [left; now apply existsb_preview | now apply H].
    + rewrite Hall.
      destruct (settle r order (p :: seen)) as [evs' res'] eqn:E.
      intros [= <- <-]. destruct (IH _ _ _ E) as [-> H]. split; [reflexivity|].
      intros q [<-|Hq]; [right; now left|].
      destruct (H q Hq) as [[<-|Hs]|Hf]; [right; now left | now left | right; now right].
Qed.

Lemma settle_some_failed r order : forall seen evs res p e,
  settle r order seen = (evs, res) ->
  In p order -> ~ In p seen -> preview_error r p = Some e ->
  exists e', res = Some e'.
Proof.
  induction order as [|q order IH]; intros seen evs res p e; cbn; [intros _ []|].
  destruct (existsb (preview_call_eqb q) seen) eqn:Hseen.
  - intros E [<-|Hp] Hns He; [|eapply IH; eassumption].
    exfalso. apply Hns. now apply existsb_preview.
  - destruct (preview_error r q) as [eq|] eqn:Hq.
    + intros [= <- <-]. eauto.
    + destruct (settle r order (q :: seen)) as [evs' res'] eqn:E.
      intros [= <- <-] [<-|Hp] Hns He; [congruence|].
      eapply IH; [exact E | exact Hp | | exact He].
      intros [<-|H]; [congruence | now apply Hns].
Qed.

Lemma joined_settlements evs : Forall settlement evs ->
  forall post done,
    joined (evs ++ post) true done
    = joined post true (rev (fulfilled evs) ++ done).
Proof.
  induction 1 as [|e evs (p & [->| ->]) _ IH]; intros post done; cbn.
  - reflexivity.
  - rewrite IH, <- app_assoc. reflexivity.
  - apply IH.
Qed.

(** What [previews_all] amounts to. *)
Lemma previews_all_spec (r : previews_run) (s : state) :
  exists evs,
    Forall settlement evs
    /\ ((exists j x p,
           json_outcome r = Ok j /\ excel_outcome r = Ok x /\ pdf_outcome r = Ok p
           /\ previews_all r s = (Ok (j, x, p), logged s (issued_previews ++ evs))
           /\ forall q, In q (fulfilled evs))
        \/ (some_failed r
            /\ exists e,
                 previews_all r s = (Throw e, logged s (issued_previews ++ evs)))).
Proof.
  unfold previews_all.
  destruct (settle r (settle_order r ++ [PJson; PExcel; PPdf]) []) as [evs res] eqn:E.
  exists evs. split; [eapply settle_settlements, E|].
  destruct (json_outcome r) as [j|ej] eqn:Hj;
    [destruct (excel_outcome r) as [x|ex] eqn:Hx;
       [destruct (pdf_outcome r) as [p|ep] eqn:Hp|]|].
  - left. exists j, x, p.
    assert (Hall : all_fulfilled r) by (intros []; cbn; now rewrite ?Hj, ?Hx, ?Hp).
    destruct (settle_all_fulfilled r _ Hall _ _ _ E) as [-> Hin].
    repeat split; try reflexivity.
    intros q. destruct (Hin q) as [[]|H]; [|exact H].
    apply in_or_app. right. destruct q; cbn; auto.
  - right. assert (Hf : preview_error r PPdf = Some ep) by (cbn; now rewrite Hp).
    split; [now exists PPdf, ep|].
    destruct (settle_some_failed r _ _ _ _ PPdf ep E) as [e' ->]; auto.
    + apply in_or_app. right. cbn. auto.
    + now exists e'.
  - right. assert (Hf : preview_error r PExcel = Some ex) by (cbn; now rewrite Hx).
    split; [now exists PExcel, ex|].
    destruct (settle_some_failed r _ _ _ _ PExcel ex E) as [e' ->]; auto.
    + apply in_or_app. right. cbn. auto.
    + now exists e'.
  - right. assert (Hf : preview_error r PJson = Some ej) by (cbn; now rewrite Hj).
    split; [now exists PJson, ej|].
    destruct (settle_some_failed r _ _ _ _ PJson ej E) as [e' ->]; auto.
    + apply in_or_app. right. cbn. auto.
    + now exists e'.
Qed.

Lemma quiet_sound l : forall issued,
  quiet l issued = true ->
  forall l1 f l2,
    l = l1 ++ Updated f :: l2 ->
    issued = false /\ ~ In (Issued (Preview PJson)) l1.
Proof.
  induction l as [|e l IH]; intros issued Hq l1 f l2 Hl.
  - now destruct l1.
  - destruct l1 as [|e1 l1]; cbn in Hl; injection Hl as -> ->.
    + cbn in Hq. apply andb_true_iff in Hq. destruct Hq as [Hi _].
      split; [now destruct issued | intros []].
    + destruct e1 as [c|c|c|g]; cbn in Hq.
      * destruct c as [| | | | | |q]; try destruct q;
          try (destruct (IH _ Hq l1 f l2 eq_refl) as [Hi Hn];
               split; [exact Hi | intros [E|H]; [discriminate E | now apply Hn]]).
        destruct (IH _ Hq l1 f l2 eq_refl) as [Hi Hn]. discriminate Hi.
      * destruct (IH _ Hq l1 f l2 eq_refl) as [Hi Hn].
        split; [exact Hi | intros [E|H]; [discriminate E | now apply Hn]].
      * destruct (IH _ Hq l1 f l2 eq_refl) as [Hi Hn].
        split; [exact Hi | intros [E|H]; [discriminate E | now apply Hn]].
      * apply andb_true_iff in Hq. destruct Hq as [_ Hq].
        destruct (IH _ Hq l1 f l2 eq_refl) as [Hi Hn].
        split; [exact Hi | intros [E|H]; [discriminate E | now apply Hn]].
Qed.

Lemma quiet_no_update l :
  quiet l false = true -> no_update_after_previews l.
Proof. intros Hq l1 f l2 Hl. now destruct (quiet_sound l false Hq l1 f l2 Hl). Qed.

Lemma quiet_settlements evs : Forall settlement evs ->
  forall post b, quiet (evs ++ post) b = quiet post b.
Proof.
  induction 1 as [|e evs (p & [->| ->]) _ IH]; intros post b; cbn; auto.
Qed.

Lemma all_done_fulfilled evs :
  (forall q, In q (fulfilled evs)) -> all_done (rev (fulfilled evs) ++ []) = true.
Proof.
  intros H. apply all_done_spec. intros p. rewrite app_nil_r, <- in_rev. apply H.
Qed.

#[local] Arguments removeById : simpl never.
#[local] Arguments replaceById : simpl never.
#[local] Arguments finalized_scope : simpl never.
#[local] Arguments or_else : simpl never.
#[local] Arguments exports_url : simpl never.

Ltac monad_steps :=
  cbv [try_catch bind await modify ret throw backend getProjectById read
       setProjects setLastPreviewScope setLastRedirectUrl record logged];
  cbn.

Lemma joined_settled evs done :
  Forall settlement evs -> joined evs true done = true.
Proof.
  intros H. rewrite <- (app_nil_r evs). now rewrite joined_settlements.
Qed.

Lemma quiet_settled evs b : Forall settlement evs -> quiet evs b = true.
Proof.
  intros H. rewrite <- (app_nil_r evs). now rewrite quiet_settlements.
Qed.

Lemma some_failed_not_all r : some_failed r -> all_fulfilled r -> False.
Proof. intros (p & e & H) Hall. rewrite Hall in H. discriminate H. Qed.

Lemma in_order_failed r order : some_failed r -> some_failed (in_order r order).
Proof. intros (p & e & H). exists p, e. now destruct p. Qed.

Lemma in_order_outcomes r order j x p :
  json_outcome r = Ok j -> excel_outcome r = Ok x -> pdf_outcome r = Ok p ->
  some_failed (in_order r order) -> False.
Proof.
  intros Hj Hx Hp (q & e & H). destruct q; unfold preview_error in H; cbn in H;
    rewrite ?Hj, ?Hx, ?Hp in H; discriminate H.
Qed.

(** The previews of a run, in two settlement orders, at one state. *)
Lemma previews_all_two_orders r order s :
  (exists j x p evs evs',
     Forall settlement evs /\ Forall settlement evs'
     /\ (forall q, In q (fulfilled evs)) /\ (forall q, In q (fulfilled evs'))
     /\ all_fulfilled r
     /\ previews_all r s = (Ok (j, x, p), logged s (issued_previews ++ evs))
     /\ previews_all (in_order r order) s
        = (Ok (j, x, p), logged s (issued_previews ++ evs')))
  \/ (exists e e' evs evs',
        Forall settlement evs /\ Forall settlement evs'
        /\ some_failed r
        /\ previews_all r s = (Throw e, logged s (issued_previews ++ evs))
        /\ previews_all (in_order r order) s
           = (Throw e', logged s (issued_previews ++ evs'))).
Proof.
  destruct (previews_all_spec r s)
    as (evs & Hevs & [(j & x & p & Hj & Hx & Hp & E & Hful)|(Hfail & e & E)]);
  destruct (previews_all_spec (in_order r order) s)
    as (evs' & Hevs' & [(j' & x' & p' & Hj' & Hx' & Hp' & E' & Hful')|(Hfail' & e' & E')]).
  - left. cbn in Hj', Hx', Hp'.
    assert (j' = j) by congruence. assert (x' = x) by congruence.
    assert (p' = p) by congruence. subst.
    exists j, x, p, evs, evs'. repeat split; try assumption.
    intros []; unfold preview_error; now rewrite ?Hj, ?Hx, ?Hp.
  - exfalso. eapply in_order_outcomes; eassumption.
  - exfalso. destruct Hfail as (q & eq & H).
    cbn in Hj', Hx', Hp'.
    destruct q; unfold preview_error in H;
      rewrite ?Hj', ?Hx', ?Hp' in H; discriminate H.
  - right. exists e, e', evs, evs'. repeat split; assumption.
Qed.

Lemma previews_all_cases r s :
  (exists j x p evs,
     Forall settlement evs /\ (forall q, In q (fulfilled evs))
     /\ all_fulfilled r
     /\ previews_all r s = (Ok (j, x, p), logged s (issued_previews ++ evs))
     /\ forall order, exists evs',
          Forall settlement evs' /\ (forall q, In q (fulfilled evs'))
          /\ previews_all (in_order r order) s
             = (Ok (j, x, p), logged s (issued_previews ++ evs')))
  \/ (exists e evs,
        Forall settlement evs /\ some_failed r
        /\ previews_all r s = (Throw e, logged s (issued_previews ++ evs))
        /\ forall order, exists e' evs',
             Forall settlement evs'
             /\ previews_all (in_order r order) s
                = (Throw e', logged s (issued_previews ++ evs'))).
Proof.
  destruct (previews_all_spec r s)
    as (evs & Hevs & [(j & x & p & Hj & Hx & Hp & E & Hful)|(Hfail & e & E)]).
  - left. exists j, x, p, evs. repeat split; try assumption.
    + intros []; unfold preview_error; now rewrite ?Hj, ?Hx, ?Hp.
    + intros order.
      destruct (previews_all_two_orders r order s)
        as [(j' & x' & p' & evs0 & evs' & H0 & H' & F0 & F' & _ & E0 & E')
           |(e & e' & evs0 & evs' & _ & _ & Hfail & _)].
      * exists evs'. rewrite E in E0. injection E0 as <- <- <- _.
        repeat split; assumption.
      * exfalso. destruct Hfail as (q & eq & H).
        destruct q; unfold preview_error in H;
          rewrite ?Hj, ?Hx, ?Hp in H; discriminate H.
  - right. exists e, evs. repeat split; try assumption.
    intros order.
    destruct (previews_all_two_orders r order s)
      as [(j' & x' & p' & evs0 & evs' & _ & _ & _ & _ & Hall & _)
         |(e0 & e' & evs0 & evs' & H0 & H' & _ & E0 & E')].
    + exfalso. eapply some_failed_not_all; eassumption.
    + exists e', evs'. split; assumption.
Qed.

Ltac previews_cases pr Hord :=
  match goal with
  | |- context [previews_all pr ?st] =>
      let E := fresh "E" in
      destruct (previews_all_cases pr st)
        as [(? & ? & ? & ? & ? & ? & ? & E & Hord)
           |(? & ? & ? & ? & E & Hord)];
      rewrite E
  end.

Ltac closed_log :=
  cbn; rewrite <- ?app_assoc; cbn;
  rewrite ?joined_settlements, ?quiet_settlements by assumption;
  cbn; rewrite ?all_done_fulfilled by assumption;
  rewrite ?joined_settled, ?quiet_settled by assumption;
  reflexivity.

Ltac upstream_failed :=
  split; [intros pr; split; [|split]|intros pr _; reflexivity];
  [apply joined_updates_follow; reflexivity
  |intros _; repeat split; apply quiet_no_update; reflexivity
  |intros order; repeat split].

Ltac gate_cases pr Hrm :=
  let Hord := fresh "Hord" in
  let Hord' := fresh "Hord'" in
  (split; [intros pr|intros pr ?]);
  previews_cases pr Hord; monad_steps;
  rewrite ?Hrm; monad_steps;
  try (exfalso; eapply some_failed_not_all; eassumption);
  try reflexivity;
  (split; [apply joined_updates_follow; closed_log|]);
  (split;
     [intros Hf;
      first [exfalso; eapply some_failed_not_all; eassumption
            |repeat split; apply quiet_no_update; closed_log]|]);
  intros order; destruct (Hord order) as (? & ? & Hord');
  try destruct Hord' as (? & Hord'); try destruct Hord' as (? & Hord');
  rewrite Hord'; monad_steps; rewrite ?Hrm; monad_steps; repeat split;
  intros; exfalso; eapply some_failed_not_all; eassumption.

Lemma createProject_gated created generated refreshed ps lp lr :
  let s := mkState ps lp lr [] in
  gated (fun pr => createProject created generated pr refreshed) s
  /\ (forall pr,
        some_failed pr ->
        projects (snd (createProject created generated pr refreshed s)) = ps).
Proof.
  intros s. subst s.
  unfold gated, createProject.
  destruct created as [d|e]; monad_steps.
  2:{ upstream_failed. }
  destruct (prop d "id") as [pid|]; monad_steps.
  2:{ upstream_failed. }
  destruct generated as [sc|e]; monad_steps.
  2:{ upstream_failed. }
  destruct (removeById ps pid) as [l|erm] eqn:Hrm;
    destruct refreshed as [full|e]; gate_cases pr Hrm.
Qed.

Lemma regenerateScope_gated draftScope exported ps lp lr :
  let s := mkState ps lp lr [] in
  gated (fun pr => regenerateScope draftScope exported pr) s
  /\ (forall pr,
        some_failed pr ->
        projects (snd (regenerateScope draftScope exported pr s)) = ps).
Proof.
  intros s. subst s. unfold gated, regenerateScope.
  destruct exported as [d|e]; monad_steps.
  - gate_cases pr (@eq_refl nat 0).
  - destruct (status_is e 400); monad_steps.
    + gate_cases pr (@eq_refl nat 0).
    + upstream_failed.
Qed.

Lemma finalizeScope_gated id scopeData finalized refreshed ps lp lr :
  let s := mkState ps lp lr [] in
  gated (fun pr => finalizeScope id scopeData finalized refreshed pr) s.
Proof.
  intros s. subst s. unfold gated, finalizeScope.
  destruct finalized as [d|e]; monad_steps.
  2:{ intros pr. split; [|split].
      - apply joined_updates_follow. reflexivity.
      - intros _. repeat split. apply quiet_no_update. reflexivity.
      - intros order. repeat split. }
  destruct refreshed as [full|e]; monad_steps.
  2:{ intros pr. split; [|split].
      - apply joined_updates_follow. reflexivity.
      - intros _. repeat split. apply quiet_no_update. reflexivity.
      - intros order. repeat split. }
  destruct (replaceById ps id full) as [l|erp] eqn:Hrp; monad_steps.
  2:{ intros pr. split; [|split].
      - apply joined_updates_follow. reflexivity.
      - intros _. repeat split. apply quiet_no_update. reflexivity.
      - intros order. repeat split. }
  intros pr.
  match goal with
  | |- context [previews_all pr ?st] =>
      destruct (previews_all_cases pr st)
        as [(j & x & p & evs & Hevs & Hful & Hall & E & Hord)
           |(e & evs & Hevs & Hfail & E & Hord)];
      rewrite E
  end; monad_steps.
  - split; [apply joined_updates_follow; closed_log|].
    split; [intros Hf; exfalso; eapply some_failed_not_all; eassumption|].
    intros order. destruct (Hord order) as (evs' & Hevs' & Hful' & ->).
    monad_steps. now repeat split.
  - split; [apply joined_updates_follow; closed_log|].
    split.
    + intros _. repeat split. apply quiet_no_update. closed_log.
    + intros order. destruct (Hord order) as (e' & evs' & Hevs' & ->).
      monad_steps. repeat split.
      intros Hall. exfalso. eapply some_failed_not_all; eassumption.
Qed.

(** C9.  The three preview calls.  In [createProject],
    [regenerateScope] and [finalizeScope], started with an empty log and
    for every outcome of every call: each update of the shared state
    recorded after the previews were issued has the three previews
    fulfilled before it; when one of the previews fails the operation
    rejects, no update follows the previews, and the last preview scope
    and redirect URL (and, in creation and regeneration, the project
    list) are as before; and the order in which the three previews
    settle changes neither the resulting state, nor whether the operation
    succeeds, nor, when all three are fulfilled, its result. *)
Theorem state_updates_wait_for_previews (ps : list value) (lp lr : value) :
  let s := mkState ps lp lr [] in
  (forall created generated refreshed,
     gated (fun pr => createProject created generated pr refreshed) s
     /\ (forall pr,
           some_failed pr ->
           projects (snd (createProject created generated pr refreshed s)) = ps))
  /\ (forall draftScope exported,
        gated (fun pr => regenerateScope draftScope exported pr) s
        /\ (forall pr,
              some_failed pr ->
              projects (snd (regenerateScope draftScope exported pr s)) = ps))
  /\ (forall id scopeData finalized refreshed,
        gated (fun pr => finalizeScope id scopeData finalized refreshed pr) s).
Proof.
  intros s. split; [|split].
  - intros. apply createProject_gated.
  - intros. apply regenerateScope_gated.
  - intros. apply finalizeScope_gated.
Qed.

(* ================================================================== *)
(** * Concrete inputs *)
(* ================================================================== *)

Lemma state_updates_wait_for_previews_witness :
  some_failed pdf_fails_first
  /\ lastPreviewScope
       (snd (finalizeScope (VStr "7") (VObj []) (Ok (VObj [])) (Ok (VObj []))
               pdf_fails_first empty_context)) = VNull.
Proof.
  assert (H : some_failed pdf_fails_first).
  { exists PPdf, (Axios.status_error 500). reflexivity. }
  split; [exact H|].
  exact (proj1 (proj2 (proj2
    (proj1 (proj2
      (proj2 (proj2 (state_updates_wait_for_previews [] VNull VNull))
         (VStr "7") (VObj []) (Ok (VObj [])) (Ok (VObj [])) pdf_fails_first))
       H)))).
Defined.

Lemma finalize_guard_lasts_one_pass_witness :
  truthy (parsedDraft draft_page) = true
  /\ spaced_text <> jsonText draft_page
  /\ isFinalized
       (detectEdit
          (setJsonText spaced_text
             (detectEdit (run finalize_succeeded draft_page)
                         (run finalize_succeeded draft_page)))
          (setJsonText spaced_text
             (detectEdit (run finalize_succeeded draft_page)
                         (run finalize_succeeded draft_page))))
     = false.
Proof.
  assert (H1 : truthy (parsedDraft draft_page) = true) by reflexivity.
  assert (H2 : spaced_text <> jsonText draft_page) by discriminate.
  split; [exact H1|]. split; [exact H2|].
  exact (proj2 (proj2 (proj2 (proj2
    (finalize_guard_lasts_one_pass draft_page spaced_text H1 H2))))).
Defined.






Lemma empty_or_json_typed_download_is_caught_witness :
  blob_size empty_blob = 0%Z
  /\ printable (VStr "My App") = true
  /\ toasts (run (downloadFile KExcel 0 (Ok (Some empty_blob)) false
                    (VStr "My App") "xlsx") initial_page)
     = [ToastError "Failed to download My App"].
Proof.
  assert (H : blob_size empty_blob = 0%Z) by reflexivity.
  split; [exact H|]. split; [reflexivity|].
  exact (proj2 (proj2
    (proj1 empty_or_json_typed_download_is_caught KExcel 0
       (Ok (Some empty_blob)) false (VStr "My App") "xlsx" initial_page
       eq_refl
       (or_intror (ex_intro _ empty_blob (conj eq_refl H)))))).
Defined.

(* ================================================================== *)
(** * Further properties *)
(* ================================================================== *)

Lemma newDraft_props r d section newRows :
  parsedDraft r = VObj d ->
  exists v, newDraft r section newRows = VObj (set d section v).
Proof.
  intros Hd. unfold newDraft. rewrite Hd.
  destruct (String.eqb_spec section "overview") as [->|Hne]; unfold with_section; cbn;
    eauto.
Qed.

(** Writing a section back leaves the other top-level fields of the draft
    as they are, and all of them in their places. *)
Theorem write_back_keeps_other_fields
  (r s : page) (d : props) (section : string) (newRows : list (list value)) :
  parsedDraft r = VObj d ->
  lookup section d <> None ->
  exists written,
    jsonText (updateParsedDraft r section newRows s)
    = text_of (stringify2 (VObj written))
    /\ map fst written = map fst d
    /\ forall k, k <> section -> lookup k written = lookup k d.
Proof.
  intros Hd Hsec.
  destruct (newDraft_props r d section newRows Hd) as [v Hv].
  exists (set d section v). split; [|split].
  - rewrite jsonText_updateParsedDraft by (rewrite Hd; reflexivity).
    now rewrite Hv.
  - unfold set. destruct (lookup section d); [apply keys_replace | contradiction].
  - intros k Hk. now apply lookup_set_other.
Qed.

Lemma write_back_keeps_other_fields_witness :
  parsedDraft resourcing_page = resourcing_draft
  /\ rows (excelPreview resourcing_page)
     = [[VStr "Dev"; VStr "$1,000.00"; VNum 2.5];
        [VStr "Total"; VNum 2.5; VStr "$2,500.00"]]
  /\ exists written,
       jsonText (updateParsedDraft resourcing_page "resourcing_plan"
                   (rows (excelPreview resourcing_page)) resourcing_page)
       = text_of (stringify2 (VObj written))
       /\ map fst written = ["overview"; "resourcing_plan"]
       /\ lookup "overview" written
          = Some (VObj [("Project Name", VStr "Demo")]).
Proof.
  assert (H1 : parsedDraft resourcing_page = resourcing_draft)
    by (vm_compute; reflexivity).
  assert (H2 : lookup "resourcing_plan" (own_props resourcing_draft) <> None)
    by discriminate.
  split; [exact H1|]. split; [vm_compute; reflexivity|].
  destruct (write_back_keeps_other_fields resourcing_page resourcing_page
              (own_props resourcing_draft) "resourcing_plan"
              (rows (excelPreview resourcing_page)) H1 H2)
    as (written & E & K & L).
  exists written. split; [exact E|]. split; [exact K|].
  apply (L "overview"). discriminate.
Defined.

(** A download touches the entry of its own key only. *)
Theorem download_keeps_other_keys
  (key other : download_key) (controller : nat)
  (fetched : outcome (option blob)) (aborted : bool)
  (defaultName : value) (ext : string) (percent : Z) (s : page) :
  download_key_eqb other key = false ->
  downloadState (startDownload key controller s) other = downloadState s other
  /\ downloadState (updateProgress key percent s) other = downloadState s other
  /\ downloadState (finishDownload key s) other = downloadState s other
  /\ downloadState (resetDownload key s) other = downloadState s other
  /\ downloadState
       (run (downloadFile key controller fetched aborted defaultName ext) s) other
     = downloadState s other.
Proof.
  intros Hne.
  assert (Hk : forall f t, downloadState (update_key key f t) other = downloadState t other).
  { intros f t. unfold update_key. cbn. now rewrite Hne. }
  repeat split; try apply Hk.
  download_steps.
  destruct fetched as [[b|]|e]; cbn.
  - destruct (blob_size b =? 0)%Z; cbn.
    + destruct aborted; cbn; now rewrite Hne.
    + destruct (ExportApi.safeFileName defaultName ext); cbn;
        [|destruct aborted; cbn]; now rewrite Hne.
  - destruct aborted; cbn; now rewrite Hne.
  - destruct aborted; cbn; now rewrite Hne.
Qed.

Lemma download_keeps_other_keys_witness :
  download_key_eqb KPdf KExcel = false
  /\ downloadState (resetDownload KExcel initial_page) KPdf
     = downloadState initial_page KPdf.
Proof.
  assert (H : download_key_eqb KPdf KExcel = false) by reflexivity.
  split; [exact H|].
  exact (proj1 (proj2 (proj2 (proj2
    (download_keeps_other_keys KExcel KPdf 0 (Ok None) false VNull "" 0%Z
       initial_page H))))).
Defined.

(** [getFinalizedScope] of the export context: the data of a 2xx reply,
    [null] on a 400, and the error of any other failure; the loading flag
    is down again afterwards. *)
Theorem export_context_finalized_scope
  (w : Axios.wire value) (st : ExportContext.state) :
  let res := ExportContext.getFinalizedScope w st in
  ExportContext.loading (snd res) = false
  /\ match ExportApi.exportToJson false w with
     | Ok d => fst res = Ok d
     | Throw e => fst res = if status_is e 400 then Ok VNull else Throw e
     end.
Proof.
  cbv [ExportContext.getFinalizedScope ExportContext.handleExport
       try_catch try_finally bind modify await ret throw].
  destruct (ExportApi.exportToJson false w) as [d|e]; cbn.
  - split; reflexivity.
  - destruct (status_is e 400); cbn; split; reflexivity.
Qed.

(** When finalizing fails, the user is told and the draft is kept: the
    text and the finalized flag are as before, and the page is no longer
    finalizing. *)
Theorem finalize_failure_keeps_draft
  (r s : page) (e : exn) (refetched : outcome value) :
  truthy (parsedDraft r) = true ->
  let s' := run (handleFinalize r (Throw e) refetched) s in
  jsonText s' = jsonText s
  /\ isFinalized s' = isFinalized s
  /\ justFinalized s' = justFinalized s
  /\ finalizing s' = false
  /\ toasts s' = toasts s ++ [ToastError "Failed to finalize scope."].
Proof.
  intros Hd. unfold handleFinalize, handleFinalize_with. rewrite Hd. async_steps. repeat split.
Qed.

Lemma finalize_failure_keeps_draft_witness :
  truthy (parsedDraft draft_page) = true
  /\ jsonText (run (handleFinalize draft_page (Throw (Axios.status_error 500))
                      (Ok VNull)) draft_page)
     = compact_text.
Proof.
  assert (H : truthy (parsedDraft draft_page) = true) by reflexivity.
  split; [exact H|].
  exact (proj1 (finalize_failure_keeps_draft draft_page draft_page
                  (Axios.status_error 500) (Ok VNull) H)).
Defined.

(** The load pass, when both of its calls resolve: a finalized scope is
    shown as finalized; without one the incoming draft is shown as a
    draft; without either the editor is empty. *)
Theorem load_pass_outcomes
  (r s : page) (incomingDraft project finalizedData : value) :
  isFinalized r && justFinalized r = false ->
  let s' := run (loadProject r incomingDraft (Ok project) (Ok finalizedData)) s in
  loading s' = false
  /\ (truthy finalizedData = true ->
      jsonText s' = text_of (stringify2 finalizedData) /\ isFinalized s' = true)
  /\ (truthy finalizedData = false -> truthy incomingDraft = true ->
      jsonText s' = text_of (stringify2 incomingDraft) /\ isFinalized s' = false)
  /\ (truthy finalizedData = false -> truthy incomingDraft = false ->
      jsonText s' = "" /\ isFinalized s' = false).
Proof.
  intros Hg. unfold loadProject. rewrite Hg. async_steps.
  destruct (truthy finalizedData); [|destruct (truthy incomingDraft)]; cbn;
    repeat split; intros; try discriminate; reflexivity.
Qed.

Lemma load_pass_outcomes_witness :
  isFinalized initial_page && justFinalized initial_page = false
  /\ loading (run (loadProject initial_page VNull (Ok VNull) (Ok VNull))
                initial_page) = false.
Proof.
  assert (H : isFinalized initial_page && justFinalized initial_page = false)
    by reflexivity.
  split; [exact H|].
  exact (proj1 (load_pass_outcomes initial_page initial_page VNull VNull VNull H)).
Defined.

(* ================================================================== *)
(** * Currency cells *)
(* ================================================================== *)

Lemma string_app_assoc (a b c : string) :
  ((a ++ b) ++ c)%string = (a ++ (b ++ c))%string.
Proof. induction a as [|x a IH]; simpl; congruence. Qed.

Lemma rev_string_app s acc :
  rev_string s acc = (rev_string s "" ++ acc)%string.
Proof.
  revert acc. induction s as [|c s IH]; intros acc; simpl; [reflexivity|].
  rewrite IH, (IH (String c "")). now rewrite string_app_assoc.
Qed.

Lemma append_nil_r (s : string) : (s ++ "")%string = s.
Proof. induction s; simpl; congruence. Qed.

Lemma rev_string_append s t :
  rev_string (s ++ t)%string "" = (rev_string t "" ++ rev_string s "")%string.
Proof.
  induction s as [|c s IH]; simpl.
  - now rewrite append_nil_r.
  - rewrite (rev_string_app (s ++ t) (String c "")), IH,
      (rev_string_app s (String c "")).
    now rewrite string_app_assoc.
Qed.

Lemma rev_string_involutive s : rev_string (rev_string s "") "" = s.
Proof.
  induction s as [|c s IH]; simpl; [reflexivity|].
  rewrite (rev_string_app s (String c "")), rev_string_append, IH. reflexivity.
Qed.

(** [trimEnd] leaves what comes before a character that is no white
    space. *)
Lemma trimStart_app_keep s c t :
  is_space c = false ->
  exists s', trimStart (s ++ String c t)%string = (s' ++ String c t)%string.
Proof.
  intros Hc. induction s as [|a s IH]; simpl.
  - exists "". simpl. now rewrite Hc.
  - destruct (is_space a).
    + exact IH.
    + now exists (String a s).
Qed.

Lemma trimEnd_keeps_prefix p c body :
  is_space c = false ->
  exists body', trimEnd (p ++ String c body)%string = (p ++ String c body')%string.
Proof.
  intros Hc. unfold trimEnd.
  rewrite rev_string_append. cbn [rev_string]. rewrite (rev_string_app body (String c "")).
  rewrite string_app_assoc. cbn [append].
  destruct (trimStart_app_keep (rev_string body "") c (rev_string p "") Hc) as [s' Hs'].
  rewrite Hs'. rewrite rev_string_append. cbn [rev_string].
  rewrite (rev_string_app (rev_string p "") (String c "")), rev_string_involutive.
  rewrite string_app_assoc. cbn [append].
  now exists (rev_string s' "").
Qed.

(** A text that starts with the dollar sign, or with a minus and the
    dollar sign, is no number. *)
Lemma StringToNumber_usd neg body : StringToNumber (usd neg body) = nan.
Proof.
  unfold StringToNumber, trim.
  assert (Hd : is_space "$"%char = false) by reflexivity.
  destruct neg; unfold usd; cbn [append].
  - cbn [trimStart]. change (is_space "-"%char) with false. cbv iota.
    destruct (trimEnd_keeps_prefix "-" "$"%char body Hd) as [b' Hb'].
    cbn [append] in Hb'. rewrite Hb'. reflexivity.
  - cbn [trimStart]. rewrite Hd.
    destruct (trimEnd_keeps_prefix "" "$"%char body Hd) as [b' Hb'].
    cbn [append] in Hb'. rewrite Hb'. reflexivity.
Qed.

Lemma toLocaleString_USD_usd x :
  exists neg body, toLocaleString_USD x = usd neg body.
Proof.
  unfold toLocaleString_USD. destruct (Prim2SF x) as [s|s| |s m e]; eauto.
  destruct (frac_of m e) as [p q]. eauto.
Qed.

Lemma usd_not_blank neg body : String.eqb (usd neg body) "" = false.
Proof. destruct neg; reflexivity. Qed.

Lemma formatCurrency_usd neg body :
  formatCurrency (VStr (usd neg body)) = VStr (usd neg body).
Proof.
  unfold formatCurrency. cbn [nullish strict_eq orb ToNumber].
  rewrite usd_not_blank, StringToNumber_usd. reflexivity.
Qed.

Lemma formatCurrency_cases (v : value) :
  (nullish v || strict_eq v (VStr "") = true /\ formatCurrency v = VStr "")
  \/ (nullish v || strict_eq v (VStr "") = false /\ formatCurrency v = v)
  \/ (nullish v || strict_eq v (VStr "") = false
      /\ currency_text (formatCurrency v)).
Proof.
  unfold formatCurrency.
  destruct (nullish v || strict_eq v (VStr "")); [now left|].
  destruct (is_nan (ToNumber v)); [now right; left|].
  right; right. split; [reflexivity|].
  destruct (toLocaleString_USD_usd (ToNumber v)) as (neg & body & E).
  rewrite E. now exists neg, body.
Qed.

(** [formatCurrency] on its own results: formatting a cell twice is
    formatting it once.  A blank cell ([null], [undefined] or the empty
    text) stays blank, a cell that is no number is shown as it is, and
    every other cell becomes a text that starts with the dollar sign, after
    a minus sign for a negative amount. *)
Theorem formatCurrency_idempotent (v : value) :
  formatCurrency (formatCurrency v) = formatCurrency v
  /\ (nullish v = true \/ v = VStr "" -> formatCurrency v = VStr "")
  /\ (formatCurrency v = VStr "" \/ formatCurrency v = v
      \/ currency_text (formatCurrency v)).
Proof.
  destruct (formatCurrency_cases v) as [[Hb E]|[[Hb E]|[Hb (neg & body & E)]]].
  - rewrite E. split; [reflexivity|]. split; [reflexivity|]. now left.
  - rewrite E. split; [exact E|]. split; [|now right; left].
    intros [H| ->]; [now rewrite H in Hb | discriminate Hb].
  - rewrite E. split; [apply formatCurrency_usd|]. split.
    + intros [H| ->]; [now rewrite H in Hb | discriminate Hb].
    + right; right. now exists neg, body.
Qed.

(* ================================================================== *)
(** * File names *)
(* ================================================================== *)

Lemma lower_char_safe c : is_space c = false -> safe_char (lower_char c) = true.
Proof.
  destruct c as [[] [] [] [] [] [] [] []]; vm_compute; congruence.
Qed.

Lemma lower_char_fixed c : safe_char c = true -> lower_char c = c.
Proof.
  destruct c as [[] [] [] [] [] [] [] []]; vm_compute; congruence.
Qed.

Lemma safe_char_not_space c : safe_char c = true -> is_space c = false.
Proof.
  unfold safe_char. destruct (is_space c); [discriminate | reflexivity].
Qed.

Lemma toLowerCase_app a b :
  toLowerCase (a ++ b) = (toLowerCase a ++ toLowerCase b)%string.
Proof. induction a as [|c a IH]; simpl; congruence. Qed.

Lemma safe_base_from s in_run :
  all_chars safe_char (toLowerCase (replace_spaces "_" s in_run)) = true.
Proof.
  revert in_run. induction s as [|c s IH]; intros in_run; simpl; [reflexivity|].
  destruct (is_space c) eqn:Hc.
  - destruct in_run; [apply IH|].
    cbn [append toLowerCase all_chars]. now rewrite IH.
  - cbn [toLowerCase all_chars]. now rewrite lower_char_safe, IH.
Qed.

Lemma safe_base_fixed_from s in_run :
  all_chars safe_char s = true ->
  toLowerCase (replace_spaces "_" s in_run) = s.
Proof.
  revert in_run. induction s as [|c s IH]; intros in_run H; simpl; [reflexivity|].
  simpl in H. apply andb_true_iff in H. destruct H as [Hc Hs].
  rewrite (safe_char_not_space c Hc). cbn [toLowerCase].
  now rewrite (lower_char_fixed c Hc), IH.
Qed.

Lemma lower_char_ascii c : is_ascii c = true -> is_ascii (lower_char c) = true.
Proof. destruct c as [[] [] [] [] [] [] [] []]; vm_compute; congruence. Qed.

Lemma ascii_safe_base_from s in_run :
  ascii_text s = true ->
  ascii_text (toLowerCase (replace_spaces "_" s in_run)) = true.
Proof.
  revert in_run. induction s as [|c s IH]; intros in_run H; [reflexivity|].
  cbn in H. apply andb_true_iff in H as [Hc Hs]. cbn [replace_spaces].
  destruct (is_space c).
  - destruct in_run; [now apply IH|].
    cbn [append toLowerCase ascii_text]. now rewrite IH.
  - cbn [toLowerCase ascii_text]. now rewrite lower_char_ascii, IH.
Qed.

Lemma ascii_safe_base s : ascii_text s = true -> ascii_text (safe_base s) = true.
Proof. apply ascii_safe_base_from. Qed.

Lemma length_toLowerCase s : String.length (toLowerCase s) = String.length s.
Proof. induction s; simpl; congruence. Qed.

Lemma length_replace_spaces s in_run :
  String.length (replace_spaces "_" s in_run) <= String.length s.
Proof.
  revert in_run. induction s as [|c s IH]; intros in_run; simpl; [lia|].
  destruct (is_space c).
  - destruct in_run.
    + specialize (IH true). lia.
    + cbn [append String.length]. specialize (IH true). lia.
  - cbn [String.length]. specialize (IH false). lia.
Qed.

(** [safeFileName].  For a name that is a string of ASCII characters
    the file name is a base, a dot and the extension; the base has
    neither white space nor capital letters, is no longer than the name,
    is the name itself when the name is already so, and so is the base of
    its own base.  For a name that is no string the call throws. *)
Theorem safeFileName_shape (name : value) (ext : string) :
  (forall s, name = VStr s -> ascii_text s = true ->
     ExportApi.safeFileName name ext = Ok (safe_base s ++ "." ++ ext)%string
     /\ ascii_text (safe_base s) = true
     /\ all_chars safe_char (safe_base s) = true
     /\ String.length (safe_base s) <= String.length s
     /\ (all_chars safe_char s = true -> safe_base s = s)
     /\ safe_base (safe_base s) = safe_base s)
  /\ ((forall s, name <> VStr s) ->
      exists e, ExportApi.safeFileName name ext = Throw e).
Proof.
  split.
  - intros s -> Hascii. split; [reflexivity|].
    split; [now apply ascii_safe_base|].
    assert (Hsafe : all_chars safe_char (safe_base s) = true)
      by apply safe_base_from.
    split; [exact Hsafe|]. split.
    + unfold safe_base. rewrite length_toLowerCase. apply length_replace_spaces.
    + split.
      * intros H. now apply safe_base_fixed_from.
      * now apply safe_base_fixed_from.
  - intros H. destruct name; try (eexists; reflexivity).
    now elim (H s).
Qed.

Lemma safeFileName_shape_witness :
  ascii_text "Q3 Road Map" = true
  /\ ExportApi.safeFileName (VStr "Q3 Road Map") "pdf" = Ok "q3_road_map.pdf".
Proof.
  split; [reflexivity|].
  exact (proj1 (proj1 (safeFileName_shape (VStr "Q3 Road Map") "pdf")
                  "Q3 Road Map" eq_refl eq_refl)).
Defined.

(* ================================================================== *)
(** * The error envelope of the binary exports *)
(* ================================================================== *)

(** [fetchExportBlob].  It resolves only with the body of a 2xx reply
    that is not declared as JSON.  A 2xx reply declared as JSON is an
    error whose message is the [detail] of the body, read as JSON, when
    there is one, and [Export failed] when the body has none or does not
    parse.  On any other status the error is the one of the HTTP client,
    with the status, and the body is not read. *)
Theorem fetchExportBlob_envelope (aborted : bool) (r : Axios.reply blob) :
  let w := Axios.Replied r in
  (forall b, ExportApi.fetchExportBlob aborted w = Ok b ->
     is_2xx (Axios.status r) = true
     /\ includes (declared r) "application/json" = false
     /\ b = Axios.body r)
  /\ (is_2xx (Axios.status r) = true ->
      includes (declared r) "application/json" = true ->
      (forall v d,
         parse (blob_bytes (Axios.body r)) = Some v ->
         prop v "detail" = Some d -> truthy d = true ->
         ExportApi.fetchExportBlob aborted w = Throw (mkExn (ToString d) None))
      /\ (parse (blob_bytes (Axios.body r)) = None ->
          ExportApi.fetchExportBlob aborted w
          = Throw (mkExn "Export failed" None))
      /\ (forall v,
            parse (blob_bytes (Axios.body r)) = Some v ->
            (prop v "detail" = None
             \/ exists d, prop v "detail" = Some d /\ truthy d = false) ->
            ExportApi.fetchExportBlob aborted w
            = Throw (mkExn "Export failed" None)))
  /\ (is_2xx (Axios.status r) = false ->
      ExportApi.fetchExportBlob aborted w
      = Throw (Axios.status_error (Axios.status r))).
Proof.
  intros w. subst w.
  unfold ExportApi.fetchExportBlob, Axios.request, is_2xx, declared.
  cbn [Axios.signal ExportApi.fetchExportBlob_config andb].
  destruct ((200 <=? Axios.status r)%Z && (Axios.status r <? 300)%Z) eqn:Hst.
  - cbn [Axios.headers_content_type Axios.data].
    destruct (includes _ "application/json") eqn:Hct.
    + split; [intros b H; discriminate H|].
      split; [|intros H; discriminate H].
      intros _ _. unfold ExportApi.envelope_message. split; [|split].
      * intros v d Hv Hd Ht. rewrite Hv, Hd. unfold or_else. now rewrite Ht.
      * intros Hv. now rewrite Hv.
      * intros v Hv [Hd|(d & Hd & Ht)]; rewrite Hv, Hd; [reflexivity|].
        unfold or_else. now rewrite Ht.
    + split.
      * intros b H. injection H as <-. now repeat split.
      * split; [intros _ H; discriminate H | intros H; discriminate H].
  - split; [intros b H; discriminate H|].
    split; [intros H; discriminate H|]. reflexivity.
Qed.

Lemma fetchExportBlob_envelope_witness :
  is_2xx (Axios.status envelope_reply) = true
  /\ includes (declared envelope_reply) "application/json" = true
  /\ ExportApi.fetchExportBlob false (Axios.Replied envelope_reply)
     = Throw (mkExn "Scope not found" None).
Proof.
  assert (H1 : is_2xx (Axios.status envelope_reply) = true) by reflexivity.
  assert (H2 : includes (declared envelope_reply) "application/json" = true)
    by reflexivity.
  split; [exact H1|]. split; [exact H2|].
  exact (proj1 (proj1 (proj2 (fetchExportBlob_envelope false envelope_reply)) H1 H2)
           (VObj [("detail", VStr "Scope not found")]) (VStr "Scope not found")
           eq_refl eq_refl eq_refl).
Defined.

(* ================================================================== *)
(** * The grid of an array section *)
(* ================================================================== *)

Lemma object_of_row_from (row : list value) (hs : list string) (n : nat)
  (done : props) (p : prototype) :
  NoDup (map fst done ++ hs) ->
  Forall (fun h => array_index h = None /\ h <> "__proto__") hs ->
  fold_left (fun obj hi => assign_property obj (fst hi) (cell row (snd hi)))
            (with_index n hs) (done, p)
  = (done ++ map (fun hi => (fst hi, cell row (snd hi))) (with_index n hs), p).
Proof.
  revert n done. induction hs as [|h hs IH]; intros n done Hnd Hidx;
    cbn [with_index fold_left map].
  - now rewrite app_nil_r.
  - assert (Hfresh : lookup h done = None).
    { apply lookup_none. apply NoDup_remove_2 in Hnd.
      intros Hin. apply Hnd. apply in_or_app. now left. }
    inversion Hidx as [|? ? [Hh Hproto] Hrest]; subst.
    cbn [fst snd]. rewrite assign_property_set by exact Hproto. cbn [fst snd].
    rewrite set_fresh_plain by assumption.
    rewrite IH.
    + now rewrite <- app_assoc.
    + rewrite map_app. simpl. rewrite <- app_assoc. exact Hnd.
    + exact Hrest.
Qed.

Lemma cells_combine (pre row : list value) (hs : list string) :
  List.length row = List.length hs ->
  map (fun hi => (fst hi, cell (pre ++ row) (snd hi)))
      (with_index (List.length pre) hs)
  = combine hs row.
Proof.
  revert pre row. induction hs as [|h hs IH]; intros pre [|x row] Hlen;
    simpl in *; try reflexivity; try discriminate.
  f_equal.
  - unfold cell. rewrite app_nth2 by lia. now rewrite Nat.sub_diag.
  - specialize (IH (pre ++ [x]) row).
    rewrite <- app_assoc, length_app in IH. simpl in IH.
    rewrite Nat.add_1_r in IH. apply IH. lia.
Qed.

Lemma object_of_row_combine (hs : list string) (row : list value) :
  plain_headers hs -> List.length row = List.length hs ->
  object_of_row hs row = VObj (combine hs row).
Proof.
  intros [Hnd Hidx] Hlen. unfold object_of_row.
  rewrite object_of_row_from by assumption.
  pose proof (cells_combine [] row hs Hlen) as H. simpl in H.
  cbn [app]. now rewrite H.
Qed.

Lemma combine_under hs o : combine hs (map (get o) hs) = under hs o.
Proof. unfold under. induction hs as [|h hs IH]; simpl; congruence. Qed.

Lemma length_assign row j x :
  j < List.length row -> List.length (assign row j x) = List.length row.
Proof.
  revert j. induction row as [|a row IH]; intros [|j] H; simpl in *; try lia.
  rewrite IH; lia.
Qed.

Lemma combine_assign hs row j x :
  j < List.length row -> List.length row = List.length hs ->
  combine hs (assign row j x) = put_nth j x (combine hs row).
Proof.
  revert row j. induction hs as [|h hs IH]; intros [|a row] [|j] Hj Hlen;
    simpl in *; try reflexivity; try lia.
  f_equal. apply IH; lia.
Qed.

Lemma assign_cell_edit rs i j x :
  assign_cell rs i j x = edit_nth i (fun row => assign row j x) rs.
Proof.
  revert i. induction rs as [|row rs IH]; intros [|i]; simpl; try reflexivity.
  now rewrite IH.
Qed.

Lemma map_edit_nth {A B : Type} (g : A -> B) (f : A -> A) (f' : B -> B) i l :
  (forall a, In a l -> g (f a) = f' (g a)) ->
  map g (edit_nth i f l) = edit_nth i f' (map g l).
Proof.
  revert i. induction l as [|a l IH]; intros [|i] H; simpl; try reflexivity.
  - now rewrite H by now left.
  - rewrite IH; [reflexivity|]. intros b Hb. apply H. now right.
Qed.

Lemma map_remove_nth {A B : Type} (g : A -> B) i (l : list A) :
  map g (remove_nth i l) = remove_nth i (map g l).
Proof.
  revert i. induction l as [|a l IH]; intros [|i]; simpl; try reflexivity.
  now rewrite IH.
Qed.

Lemma in_edit_nth {A : Type} (P : A -> Prop) (f : A -> A) i (l : list A) :
  (forall a, In a l -> P a) -> (forall a, P a -> P (f a)) ->
  forall a, In a (edit_nth i f l) -> P a.
Proof.
  revert i. induction l as [|b l IH]; intros [|i] Hl Hf a Ha; simpl in *;
    try contradiction.
  - destruct Ha as [<-|Ha]; [apply Hf, Hl; now left | apply Hl; now right].
  - destruct Ha as [<-|Ha]; [apply Hl; now left|].
    apply (IH i); auto.
Qed.

Lemma in_remove_nth {A : Type} i (l : list A) a :
  In a (remove_nth i l) -> In a l.
Proof.
  revert i. induction l as [|b l IH]; intros [|i] H; simpl in *; try contradiction.
  - now right.
  - destruct H as [<-|H]; [now left | right; eauto].
Qed.

(** The row objects that [updateParsedDraft] makes of rows as long as the
    headers. *)
Lemma objects_of_rows hs (rs : list (list value)) :
  plain_headers hs ->
  (forall row, In row rs -> List.length row = List.length hs) ->
  map (object_of_row hs) rs = map VObj (map (combine hs) rs).
Proof.
  intros Hp H. rewrite map_map. apply map_ext_in. intros row Hrow.
  apply object_of_row_combine; auto.
Qed.

Lemma under_own hs o : NoDup hs -> map fst o = hs -> under hs o = o.
Proof.
  intros Hnd <-. unfold under. induction o as [|[k v] o IH]; simpl; [reflexivity|].
  simpl in Hnd. inversion Hnd as [|? ? Hk Hrest]; subst.
  unfold get at 1. simpl. rewrite String.eqb_refl. f_equal.
  transitivity (map (fun h => (h, get o h)) (map fst o)); [|now apply IH].
  apply map_ext_in. intros h Hin. unfold get. simpl.
  destruct (String.eqb_spec h k) as [->|_]; [contradiction | reflexivity].
Qed.

Lemma shown_rows_length hs (objs : list props) :
  forall row, In row (map (fun o => map (get o) hs) objs) ->
              List.length row = List.length hs.
Proof.
  intros row H. apply in_map_iff in H. destruct H as (o & <- & _).
  apply length_map.
Qed.

Lemma combine_shown_rows hs (objs : list props) :
  map (combine hs) (map (fun o => map (get o) hs) objs) = map (under hs) objs.
Proof.
  rewrite map_map. apply map_ext. intros o. apply combine_under.
Qed.

Lemma combine_blank (hs : list string) :
  combine hs (map (fun _ => VStr "") hs) = map (fun h => (h, VStr "")) hs.
Proof. induction hs as [|h hs IH]; simpl; congruence. Qed.

Lemma jsonText_array_section r d section hs objs newRows s :
  on_array_grid r d section hs objs ->
  jsonText
    (updateParsedDraft r section newRows
       (setExcelPreview (mkTable (headers (excelPreview r)) newRows) s))
  = text_of (stringify2
               (VObj (set d section (VArr (map (object_of_row hs) newRows))))).
Proof.
  intros (Hd & Hsec & Hov & _ & Hgrid).
  rewrite jsonText_updateParsedDraft by (rewrite Hd; reflexivity).
  unfold newDraft. rewrite Hov, Hd, Hgrid. reflexivity.
Qed.

(** Writing back from the grid of an array section.  In a render whose
    grid shows, cell for cell, the values that the row objects of an
    array section of the draft have under the headers, the headers being
    plain: the rows written are objects with the headers as their keys,
    in that order; typing into a cell writes the draft back with that
    one field of that one row replaced by the text typed, Delete writes
    it back without the row, Add New with one more row whose fields are
    the empty text, and the other sections are those of the draft.  When
    every row object of the draft has exactly the headers as its keys,
    the rows written, the touched one apart, are the row objects of the
    draft. *)
Theorem array_section_write_back
  (r s : page) (d : props) (section : string) (hs : list string)
  (objs : list props) :
  on_array_grid r d section hs objs ->
  plain_headers hs ->
  let shown := map (under hs) objs in
  (forall i j t,
     i < List.length objs -> j < List.length hs ->
     jsonText (editCell r i j t s)
     = section_text d section (edit_nth i (put_nth j (VStr t)) shown))
  /\ (forall i,
        jsonText (deleteRow r i s) = section_text d section (remove_nth i shown))
  /\ jsonText (addRow r s)
     = section_text d section (shown ++ [map (fun h => (h, VStr "")) hs])
  /\ (Forall (fun o => map fst o = hs) objs -> shown = objs).
Proof.
  intros Hgrid Hp shown.
  pose proof Hgrid as (Hd & Hsec & Hov & Hl & Hrows).
  split; [|split; [|split]].
  - intros i j t Hi Hj. unfold editCell. rewrite Hsec.
    assert (Hlt : Nat.ltb i (List.length (rows (excelPreview r))) = true).
    { rewrite Hrows. cbn [rows]. rewrite length_map. now apply Nat.ltb_lt. }
    rewrite Hlt. rewrite (jsonText_array_section r d section hs objs) by exact Hgrid.
    rewrite Hrows. cbn [rows]. unfold section_text. do 4 f_equal.
    rewrite assign_cell_edit.
    rewrite objects_of_rows; [|exact Hp|].
    + f_equal.
      rewrite (map_edit_nth (combine hs) _ (put_nth j (VStr t))).
      * now rewrite combine_shown_rows.
      * intros row Hrow. apply combine_assign.
        -- rewrite (shown_rows_length hs objs row Hrow). exact Hj.
        -- exact (shown_rows_length hs objs row Hrow).
    + apply (in_edit_nth (fun row => List.length row = List.length hs)).
      * apply shown_rows_length.
      * intros row Hrow. rewrite length_assign; [exact Hrow | lia].
  - intros i. unfold deleteRow. rewrite Hsec.
    rewrite (jsonText_array_section r d section hs objs) by exact Hgrid.
    rewrite Hrows. cbn [rows]. unfold section_text. do 4 f_equal.
    rewrite objects_of_rows; [|exact Hp|].
    + f_equal. now rewrite map_remove_nth, combine_shown_rows.
    + intros row Hrow. apply in_remove_nth in Hrow.
      exact (shown_rows_length hs objs row Hrow).
  - unfold addRow. rewrite Hsec.
    rewrite (jsonText_array_section r d section hs objs) by exact Hgrid.
    rewrite Hrows. cbn [rows headers]. unfold section_text. do 4 f_equal.
    rewrite objects_of_rows; [|exact Hp|].
    + f_equal. rewrite map_app, combine_shown_rows. cbn [map].
      now rewrite combine_blank.
    + intros row Hrow. apply in_app_or in Hrow. destruct Hrow as [Hrow|[<-|[]]].
      * exact (shown_rows_length hs objs row Hrow).
      * apply length_map.
  - intros Hall. subst shown. rewrite Forall_forall in Hall.
    rewrite <- (map_id objs) at 2. apply map_ext_in. intros o Ho.
    apply under_own; [apply Hp | now apply Hall].
Qed.

Lemma shown_row_plain hs o :
  no_currency hs -> shown_row hs o = map (get o) hs.
Proof.
  intros H. unfold shown_row. apply map_ext_in. intros h Hh.
  unfold no_currency in H. rewrite Forall_forall in H. now rewrite (H h Hh).
Qed.

Lemma array_table_objects section (first : props) (rest : list props) :
  String.eqb section "resourcing_plan" = false ->
  let objs := first :: rest in
  let hs := map fst first in
  array_table section (map VObj objs) = Ok (mkTable hs (map (shown_row hs) objs)).
Proof.
  intros Hsec objs hs. unfold array_table.
  change (keys (nth 0 (map VObj objs) VUndefined)) with (Some hs).
  cbv iota beta. rewrite shown_rows_objects. now rewrite Hsec.
Qed.

(** The grid the Excel effect builds for an array section.  On the Excel
    tab, with a section selected that is an array of row objects in the
    draft, the headers are the keys of the first row object and each row
    shows the values of its row object under those headers ([undefined]
    where the object lacks one), rates and costs formatted as currency;
    but for the resourcing plan there is no Total row.  An empty array,
    and an array whose first element is no object, give the empty grid.
    When no header names a rate or a cost the next render shows the
    section cell for cell. *)
Theorem excel_grid_of_array_section
  (r s : page) (d : props) (section : string) :
  activeTab r = TabExcel ->
  parsedDraft r = VObj d ->
  excelSection r = section ->
  section <> "" -> section <> "overview" -> section <> "resourcing_plan" ->
  (forall first rest,
     lookup section d = Some (VArr (map VObj (first :: rest))) ->
     let hs := map fst first in
     let objs := first :: rest in
     excelPreview (run (excelPreviewEffect r) s)
     = mkTable hs (map (shown_row hs) objs)
     /\ (no_currency hs ->
         on_array_grid (run (excelPreviewEffect r) r) d section hs objs))
  /\ (forall arr,
        lookup section d = Some (VArr arr) ->
        arr = [] \/ typeof_object (nth 0 arr VUndefined) = false ->
        excelPreview (run (excelPreviewEffect r) s) = mkTable [] []).
Proof.
  intros Htab Hd Hsec Hne Hov Hres.
  apply String.eqb_neq in Hne, Hov, Hres.
  assert (Heff : forall s0,
    run (excelPreviewEffect r) s0
    = match get d section with
      | VArr arr =>
          if negb (Nat.eqb (List.length arr) 0)
             && typeof_object (nth 0 arr VUndefined)
          then match array_table section arr with
               | Ok t => setExcelPreview t s0
               | Throw _ => s0
               end
          else setExcelPreview (mkTable [] []) s0
      | _ => s0
      end).
  { intros s0. unfold excelPreviewEffect. rewrite Hd, Htab, Hsec.
    cbn [truthy negb tab_eqb orb]. rewrite Hne, Hov.
    destruct (section_keys (VObj d)); async_steps;
      (destruct (get d section) as [| | | | |arr|]; try reflexivity;
       destruct (negb (Nat.eqb (List.length arr) 0)
                 && typeof_object (nth 0 arr VUndefined)); try reflexivity;
       destruct (array_table section arr); reflexivity). }
  split.
  - intros first rest Hl hs objs.
    assert (Hget : get d section = VArr (map VObj objs))
      by (unfold get; now rewrite Hl).
    assert (Hrun : forall s0,
      run (excelPreviewEffect r) s0
      = setExcelPreview (mkTable hs (map (shown_row hs) objs)) s0).
    { intros s0. rewrite Heff, Hget. subst objs hs.
      change (negb (Nat.eqb (List.length (map VObj (first :: rest))) 0)
              && typeof_object (nth 0 (map VObj (first :: rest)) VUndefined))
        with true.
      cbv iota. pose proof (array_table_objects section first rest Hres) as E.
      cbv zeta in E. unfold props in *. now rewrite E. }
    split; [now rewrite Hrun|].
    intros Hnc. rewrite Hrun.
    assert (Hrows : map (shown_row hs) objs = map (fun o => map (get o) hs) objs)
      by (apply map_ext; intros o; now apply shown_row_plain).
    rewrite Hrows. unfold on_array_grid, parsedDraft. cbn [jsonText setExcelPreview
      excelSection excelPreview].
    fold (parsedDraft r). rewrite Hd, Hsec, Hov. repeat split. exact Hl.
  - intros arr Hl Hempty.
    assert (Hget : get d section = VArr arr) by (unfold get; now rewrite Hl).
    rewrite Heff, Hget.
    destruct Hempty as [->|Hobj]; [reflexivity|].
    rewrite Hobj, andb_false_r. reflexivity.
Qed.

Lemma plain_Task_Owner : plain_headers ["Task"; "Owner"].
Proof.
  split.
  - repeat constructor; simpl; intuition discriminate.
  - repeat constructor; discriminate.
Qed.

Lemma array_section_write_back_witness :
  on_array_grid activities_page activities_draft "activities" ["Task"; "Owner"]
    [[("Task", VStr "Design"); ("Owner", VStr "Ana")]]
  /\ jsonText (editCell activities_page 0 1 "Bo" activities_page)
     = section_text activities_draft "activities"
         [[("Task", VStr "Design"); ("Owner", VStr "Bo")]].
Proof.
  assert (H : on_array_grid activities_page activities_draft "activities"
                ["Task"; "Owner"]
                [[("Task", VStr "Design"); ("Owner", VStr "Ana")]]).
  { repeat split. }
  split; [exact H|].
  exact (proj1 (array_section_write_back activities_page activities_page
                  activities_draft "activities" ["Task"; "Owner"]
                  [[("Task", VStr "Design"); ("Owner", VStr "Ana")]]
                  H plain_Task_Owner)
           0 1 "Bo" (Nat.lt_0_succ 0) (Nat.lt_succ_diag_r 1)).
Defined.

Lemma excel_grid_of_array_section_witness :
  activeTab activities_tab = TabExcel
  /\ parsedDraft activities_tab = VObj activities_draft
  /\ excelPreview (run (excelPreviewEffect activities_tab) activities_tab)
     = mkTable ["Task"; "Owner"] [[VStr "Design"; VStr "Ana"]].
Proof.
  assert (H1 : activeTab activities_tab = TabExcel) by reflexivity.
  assert (H2 : parsedDraft activities_tab = VObj activities_draft) by reflexivity.
  split; [exact H1|]. split; [exact H2|].
  assert (N1 : "activities" <> "") by discriminate.
  assert (N2 : "activities" <> "overview") by discriminate.
  assert (N3 : "activities" <> "resourcing_plan") by discriminate.
  exact (proj1 (proj1 (excel_grid_of_array_section activities_tab activities_tab
                         activities_draft "activities" H1 H2 eq_refl N1 N2 N3)
                  [("Task", VStr "Design"); ("Owner", VStr "Ana")] [] eq_refl)).
Defined.

(* ================================================================== *)
(** * A text that is no draft *)
(* ================================================================== *)

(** Without a draft.  The draft is [null] when the text is blank or does
    not parse.  In a render whose draft is [null], or any other falsy
    value, the grid's handlers leave the text alone, Finalize and
    Regenerate do nothing at all, the Excel and the PDF effect neither
    change the page nor call the backend, and a download is named after
    the project id. *)
Theorem no_draft_no_action (r s : page) :
  truthy (parsedDraft r) = false ->
  (forall section newRows, updateParsedDraft r section newRows s = s)
  /\ (forall i j t, jsonText (editCell r i j t s) = jsonText s)
  /\ (forall i, jsonText (deleteRow r i s) = jsonText s)
  /\ jsonText (addRow r s) = jsonText s
  /\ (forall finalized refetched,
        handleFinalize r finalized refetched s = (Ok tt, s))
  /\ (forall prompt busy updated st,
        handleRegenerate (Regen.mk r prompt busy) updated st = (Ok tt, st))
  /\ excelPreviewEffect r s = (Ok tt, s)
  /\ (forall fetched, pdfPreviewEffect r fetched s = s)
  /\ (forall id, projectName r id = VStr ("project_" ++ id))
  /\ (forall t, trim t = "" \/ parse t = None -> parse_draft t = VNull).
Proof.
  intros H.
  assert (Hup : forall section newRows s0, updateParsedDraft r section newRows s0 = s0).
  { intros. unfold updateParsedDraft. now rewrite H. }
  split; [intros; apply Hup|].
  split.
  { intros i j t. unfold editCell.
    destruct (Nat.ltb i (List.length (rows (excelPreview r)))); [|reflexivity].
    now rewrite Hup. }
  split; [intros i; unfold deleteRow; now rewrite Hup|].
  split; [unfold addRow; now rewrite Hup|].
  split; [intros; unfold handleFinalize, handleFinalize_with; now rewrite H|].
  split; [intros; unfold handleRegenerate; cbn [Regen.page_of]; now rewrite H|].
  split; [unfold excelPreviewEffect; now rewrite H|].
  split; [intros; unfold pdfPreviewEffect, pdfPreviewEffect_start; rewrite H;
          now rewrite orb_true_r|].
  split.
  - intros id. unfold projectName.
    destruct (parsedDraft r) as [| |b|x|t|l|o]; try reflexivity; try discriminate H.
    simpl in H. destruct t; [|discriminate H]. reflexivity.
  - intros t [Ht|Ht]; unfold parse_draft.
    + now rewrite Ht.
    + rewrite Ht. now destruct (String.eqb (trim t) "").
Qed.

Lemma no_draft_no_action_witness :
  truthy (parsedDraft initial_page) = false
  /\ jsonText (addRow initial_page initial_page) = "".
Proof.
  assert (H : truthy (parsedDraft initial_page) = false) by reflexivity.
  split; [exact H|].
  exact (proj1 (proj2 (proj2 (proj2 (no_draft_no_action initial_page initial_page H))))).
Defined.

(* ================================================================== *)
(** * How a download ends *)
(* ================================================================== *)

(** How a download ends.  [downloadFile], for a default name that
    converts to text, and [handleDownloadAll] never reject, and they end
    in one of two ways: one file, or one archive, is saved, the download
    is done at 100 and the success toast is shown; or nothing is saved,
    the download is back to idle at 0 and one toast tells of the failure,
    or of the cancellation when the controller was aborted.  The download
    is not left loading. *)
Theorem download_ends_delivered_or_caught
  (key : download_key) (controller : nat) (fetched : outcome (option blob))
  (aborted : bool) (defaultName : value) (ext : string)
  (r : page) (id : string) (wj : Axios.wire value) (wx wp : Axios.wire blob)
  (s : page) :
  (printable defaultName = true ->
   let res := downloadFile key controller fetched aborted defaultName ext s in
   fst res = Ok tt
   /\ ((exists name b,
          fetched = Ok (Some b)
          /\ delivered key (File name b) (ToastSuccess (name ++ " downloaded"))
               s (snd res))
       \/ caught key (failure_toast aborted defaultName) s (snd res)))
  /\ (let res := handleDownloadAll r id controller aborted wj wx wp s in
      fst res = Ok tt
      /\ ((exists name entries,
             delivered KAll (Archive name entries)
               (ToastSuccess "All files downloaded") s (snd res))
          \/ caught KAll (failure_toast_all aborted) s (snd res))).
Proof.
  split.
  - intros _. cbv zeta.
    change (snd (downloadFile key controller fetched aborted defaultName ext s))
      with (run (downloadFile key controller fetched aborted defaultName ext) s).
    destruct fetched as [[b|]|e].
    + destruct (Z.eqb (blob_size b) 0) eqn:Hb.
      * split; [download_steps; rewrite Hb; now destruct aborted|].
        right. apply downloadFile_empty. right. exists b. split; [reflexivity|].
        now apply Z.eqb_eq.
      * destruct (ExportApi.safeFileName defaultName ext) as [name|e] eqn:Hn.
        -- split; [download_steps; rewrite Hb, Hn; reflexivity|].
           left. exists name, b. split; [reflexivity|].
           unfold delivered. download_steps. rewrite Hb, Hn.
           destruct key; cbn; repeat split.
        -- split; [download_steps; rewrite Hb, Hn; now destruct aborted|].
           right. unfold caught, failure_toast. download_steps. rewrite Hb, Hn.
           destruct key, aborted; cbn; repeat split.
    + split; [download_steps; now destruct aborted|].
      right. apply downloadFile_empty. now left.
    + split; [download_steps; now destruct aborted|].
      right. apply downloadFile_throw.
  - cbv zeta. unfold handleDownloadAll, delivered, caught, failure_toast_all.
    cbv [run try_finally try_catch bind await modify ret throw].
    destruct (ExportApi.exportToJson aborted wj) as [j|e1];
      [|destruct aborted; cbn; (split; [reflexivity|right; repeat split])..].
    destruct (ExportApi.safeFileName (projectName r id) "json") as [n1|e1];
      [|destruct aborted; cbn; (split; [reflexivity|right; repeat split])..].
    destruct (ExportApi.exportToExcel aborted wx) as [x|e2];
      [|destruct aborted; cbn; (split; [reflexivity|right; repeat split])..].
    destruct (ExportApi.safeFileName (projectName r id) "xlsx") as [n2|e2];
      [|destruct aborted; cbn; (split; [reflexivity|right; repeat split])..].
    destruct (ExportApi.exportToPdf aborted wp) as [p|e3];
      [|destruct aborted; cbn; (split; [reflexivity|right; repeat split])..].
    destruct (ExportApi.safeFileName (projectName r id) "pdf") as [n3|e3];
      [|destruct aborted; cbn; (split; [reflexivity|right; repeat split])..].
    destruct (ExportApi.safeFileName (projectName r id) "zip") as [n4|e4];
      [|destruct aborted; cbn; (split; [reflexivity|right; repeat split])..].
    cbn. split; [reflexivity|]. left. eexists. eexists. repeat split.
Qed.

(* ================================================================== *)
(** * Object URLs are released *)
(* ================================================================== *)

Lemma same_url_refl o : same_url o o = true.
Proof. destruct o as [u|]; simpl; [apply Nat.eqb_refl | reflexivity]. Qed.

Lemma tidy_commit s s' :
  tidy s -> makes_urls s s' -> tidy (commitPreviewUrl s s').
Proof.
  intros Ht (Hc & Hr & Hnew & Hurl) n Hn.
  assert (Hurls : created (urls (commitPreviewUrl s s')) = created (urls s')).
  { unfold commitPreviewUrl, revokePreviewUrl.
    destruct (same_url _ _); [reflexivity|].
    now destruct (previewPdfUrl s). }
  assert (Hshown : previewPdfUrl (commitPreviewUrl s s') = previewPdfUrl s').
  { unfold commitPreviewUrl, revokePreviewUrl.
    destruct (same_url _ _); [reflexivity|].
    now destruct (previewPdfUrl s). }
  assert (Hkeep : forall m, In m (revoked (urls s')) ->
                            In m (revoked (urls (commitPreviewUrl s s')))).
  { intros m Hm. unfold commitPreviewUrl, revokePreviewUrl.
    destruct (same_url _ _); [exact Hm|].
    destruct (previewPdfUrl s); [now right | exact Hm]. }
  rewrite Hurls in Hn. rewrite Hshown.
  destruct (Nat.lt_ge_cases n (created (urls s))) as [Hold|Hnew'].
  - destruct (Ht n Hold) as [Hrev|(u & Hu & Hid)].
    + left. apply Hkeep, Hr, Hrev.
    + destruct Hurl as [E|[E|(v & E & Hv)]].
      * right. exists u. now rewrite E.
      * left. unfold commitPreviewUrl, revokePreviewUrl. rewrite E, Hu. cbn.
        left. exact Hid.
      * left. unfold commitPreviewUrl, revokePreviewUrl. rewrite E, Hu. cbn.
        destruct (Nat.eqb_spec (url_id u) (url_id v)) as [Euv|_]; [lia|].
        cbn. left. exact Hid.
  - destruct (Hnew n (conj Hnew' Hn)) as [Hrev|Hu]; [left; now apply Hkeep | now right].
Qed.

Lemma makes_urls_refl s s' :
  urls s' = urls s -> previewPdfUrl s' = previewPdfUrl s -> makes_urls s s'.
Proof.
  intros Hu Hp. unfold makes_urls. rewrite Hu. repeat split; auto; try lia.
Qed.

Lemma makes_urls_hidden s s' :
  urls s' = urls s -> previewPdfUrl s' = None -> makes_urls s s'.
Proof.
  intros Hu Hp. unfold makes_urls. rewrite Hu. repeat split; auto; try lia.
Qed.

Lemma makes_urls_show b s0 s :
  created (urls s) <= created (urls s0) ->
  (forall n, In n (revoked (urls s)) -> In n (revoked (urls s0))) ->
  (forall n, created (urls s) <= n < created (urls s0) -> In n (revoked (urls s0))) ->
  makes_urls s (show_blob b s0).
Proof.
  intros Hc Hr Hnew. unfold makes_urls, show_blob. cbn. repeat split.
  - lia.
  - exact Hr.
  - intros n Hn. destruct (Nat.eq_dec n (created (urls s0))) as [->|Hne].
    + right. eexists. split; reflexivity.
    + left. apply Hnew. lia.
  - right; right. eexists. split; [reflexivity|]. cbn. lia.
Qed.

Lemma makes_urls_click b name s :
  makes_urls s (click_link b name s).
Proof.
  unfold makes_urls, click_link. cbn. repeat split.
  - lia.
  - intros n Hn. now right.
  - intros n Hn. left. left. lia.
  - now left.
Qed.

Lemma makes_urls_ext s s' s'' :
  urls s'' = urls s' -> previewPdfUrl s'' = previewPdfUrl s' ->
  makes_urls s s' -> makes_urls s s''.
Proof. intros Hu Hp. unfold makes_urls. now rewrite Hu, Hp. Qed.

Lemma makes_urls_fetchPdf r key fetched s :
  makes_urls s (fetchPdf r key fetched s).
Proof.
  unfold fetchPdf, settlePdf, requestPdf.
  destruct fetched as [[b|]|e]; try (apply makes_urls_refl; reflexivity).
  destruct (valid_pdf b); [|apply makes_urls_refl; reflexivity].
  apply makes_urls_show.
  - unfold revokePreviewUrl. now destruct (previewPdfUrl r).
  - intros n Hn. unfold revokePreviewUrl.
    destruct (previewPdfUrl r); cbn; [now right | exact Hn].
  - intros n Hn. exfalso. revert Hn. unfold revokePreviewUrl.
    destruct (previewPdfUrl r); cbn; lia.
Qed.

Lemma makes_urls_pdfPreviewEffect r fetched s :
  makes_urls s (pdfPreviewEffect r fetched s).
Proof.
  unfold pdfPreviewEffect, pdfPreviewEffect_start.
  destruct (negb (tab_eqb (activeTab r) TabPdf) || negb (truthy (parsedDraft r)));
    [apply makes_urls_refl; reflexivity|].
  destruct (cachedPdfBlobRef s) as [cached|]; [|apply makes_urls_fetchPdf].
  destruct (String.eqb _ _); [|apply makes_urls_fetchPdf].
  destruct (valid_pdf cached); [|apply makes_urls_refl; reflexivity].
  apply makes_urls_show; auto. intros n Hn. lia.
Qed.

Lemma makes_urls_handleFinalize r finalized refetched s :
  makes_urls s (run (handleFinalize r finalized refetched) s).
Proof.
  unfold handleFinalize, handleFinalize_with.
  destruct (negb (truthy (parsedDraft r))); [apply makes_urls_refl; reflexivity|].
  async_steps.
  destruct finalized as [[]|e]; [|apply makes_urls_refl; reflexivity].
  destruct refetched as [d|e]; [|apply makes_urls_refl; reflexivity].
  destruct (truthy d); apply makes_urls_hidden; reflexivity.
Qed.

Lemma makes_urls_downloadFile key controller fetched aborted defaultName ext s :
  makes_urls s (run (downloadFile key controller fetched aborted defaultName ext) s).
Proof.
  download_steps.
  destruct fetched as [[b|]|e];
    try (destruct aborted; apply makes_urls_refl; reflexivity).
  destruct (Z.eqb (blob_size b) 0);
    [destruct aborted; apply makes_urls_refl; reflexivity|].
  destruct (ExportApi.safeFileName defaultName ext) as [name|e];
    [|destruct aborted; apply makes_urls_refl; reflexivity].
  cbn. eapply makes_urls_ext; [| |apply (makes_urls_click b name s)]; reflexivity.
Qed.

Lemma makes_urls_handleDownloadAll r id controller aborted wj wx wp s :
  makes_urls s (run (handleDownloadAll r id controller aborted wj wx wp) s).
Proof.
  unfold handleDownloadAll.
  cbv [run try_finally try_catch bind await modify ret throw].
  repeat match goal with
         | |- context [match ?o with Ok _ => _ | Throw _ => _ end] =>
             destruct o
         end;
    try destruct aborted; apply makes_urls_refl; reflexivity.
Qed.

(** Object URLs are released.  Call a store tidy when every object URL
    made so far is revoked, but the one the PDF tab shows.  The page starts
    tidy, and stays tidy through every update that touches the URLs, once
    the next render has run the cleanup of the preview URL: the PDF
    preview effect (a cache hit or a new fetch, in whatever render it
    started), the clearing of the cache on a text change, Finalize, and
    the downloads, which revoke the URL of their link themselves.  When
    the page goes, every URL is revoked. *)
Theorem object_urls_are_released (s : page) :
  tidy initial_page
  /\ (tidy s ->
      (forall r fetched,
         tidy (commitPreviewUrl s (pdfPreviewEffect r fetched s)))
      /\ tidy (commitPreviewUrl s (clearCachedPdf s))
      /\ (forall r finalized refetched,
            tidy (commitPreviewUrl s (run (handleFinalize r finalized refetched) s)))
      /\ (forall key controller fetched aborted defaultName ext,
            tidy (commitPreviewUrl s
                    (run (downloadFile key controller fetched aborted
                            defaultName ext) s)))
      /\ (forall r id controller aborted wj wx wp,
            tidy (commitPreviewUrl s
                    (run (handleDownloadAll r id controller aborted wj wx wp) s)))
      /\ (forall n, n < created (urls s) -> In n (revoked (urls (unmount s))))).
Proof.
  split.
  - intros n Hn. cbn in Hn. lia.
  - intros Ht. split; [|split; [|split; [|split; [|split]]]].
    + intros. apply tidy_commit; [exact Ht | apply makes_urls_pdfPreviewEffect].
    + apply tidy_commit; [exact Ht | apply makes_urls_hidden; reflexivity].
    + intros. apply tidy_commit; [exact Ht | apply makes_urls_handleFinalize].
    + intros. apply tidy_commit; [exact Ht | apply makes_urls_downloadFile].
    + intros. apply tidy_commit; [exact Ht | apply makes_urls_handleDownloadAll].
    + intros n Hn. unfold unmount, revokePreviewUrl.
      destruct (Ht n Hn) as [Hrev|(u & Hu & Hid)].
      * destruct (previewPdfUrl s); cbn; [now right | exact Hrev].
      * rewrite Hu. cbn. now left.
Qed.

(* ================================================================== *)
(** * The project list *)
(* ================================================================== *)

Lemma id_of_listed p : nullish p = false -> id_of p = Ok (id_val p).
Proof.
  unfold id_of, read, id_val. destruct p; try discriminate; intros _;
    cbn [prop]; reflexivity.
Qed.

Lemma filterM_ok {A : Type} (f : A -> outcome bool) (g : A -> bool) (l : list A) :
  (forall a, In a l -> f a = Ok (g a)) -> filterM f l = Ok (filter g l).
Proof.
  induction l as [|a l IH]; intros H; simpl; [reflexivity|].
  rewrite (H a) by now left. rewrite IH; [reflexivity|].
  intros x Hx. apply H. now right.
Qed.

Lemma filter_twice {A : Type} (f : A -> bool) (l : list A) :
  filter f (filter f l) = filter f l.
Proof.
  induction l as [|a l IH]; simpl; [reflexivity|].
  destruct (f a) eqn:E; simpl; rewrite ?E; now rewrite IH.
Qed.

Lemma removeById_listed l id :
  listed l -> removeById l id = Ok (filter (fun p => negb (has_id id p)) l).
Proof.
  intros Hl. unfold removeById. apply filterM_ok. intros p Hp.
  unfold listed in Hl. rewrite Forall_forall in Hl.
  now rewrite (id_of_listed p (Hl p Hp)).
Qed.

Lemma replaceById_listed l id next :
  listed l ->
  replaceById l id next
  = Ok (map (fun p => if has_id id p then merge p next else p) l).
Proof.
  intros Hl. unfold replaceById. apply mapM_ok. intros p Hp.
  unfold listed in Hl. rewrite Forall_forall in Hl.
  now rewrite (id_of_listed p (Hl p Hp)).
Qed.

Lemma listed_replaced l id next :
  listed l -> listed (map (fun p => if has_id id p then merge p next else p) l).
Proof.
  unfold listed. intros H. apply Forall_map. revert H. apply Forall_impl.
  intros p Hp. now destruct (has_id id p).
Qed.

(** The list [removeById] and [replaceById] give.  On a list whose
    elements have properties neither throws.  [removeById] keeps, in
    their order, exactly the projects with another id, so none with the
    id is left and removing twice is removing once; [replaceById] keeps
    the length and every project with another id in its place. *)
Theorem project_list_by_id (l : list value) (id next : value) :
  listed l ->
  (exists kept,
     removeById l id = Ok kept
     /\ kept = filter (fun p => negb (has_id id p)) l
     /\ Forall (fun p => has_id id p = false) kept
     /\ (forall p, In p kept <-> In p l /\ has_id id p = false)
     /\ removeById kept id = Ok kept)
  /\ (exists changed,
        replaceById l id next = Ok changed
        /\ List.length changed = List.length l
        /\ (forall i p, nth_error l i = Some p ->
              nth_error changed i
              = Some (if has_id id p then merge p next else p))).
Proof.
  intros Hl. split.
  - exists (filter (fun p => negb (has_id id p)) l).
    split; [now apply removeById_listed|]. split; [reflexivity|].
    assert (Hin : forall p, In p (filter (fun p => negb (has_id id p)) l)
                            <-> In p l /\ has_id id p = false).
    { intros p. rewrite filter_In. now rewrite negb_true_iff. }
    split; [apply Forall_forall; intros p Hp; now apply Hin|].
    split; [exact Hin|].
    rewrite removeById_listed.
    + f_equal. apply filter_twice.
    + unfold listed in *. rewrite Forall_forall in *.
      intros p Hp. apply Hl. now apply Hin in Hp.
  - exists (map (fun p => if has_id id p then merge p next else p) l).
    split; [now apply replaceById_listed|]. split; [apply length_map|].
    intros i p Hi. now rewrite nth_error_map, Hi.
Qed.

Lemma project_list_by_id_witness :
  listed [VObj [("id", VStr "a")]; VObj [("id", VStr "b")]]
  /\ exists kept,
       removeById [VObj [("id", VStr "a")]; VObj [("id", VStr "b")]] (VStr "a")
       = Ok kept
       /\ kept = [VObj [("id", VStr "b")]].
Proof.
  assert (H : listed [VObj [("id", VStr "a")]; VObj [("id", VStr "b")]])
    by (repeat constructor).
  split; [exact H|].
  destruct (proj1 (project_list_by_id
                     [VObj [("id", VStr "a")]; VObj [("id", VStr "b")]]
                     (VStr "a") VNull H)) as (kept & E1 & E2 & _).
  exists kept. split; [exact E1 | exact E2].
Defined.

(** The optimistic updates of the project list.  On a list whose
    elements have properties: when the backend call fails, [deleteProject],
    [updateProject] and [deleteAllProjects] reject with the error of the
    call and leave the list [prev] that the render saw, whatever the list
    was in between; when it succeeds, the list is the current one without
    the project, with the project merged first with [data] and then with
    what the backend sent ([data] again when it sent nothing), or
    empty. *)
Theorem optimistic_update_rolls_back
  (prev : list value) (id data : value) (s : state) :
  listed (projects s) ->
  (forall e,
     let res := deleteProject prev id (Throw e) s in
     fst res = Throw e /\ projects (snd res) = prev)
  /\ (let res := deleteProject prev id (Ok tt) s in
      fst res = Ok tt
      /\ projects (snd res) = filter (fun p => negb (has_id id p)) (projects s))
  /\ (forall e,
        let res := updateProject prev id data (Throw e) s in
        fst res = Throw e /\ projects (snd res) = prev)
  /\ (forall d,
        let res := updateProject prev id data (Ok d) s in
        fst res = Ok d
        /\ projects (snd res)
           = replaced id (or_else d data) (replaced id data (projects s)))
  /\ (forall e,
        let res := deleteAllProjects prev (Throw e) s in
        fst res = Throw e /\ projects (snd res) = prev)
  /\ (let res := deleteAllProjects prev (Ok tt) s in
      fst res = Ok tt /\ projects (snd res) = []).
Proof.
  intros Hl.
  pose proof (removeById_listed (projects s) id Hl) as Hrm.
  pose proof (replaceById_listed (projects s) id data Hl) as Hrp.
  split; [|split; [|split; [|split; [|split]]]].
  - intros e. unfold deleteProject. monad_steps. rewrite Hrm. monad_steps.
    now split.
  - unfold deleteProject. monad_steps. rewrite Hrm. monad_steps. now split.
  - intros e. unfold updateProject. monad_steps. rewrite Hrp. monad_steps.
    now split.
  - intros d. unfold updateProject. monad_steps. rewrite Hrp. monad_steps.
    rewrite (replaceById_listed _ id (or_else d data)
               (listed_replaced (projects s) id data Hl)).
    monad_steps. now split.
  - intros e. unfold deleteAllProjects. monad_steps. now split.
  - unfold deleteAllProjects. monad_steps. now split.
Qed.

Lemma optimistic_update_rolls_back_witness :
  listed (projects (mkState two_projects VNull VNull []))
  /\ projects
       (snd (deleteProject two_projects (VStr "a") (Throw (Axios.status_error 500))
               (mkState two_projects VNull VNull [])))
     = two_projects.
Proof.
  assert (H : listed (projects (mkState two_projects VNull VNull [])))
    by (repeat constructor).
  split; [exact H|].
  exact (proj2 (proj1 (optimistic_update_rolls_back two_projects (VStr "a") VNull
                         (mkState two_projects VNull VNull []) H)
                  (Axios.status_error 500))).
Defined.

(** [fetchProjects] never rejects and leaves [loading] false.  When the
    backend answers, the list is the one it sent (empty when it sent
    nothing) and [error] is cleared; when the call fails the list is kept
    and [error] is the text [Failed to fetch projects]. *)
Theorem fetchProjects_outcomes
  (got : outcome (option (list value))) (p : Provider.t) :
  let res := fetchProjects got p in
  fst res = Ok tt
  /\ Provider.loading (snd res) = false
  /\ match got with
     | Ok (Some l) =>
         projects (Provider.shared (snd res)) = l
         /\ Provider.error (snd res) = VNull
     | Ok None =>
         projects (Provider.shared (snd res)) = []
         /\ Provider.error (snd res) = VNull
     | Throw _ =>
         Provider.shared (snd res) = Provider.shared p
         /\ Provider.error (snd res) = VStr "Failed to fetch projects"
     end.
Proof.
  unfold fetchProjects, on_shared.
  cbv [try_finally try_catch bind await modify ret throw setProjects].
  destruct got as [[l|]|e]; cbn; repeat split.
Qed.

(** [createProject] changes the shared state all at once or not at all.
    When it rejects, whichever of its calls failed, the project list, the
    last preview scope and the last redirect URL are as they were.  When
    it resolves, every call succeeded, the refreshed project heads the
    list before the projects with another id, the last preview scope is
    the JSON preview (the generated scope when that is falsy), and the
    redirect URL and the result name the project created. *)
Theorem createProject_all_or_nothing
  (created generated : outcome value) (pr : previews_run)
  (refreshed : outcome value) (s : state) :
  let res := createProject created generated pr refreshed s in
  match fst res with
  | Throw _ => same_fields (snd res) s
  | Ok out =>
      exists data scope full j kept,
        created = Ok data /\ generated = Ok scope /\ refreshed = Ok full
        /\ json_outcome pr = Ok j /\ all_fulfilled pr
        /\ prop data "id" = Some (res_projectId out)
        /\ removeById (projects s) (res_projectId out) = Ok kept
        /\ projects (snd res) = full :: kept
        /\ lastPreviewScope (snd res) = or_else j scope
        /\ lastRedirectUrl (snd res) = exports_url (res_projectId out)
        /\ res_scope out = scope
        /\ res_redirectUrl out = exports_url (res_projectId out)
  end.
Proof.
  cbv zeta. unfold createProject.
  destruct created as [data|e]; [|monad_steps; repeat split].
  destruct (prop data "id") as [pid|] eqn:Hid;
    [|monad_steps; rewrite Hid; monad_steps; repeat split].
  destruct generated as [scope|e];
    [|monad_steps; rewrite Hid; monad_steps; repeat split].
  monad_steps. rewrite Hid. monad_steps.
  match goal with
  | |- context [previews_all pr ?st] =>
      destruct (previews_all_spec pr st)
        as (evs & _ & [(j & x & p & Hj & Hx & Hp & E & _)|(_ & e & E)]);
      rewrite E
  end; [|monad_steps; repeat split].
  destruct refreshed as [full|e]; [|monad_steps; repeat split].
  monad_steps.
  destruct (removeById (projects s) pid) as [kept|e] eqn:Hrm;
    [|monad_steps; repeat split].
  monad_steps. exists data, scope, full, j, kept.
  repeat split; try assumption; try reflexivity.
  intros []; unfold preview_error; now rewrite ?Hj, ?Hx, ?Hp.
Qed.

(* ================================================================== *)
(** * The export context *)
(* ================================================================== *)

(** [handleExport] settles as the call it wraps, and leaves [loading]
    false; [error] is cleared by a call that succeeds, and is the message
    of the error (a default text for an error without one) after a call
    that fails.  So it is after the 400 that [getFinalizedScope] turns
    into [null]: the message of that error stays in [error]. *)
Theorem handleExport_outcomes {A : Type} (o : outcome A)
  (st : ExportContext.state) :
  (let res := ExportContext.handleExport o st in
   fst res = o
   /\ ExportContext.loading (snd res) = false
   /\ ExportContext.error (snd res)
      = match o with
        | Ok _ => VNull
        | Throw e =>
            if String.eqb (err_message e) ""
            then VStr "Export failed. Please try again."
            else VStr (err_message e)
        end)
  /\ (forall body,
        let w := Axios.Replied (Axios.mkReply 400%Z (Some "application/json") body) in
        let res := ExportContext.getFinalizedScope w st in
        fst res = Ok VNull
        /\ ExportContext.error (snd res)
           = VStr "Request failed with status code 400").
Proof.
  split.
  - unfold ExportContext.handleExport.
    cbv [try_finally try_catch bind await modify ret throw].
    destruct o as [a|e]; cbn; [repeat split|].
    repeat split. unfold ExportContext.error_text, or_else. cbn [truthy].
    now destruct (String.eqb (err_message e) "").
  - intros body. cbv zeta. split; reflexivity.
Qed.

(** The previews of the export context.  [previewJson], [previewExcel]
    and [previewPdf] first fetch the finalized scope.  When that fetch
    fails with anything but a 400 they reject with its error, although a
    scope was passed.  Otherwise they render the finalized scope when
    there is one and the scope passed when there is none; for a scope that
    is falsy or has no keys they make no preview call and resolve to [{}],
    [null] and [null].  [loading] is false afterwards. *)
Theorem previews_render_finalized_first
  (scope : value) (finalized : Axios.wire value)
  (renderedJson : value -> Axios.wire value)
  (renderedExcel : value -> Axios.wire blob)
  (renderedPdf : Axios.wire blob)
  (st : ExportContext.state) :
  let rj := ExportContext.previewJson scope finalized renderedJson st in
  let rx := ExportContext.previewExcel scope finalized renderedExcel st in
  let rp := ExportContext.previewPdf scope finalized renderedPdf st in
  ExportContext.loading (snd rj) = false
  /\ ExportContext.loading (snd rx) = false
  /\ ExportContext.loading (snd rp) = false
  /\ match preview_data scope finalized with
     | Throw e => fst rj = Throw e /\ fst rx = Throw e /\ fst rp = Throw e
     | Ok data =>
         if ExportContext.no_data data then
           fst rj = Ok (VObj []) /\ fst rx = Ok None /\ fst rp = Ok None
         else
           fst rj = ExportApi.previewJson (renderedJson data)
           /\ fst rx = match ExportApi.previewExcel (renderedExcel data) with
                       | Ok b => Ok (Some b)
                       | Throw e => Throw e
                       end
           /\ fst rp = match ExportApi.previewPdf renderedPdf with
                       | Ok b => Ok (Some b)
                       | Throw e => Throw e
                       end
     end
  /\ (forall r,
        finalized = Axios.Replied r ->
        (200 <=? Axios.status r)%Z && (Axios.status r <? 300)%Z = true ->
        truthy (Axios.body r) = true ->
        preview_data scope finalized = Ok (Axios.body r))
  /\ (forall r,
        finalized = Axios.Replied r -> Axios.status r = 400%Z ->
        preview_data scope finalized = Ok scope).
Proof.
  cbv zeta.
  unfold ExportContext.previewJson, ExportContext.previewExcel,
    ExportContext.previewPdf, ExportContext.getFinalizedScope,
    ExportContext.handleExport, preview_data.
  cbv [try_finally try_catch bind await modify ret throw].
  split; [|split; [|split; [|split; [|split]]]].
  - destruct (ExportApi.exportToJson false finalized) as [fin|e]; cbn.
    + destruct (ExportContext.no_data (or_else fin scope)); cbn; [reflexivity|].
      now destruct (ExportApi.previewJson _).
    + destruct (status_is e 400); cbn; [|reflexivity].
      destruct (ExportContext.no_data (or_else VNull scope)); cbn; [reflexivity|].
      now destruct (ExportApi.previewJson _).
  - destruct (ExportApi.exportToJson false finalized) as [fin|e]; cbn.
    + destruct (ExportContext.no_data (or_else fin scope)); cbn; [reflexivity|].
      now destruct (ExportApi.previewExcel _).
    + destruct (status_is e 400); cbn; [|reflexivity].
      destruct (ExportContext.no_data (or_else VNull scope)); cbn; [reflexivity|].
      now destruct (ExportApi.previewExcel _).
  - destruct (ExportApi.exportToJson false finalized) as [fin|e]; cbn.
    + destruct (ExportContext.no_data (or_else fin scope)); cbn; [reflexivity|].
      now destruct (ExportApi.previewPdf _).
    + destruct (status_is e 400); cbn; [|reflexivity].
      destruct (ExportContext.no_data (or_else VNull scope)); cbn; [reflexivity|].
      now destruct (ExportApi.previewPdf _).
  - destruct (ExportApi.exportToJson false finalized) as [fin|e]; cbn.
    + destruct (ExportContext.no_data (or_else fin scope)); cbn; [repeat split|].
      destruct (ExportApi.previewJson _), (ExportApi.previewExcel _),
        (ExportApi.previewPdf _); repeat split.
    + destruct (status_is e 400); cbn; [|repeat split].
      destruct (ExportContext.no_data (or_else VNull scope)); cbn; [repeat split|].
      destruct (ExportApi.previewJson _), (ExportApi.previewExcel _),
        (ExportApi.previewPdf _); repeat split.
  - intros r -> Hst Ht. unfold ExportApi.exportToJson, Axios.request.
    cbn [Axios.signal andb]. rewrite Hst. cbn [Axios.data].
    unfold or_else. now rewrite Ht.
  - intros r -> Hst. unfold ExportApi.exportToJson, Axios.request.
    cbn [Axios.signal andb]. rewrite Hst. cbn.
    reflexivity.
Qed.

(* ================================================================== *)
(** * Finalize and Regenerate *)
(* ================================================================== *)

(** Finalize, when the backend accepts the scope.  When the handler
    starts to wait for the finalized scope, the page is finalized, with
    the guard flag and the banner up and the success toast shown.
    Whatever the page does while the handler waits, the handler then
    leaves the finalized flag, the guard flag and the banner as it finds
    them and is no longer finalizing: when the scope is fetched, the text
    becomes the scope as the backend has it (it stays when the backend
    sends none) and the preview URL is dropped; when the fetch fails, the
    text and the preview URL stay and the failure toast is added.  With
    the pass of the edit detection that React runs while the handler
    waits, the guard is spent when the text arrives: the page is left
    finalized without the guard, and the next pass of the edit detection
    reverts it to draft exactly when the text fetched differs from the
    text the editor held. *)
Theorem finalize_success
  (meanwhile1 meanwhile2 : page -> page) (r s : page)
  (refetched : outcome value) :
  truthy (parsedDraft r) = true ->
  let res := handleFinalize_with meanwhile1 meanwhile2 r (Ok tt) refetched s in
  let s' := snd res in
  let resumed := meanwhile1 (setFinalizing true s) in
  let waiting := run finalize_succeeded resumed in
  let back := meanwhile2 waiting in
  fst res = Ok tt
  /\ (isFinalized waiting = true /\ justFinalized waiting = true
      /\ showSuccessBanner waiting = true
      /\ toasts waiting
         = toasts resumed ++ [ToastSuccess "Scope finalized successfully!"])
  /\ (finalizing s' = false
      /\ isFinalized s' = isFinalized back
      /\ justFinalized s' = justFinalized back
      /\ showSuccessBanner s' = showSuccessBanner back
      /\ showSuccessBanner (hide_banner s') = false)
  /\ match refetched with
     | Ok d =>
         jsonText s'
         = (if truthy d then text_of (stringify2 d) else jsonText back)
         /\ previewPdfUrl s' = None
         /\ toasts s' = toasts back
     | Throw _ =>
         jsonText s' = jsonText back
         /\ previewPdfUrl s' = previewPdfUrl back
         /\ toasts s' = toasts back ++ [ToastError "Failed to finalize scope."]
     end
  /\ (forall d,
        truthy d = true -> jsonText resumed <> "" ->
        let sd := run (handleFinalize_with meanwhile1 (fun w => detectEdit w w)
                         r (Ok tt) (Ok d)) s in
        isFinalized sd = true /\ justFinalized sd = false
        /\ (text_of (stringify2 d) <> jsonText resumed ->
            isFinalized (detectEdit sd sd) = false)
        /\ (text_of (stringify2 d) = jsonText resumed ->
            isFinalized (detectEdit sd sd) = true)).
Proof.
  intros H. cbv zeta.
  assert (Hpass : forall d,
    truthy d = true -> jsonText (meanwhile1 (setFinalizing true s)) <> "" ->
    isFinalized
      (run (handleFinalize_with meanwhile1 (fun w => detectEdit w w)
              r (Ok tt) (Ok d)) s) = true
    /\ justFinalized
         (run (handleFinalize_with meanwhile1 (fun w => detectEdit w w)
                 r (Ok tt) (Ok d)) s) = false
    /\ (text_of (stringify2 d) <> jsonText (meanwhile1 (setFinalizing true s)) ->
        isFinalized
          (detectEdit
             (run (handleFinalize_with meanwhile1 (fun w => detectEdit w w)
                     r (Ok tt) (Ok d)) s)
             (run (handleFinalize_with meanwhile1 (fun w => detectEdit w w)
                     r (Ok tt) (Ok d)) s)) = false)
    /\ (text_of (stringify2 d) = jsonText (meanwhile1 (setFinalizing true s)) ->
        isFinalized
          (detectEdit
             (run (handleFinalize_with meanwhile1 (fun w => detectEdit w w)
                     r (Ok tt) (Ok d)) s)
             (run (handleFinalize_with meanwhile1 (fun w => detectEdit w w)
                     r (Ok tt) (Ok d)) s)) = true)).
  { intros d Hd Hne. unfold handleFinalize_with. rewrite H. async_steps.
    rewrite Hd. cbn. unfold detectEdit. cbn. rewrite ?andb_false_r. cbn.
    apply string_neqb in Hne. rewrite Hne. cbn.
    split; [reflexivity|]. split; [reflexivity|]. split.
    - intros Hdiff. apply string_neqb in Hdiff.
      rewrite String.eqb_sym, Hdiff. reflexivity.
    - intros <-. now rewrite String.eqb_refl. }
  match goal with
  | |- ?A /\ (?B /\ (?C /\ (?D /\ _))) =>
      assert (Hmain : A /\ B /\ C /\ D);
      [|destruct Hmain as (a & b & c & d);
        exact (conj a (conj b (conj c (conj d Hpass))))]
  end.
  unfold handleFinalize_with. rewrite H. async_steps.
  destruct refetched as [d|e]; [destruct (truthy d)|]; cbn; repeat split.
Qed.

Lemma finalize_success_witness :
  truthy (parsedDraft draft_page) = true
  /\ isFinalized
       (snd (handleFinalize_with (fun s => s) (fun w => detectEdit w w)
               draft_page (Ok tt) (Ok (VObj [("a", VNum 1)])) draft_page))
     = true
  /\ justFinalized
       (snd (handleFinalize_with (fun s => s) (fun w => detectEdit w w)
               draft_page (Ok tt) (Ok (VObj [("a", VNum 1)])) draft_page))
     = false.
Proof.
  assert (H : truthy (parsedDraft draft_page) = true) by reflexivity.
  split; [exact H|].
  pose proof (proj2 (proj2 (proj2 (proj2
    (finalize_success (fun s => s) (fun w => detectEdit w w)
       draft_page draft_page (Ok (VObj [("a", VNum 1)])) H))))
    (VObj [("a", VNum 1)]) eq_refl) as W.
  cbv zeta in W.
  assert (Hne : jsonText (setFinalizing true draft_page) <> "") by discriminate.
  exact (conj (proj1 (W Hne)) (proj1 (proj2 (W Hne)))).
Defined.

(** A PDF that arrives late.  When the call of a cache miss settles with
    a PDF, the blob is cached under the key of the render that made the
    call and shown, whatever the editor holds by then; the text is not
    touched and no call is made.  The PDF effect of a later render shows
    that blob without a call when the draft of that render has that key,
    and makes a call of its own when it has another.  A call that fails,
    or comes back without a PDF, leaves the cache and the preview as they
    are and tells the user. *)
Theorem late_pdf_is_cached_under_its_own_key
  (r : page) (key : string) (s : page) :
  (forall b,
     valid_pdf b = true ->
     let s' := settlePdf r key (Ok (Some b)) s in
     cachedPdfBlobRef s' = Some b
     /\ lastPdfKeyRef s' = key
     /\ previewPdfUrl s' = Some (mkUrl (created (urls s)) b)
     /\ jsonText s' = jsonText s
     /\ requests s' = requests s
     /\ forall r2,
          activeTab r2 = TabPdf -> truthy (parsedDraft r2) = true ->
          (cache_key (jsonText r2) = key ->
           pdfPreviewEffect_start r2 s' = (show_blob b s', None))
          /\ (cache_key (jsonText r2) <> key ->
              pdfPreviewEffect_start r2 s'
              = (requestPdf r2 s', Some (cache_key (jsonText r2)))))
  /\ (forall fetched,
        (forall b, fetched = Ok (Some b) -> valid_pdf b = false) ->
        let s' := settlePdf r key fetched s in
        cachedPdfBlobRef s' = cachedPdfBlobRef s
        /\ lastPdfKeyRef s' = lastPdfKeyRef s
        /\ previewPdfUrl s' = previewPdfUrl s
        /\ exists t, toasts s' = (toasts s ++ [ToastError t])%list).
Proof.
  split.
  - intros b Hb s'.
    assert (Hs : s' = show_blob b
                        (revokePreviewUrl r
                           (set_lastPdfKeyRef key
                              (set_cachedPdfBlobRef (Some b) s)))).
    { unfold s', settlePdf. now rewrite Hb. }
    assert (Hc : cachedPdfBlobRef s' = Some b
                 /\ lastPdfKeyRef s' = key
                 /\ previewPdfUrl s' = Some (mkUrl (created (urls s)) b)
                 /\ jsonText s' = jsonText s).
    { rewrite Hs. unfold show_blob, revokePreviewUrl.
      destruct (previewPdfUrl r); repeat split. }
    destruct Hc as (Hc1 & Hc2 & Hc3 & Hc4).
    repeat (split; [assumption|]).
    split; [apply requests_settlePdf|].
    intros r2 Htab Hdraft. unfold pdfPreviewEffect_start.
    rewrite Htab, Hdraft, Hc1, Hc2, Hb. cbn [tab_eqb negb orb].
    change (text_of (stringify (parsedDraft r2)))
      with (cache_key (jsonText r2)).
    split.
    + intros <-. now rewrite String.eqb_refl.
    + intros Hne. apply not_eq_sym, String.eqb_neq in Hne. now rewrite Hne.
  - intros fetched Hbad s'. unfold s', settlePdf.
    destruct fetched as [[b|]|e].
    + rewrite (Hbad b eq_refl). repeat split. now eexists.
    + repeat split. now eexists.
    + repeat split. now eexists.
Qed.

Lemma late_pdf_is_cached_under_its_own_key_witness :
  valid_pdf a_pdf = true
  /\ jsonText (fst (text_changed edited_render)) = edited_text
  /\ cache_key edited_text <> cache_key compact_text
  /\ (let s' := settlePdf first_render (cache_key compact_text)
                  (Ok (Some a_pdf)) (fst (text_changed edited_render)) in
      cachedPdfBlobRef s' = Some a_pdf
      /\ lastPdfKeyRef s' = cache_key compact_text
      /\ previewPdfUrl s' = Some (mkUrl 0 a_pdf)
      /\ jsonText s' = edited_text).
Proof.
  assert (Hb : valid_pdf a_pdf = true) by reflexivity.
  split; [exact Hb|]. split; [reflexivity|]. split; [discriminate|].
  pose proof (proj1 (late_pdf_is_cached_under_its_own_key
                       first_render (cache_key compact_text)
                       (fst (text_changed edited_render))) a_pdf Hb) as W.
  cbv zeta in W. cbv zeta.
  destruct W as (W1 & W2 & W3 & W4 & _).
  exact (conj W1 (conj W2 (conj W3 W4))).
Defined.

(** Regenerate.  With a draft and a prompt that is not blank,
    [handleRegenerate] never rejects and leaves [regenLoading] false.
    When the backend answers, the text is what it sent, the page is a
    draft again, finalized or not before, and the prompt is cleared.
    When the call fails, the text, the flag and the prompt are kept and
    the failure toast is shown.  With a blank prompt nothing happens. *)
Theorem regenerate_outcomes (r st : Regen.t) (updated : outcome value) :
  truthy (parsedDraft (Regen.page_of r)) = true ->
  (trim (Regen.regenPrompt r) <> "" ->
   let res := handleRegenerate r updated st in
   let st' := snd res in
   fst res = Ok tt
   /\ Regen.regenLoading st' = false
   /\ match updated with
      | Ok u =>
          jsonText (Regen.page_of st') = text_of (stringify2 u)
          /\ isFinalized (Regen.page_of st') = false
          /\ Regen.regenPrompt st' = ""
          /\ toasts (Regen.page_of st') = toasts (Regen.page_of st)
      | Throw _ =>
          jsonText (Regen.page_of st') = jsonText (Regen.page_of st)
          /\ isFinalized (Regen.page_of st') = isFinalized (Regen.page_of st)
          /\ Regen.regenPrompt st' = Regen.regenPrompt st
          /\ toasts (Regen.page_of st')
             = toasts (Regen.page_of st)
                 ++ [ToastError "Failed to regenerate scope"]
      end)
  /\ (trim (Regen.regenPrompt r) = "" ->
      handleRegenerate r updated st = (Ok tt, st)).
Proof.
  intros H. unfold handleRegenerate. rewrite H. cbn [negb orb]. split.
  - intros Hp. apply String.eqb_neq in Hp. rewrite Hp.
    cbv [try_finally try_catch bind await modify ret throw].
    destruct updated as [u|e]; cbn; repeat split.
  - intros Hp. now rewrite Hp.
Qed.

Lemma regenerate_outcomes_witness :
  truthy (parsedDraft (Regen.page_of (Regen.mk finalized_page "shorter" false)))
  = true
  /\ isFinalized
       (Regen.page_of
          (snd (handleRegenerate (Regen.mk finalized_page "shorter" false)
                  (Ok (VObj [])) (Regen.mk finalized_page "shorter" false))))
     = false.
Proof.
  assert (H : truthy (parsedDraft
                        (Regen.page_of (Regen.mk finalized_page "shorter" false)))
              = true) by reflexivity.
  split; [exact H|].
  assert (Hp : trim (Regen.regenPrompt (Regen.mk finalized_page "shorter" false))
               <> "") by discriminate.
  exact (proj1 (proj2 (proj2 (proj2
    (proj1 (regenerate_outcomes (Regen.mk finalized_page "shorter" false)
              (Regen.mk finalized_page "shorter" false) (Ok (VObj [])) H) Hp))))).
Defined.

(* ================================================================== *)
(** * The project form *)
(* ================================================================== *)

Lemma mem_In x l : ProjectForm.mem x l = true <-> In x l.
Proof.
  unfold ProjectForm.mem. rewrite existsb_exists. split.
  - intros (y & Hy & E). apply String.eqb_eq in E. now subst.
  - intros H. exists x. split; [exact H | apply String.eqb_refl].
Qed.

Lemma mem_false x l : ProjectForm.mem x l = false <-> ~ In x l.
Proof.
  rewrite <- mem_In. destruct (ProjectForm.mem x l); split; intros H;
    congruence || (exfalso; now apply H).
Qed.

Lemma nodupb_NoDup l : nodupb l = true -> NoDup l.
Proof.
  induction l as [|x l IH]; simpl; [constructor|].
  intros H. apply andb_true_iff in H. destruct H as [Hx Hl].
  constructor; [|now apply IH].
  apply negb_true_iff in Hx. now apply mem_false.
Qed.

Lemma assoc_In {A : Type} k (l : list (string * A)) a :
  ProjectForm.assoc k l = Some a -> In a (map snd l).
Proof.
  induction l as [|[k' a'] l IH]; simpl; [discriminate|].
  destruct (String.eqb k k'); [intros [= ->]; now left | intros H; right; auto].
Qed.

Lemma recommendations_sound :
  forallb sound_recommendation (map snd ProjectForm.DOMAIN_COMPLIANCE_MAP) = true.
Proof. vm_compute. reflexivity. Qed.

Lemma recommended_for_sound key l :
  ProjectForm.assoc key ProjectForm.DOMAIN_COMPLIANCE_MAP = Some l ->
  sound_recommendation l = true.
Proof.
  intros H. apply assoc_In in H.
  pose proof recommendations_sound as Hall. rewrite forallb_forall in Hall.
  now apply Hall.
Qed.

(** [recommendForDomain].  Whatever the domain text, the recommendation
    is a list of needs that the form offers, without repeats and not
    empty, so each can be labelled and selected; but for the two texts that
    [normalize] takes to a name the map inherits, for which it is no list.
    A key of the map is found whatever its case and the white space around
    it. *)
Theorem recommendForDomain_sound (domain : string) :
  match ProjectForm.recommendForDomain domain with
  | Some l =>
      l <> [] /\ NoDup l /\ (forall v, In v l -> In v ProjectForm.ALL_VALUES)
  | None =>
      ProjectForm.normalize domain = "constructor"
      \/ ProjectForm.normalize domain = "__proto__"
  end
  /\ (forall key l,
        ProjectForm.assoc key ProjectForm.DOMAIN_COMPLIANCE_MAP = Some l ->
        ProjectForm.normalize domain = key ->
        ProjectForm.recommendForDomain domain = Some l).
Proof.
  assert (Hsound : forall l, sound_recommendation l = true ->
            l <> [] /\ NoDup l /\ (forall v, In v l -> In v ProjectForm.ALL_VALUES)).
  { intros l H. unfold sound_recommendation in H.
    apply andb_true_iff in H. destruct H as [H Hall].
    apply andb_true_iff in H. destruct H as [Hne Hnd].
    split; [|split].
    - intros ->. discriminate Hne.
    - now apply nodupb_NoDup.
    - intros v Hv. rewrite forallb_forall in Hall. now apply mem_In, Hall. }
  split.
  - unfold ProjectForm.recommendForDomain.
    destruct (ProjectForm.assoc (ProjectForm.normalize domain)
                ProjectForm.DOMAIN_COMPLIANCE_MAP) as [l|] eqn:E.
    + apply Hsound. eapply recommended_for_sound, E.
    + destruct (ProjectForm.inherited (ProjectForm.normalize domain)) eqn:Hi.
      * unfold ProjectForm.inherited in Hi. apply orb_true_iff in Hi.
        destruct Hi as [Hi|Hi]; apply String.eqb_eq in Hi; auto.
      * repeat match goal with
               | |- context [if ?b then _ else _] => destruct b
               end; apply Hsound; reflexivity.
  - intros key l Hl <-. unfold ProjectForm.recommendForDomain. now rewrite Hl.
Qed.

Lemma uniq_In l seen v :
  In v (ProjectForm.uniq l seen) <-> In v l /\ ~ In v seen.
Proof.
  revert seen. induction l as [|x l IH]; intros seen; simpl; [tauto|].
  destruct (ProjectForm.mem x seen) eqn:E.
  - apply mem_In in E. rewrite IH. split.
    + intros [H1 H2]. tauto.
    + intros [[->|H1] H2]; [contradiction | tauto].
  - apply mem_false in E. simpl. rewrite IH. simpl. split.
    + intros [->|[H1 H2]]; [tauto|]. split; [tauto|]. intros H. apply H2. now right.
    + intros [[->|H1] H2]; [now left|].
      destruct (string_dec x v) as [->|Hne]; [now left|].
      right. split; [exact H1|]. intros [H|H]; [contradiction | contradiction].
Qed.

Lemma uniq_NoDup l seen : NoDup (ProjectForm.uniq l seen).
Proof.
  revert seen. induction l as [|x l IH]; intros seen; simpl; [constructor|].
  destruct (ProjectForm.mem x seen); [apply IH|].
  constructor; [|apply IH].
  rewrite uniq_In. intros [_ H]. apply H. now left.
Qed.

Lemma uniq_seen_ext l seen seen' :
  (forall v, In v seen <-> In v seen') ->
  ProjectForm.uniq l seen = ProjectForm.uniq l seen'.
Proof.
  revert seen seen'. induction l as [|x l IH]; intros seen seen' H; simpl;
    [reflexivity|].
  assert (E : ProjectForm.mem x seen = ProjectForm.mem x seen').
  { destruct (ProjectForm.mem x seen) eqn:E1; symmetry.
    - apply mem_In. apply H. now apply mem_In.
    - apply mem_false. intros Hin. apply mem_false in E1. apply E1. now apply H. }
  rewrite E. destruct (ProjectForm.mem x seen').
  - now apply IH.
  - f_equal. apply IH. intros v. simpl. now rewrite H.
Qed.

Lemma uniq_prefix a b seen :
  NoDup a -> (forall v, In v a -> ~ In v seen) ->
  ProjectForm.uniq (a ++ b) seen = a ++ ProjectForm.uniq b (a ++ seen).
Proof.
  revert seen. induction a as [|x a IH]; intros seen Hnd Hd; simpl; [reflexivity|].
  inversion Hnd as [|? ? Hx Ha]; subst.
  assert (E : ProjectForm.mem x seen = false)
    by (apply mem_false; apply Hd; now left).
  rewrite E. f_equal. rewrite IH.
  - f_equal. apply uniq_seen_ext. intros v. rewrite !in_app_iff. simpl.
    rewrite in_app_iff. tauto.
  - exact Ha.
  - intros v Hv [<-|Hs]; [contradiction|]. apply (Hd v); [now right | exact Hs].
Qed.

Lemma uniq_all_seen b seen :
  (forall v, In v b -> In v seen) -> ProjectForm.uniq b seen = [].
Proof.
  induction b as [|x b IH]; intros H; simpl; [reflexivity|].
  assert (E : ProjectForm.mem x seen = true) by (apply mem_In, H; now left).
  rewrite E. apply IH. intros v Hv. apply H. now right.
Qed.

Lemma filter_none {A : Type} (f : A -> bool) (l : list A) :
  (forall a, In a l -> f a = false) -> filter f l = [].
Proof.
  induction l as [|a l IH]; intros H; simpl; [reflexivity|].
  rewrite (H a) by now left. apply IH. intros b Hb. apply H. now right.
Qed.

(** The buttons on the compliance needs.  [uniqMerge], behind Select
    India, Select Global and Apply recommended, gives a selection without
    repeats that holds exactly the needs of both lists; a selection
    without repeats is kept as it is, in its order, and the needs it
    lacked come after it; pressing the button again changes nothing.
    Clear India leaves exactly the selected needs that are not Indian, in
    their order, and undoes Select India on a selection that had no Indian
    need; so it is for the Global buttons. *)
Theorem compliance_buttons (a b : list string) :
  NoDup (ProjectForm.uniqMerge a b)
  /\ (forall v, In v (ProjectForm.uniqMerge a b) <-> In v a \/ In v b)
  /\ (NoDup a ->
      exists added,
        ProjectForm.uniqMerge a b = a ++ added
        /\ forall v, In v added <-> In v b /\ ~ In v a)
  /\ ProjectForm.uniqMerge (ProjectForm.uniqMerge a b) b
     = ProjectForm.uniqMerge a b
  /\ (forall v, In v (ProjectForm.clearIndia a)
                <-> In v a /\ ~ In v ProjectForm.INDIA_VALUES)
  /\ (forall v, In v (ProjectForm.clearGlobal a)
                <-> In v a /\ ~ In v ProjectForm.GLOBAL_VALUES)
  /\ (NoDup a ->
      ProjectForm.clearIndia (ProjectForm.selectIndia a) = ProjectForm.clearIndia a
      /\ ProjectForm.clearGlobal (ProjectForm.selectGlobal a)
         = ProjectForm.clearGlobal a)
  /\ (NoDup a -> (forall v, In v a -> ~ In v ProjectForm.INDIA_VALUES) ->
      ProjectForm.clearIndia (ProjectForm.selectIndia a) = a).
Proof.
  assert (Hin : forall x y v, In v (ProjectForm.uniqMerge x y) <-> In v x \/ In v y).
  { intros x y v. unfold ProjectForm.uniqMerge. rewrite uniq_In, in_app_iff.
    simpl. tauto. }
  assert (Hpre : forall x y, NoDup x ->
            ProjectForm.uniqMerge x y = x ++ ProjectForm.uniq y (x ++ [])).
  { intros x y Hx. unfold ProjectForm.uniqMerge. apply uniq_prefix; auto. }
  assert (Hclear : forall vals x, NoDup x ->
            filter (fun v => negb (ProjectForm.mem v vals)) (ProjectForm.uniqMerge x vals)
            = filter (fun v => negb (ProjectForm.mem v vals)) x).
  { intros vals x Hx. rewrite Hpre by exact Hx. rewrite filter_app.
    rewrite (filter_none _ (ProjectForm.uniq vals (x ++ []))).
    - apply app_nil_r.
    - intros v Hv. apply uniq_In in Hv. apply negb_false_iff, mem_In, Hv. }
  split; [apply uniq_NoDup|]. split; [apply Hin|].
  split.
  { intros Ha. exists (ProjectForm.uniq b (a ++ [])). split; [now apply Hpre|].
    intros v. rewrite uniq_In, app_nil_r. tauto. }
  split.
  { rewrite (Hpre (ProjectForm.uniqMerge a b) b) by apply uniq_NoDup.
    rewrite uniq_all_seen; [apply app_nil_r|].
    intros v Hv. rewrite app_nil_r. apply Hin. now right. }
  split.
  { intros v. unfold ProjectForm.clearIndia. rewrite filter_In, negb_true_iff.
    now rewrite mem_false. }
  split.
  { intros v. unfold ProjectForm.clearGlobal. rewrite filter_In, negb_true_iff.
    now rewrite mem_false. }
  split.
  { intros Ha. split; apply Hclear; exact Ha. }
  intros Ha Hnone. unfold ProjectForm.clearIndia, ProjectForm.selectIndia.
  rewrite Hclear by exact Ha.
  clear - Hnone. induction a as [|x a IH]; [reflexivity|].
  assert (E : ProjectForm.mem x ProjectForm.INDIA_VALUES = false)
    by (apply mem_false, Hnone; now left).
  cbn [filter]. rewrite E. cbn [negb]. f_equal. apply IH.
  intros v Hv. apply Hnone. now right.
Qed.

(* ================================================================== *)
(** * Submitting the project form *)
(* ================================================================== *)

Lemma appendIfPresent_text fd key text :
  ProjectApi.appendIfPresent fd key (VStr text) = fd ++ present key text.
Proof.
  unfold ProjectApi.appendIfPresent, present, ProjectApi.append.
  cbn [strict_eq orb andb negb ToString].
  destruct (String.eqb (trim text) ""); cbn; [now rewrite app_nil_r | reflexivity].
Qed.

Lemma append_compliance (cs : list string) fd :
  fold_left (fun fd c => ProjectApi.append fd "compliance" c) (map VStr cs) fd
  = fd ++ map (fun c => ("compliance", ProjectApi.Text c)) cs.
Proof.
  revert fd. induction cs as [|c cs IH]; intros fd; simpl;
    [now rewrite app_nil_r|].
  rewrite IH. unfold ProjectApi.append. cbn [ToString].
  now rewrite <- app_assoc.
Qed.

Lemma append_uploads (fs : list (blob * string)) fd :
  fold_left ProjectApi.append_upload
    (map (fun ft => ProjectApi.Item (Some (fst ft)) (VStr (snd ft))) fs) fd
  = fd ++ flat_map file_entries fs.
Proof.
  revert fd. induction fs as [|[b t] fs IH]; intros fd; simpl;
    [now rewrite app_nil_r|].
  rewrite IH. unfold ProjectApi.append_upload, file_entries, ProjectApi.append.
  cbn [fst snd truthy ToString].
  destruct (String.eqb t ""); cbn [negb]; rewrite <- !app_assoc; reflexivity.
Qed.

Lemma entries_of_app key a b :
  entries_of key (a ++ b) = entries_of key a ++ entries_of key b.
Proof. unfold entries_of. now rewrite filter_app, map_app. Qed.

Lemma entries_of_present key k text :
  String.eqb k key = false -> entries_of key (present k text) = [].
Proof.
  intros H. unfold present, entries_of.
  destruct (String.eqb (trim text) ""); cbn; [reflexivity|]. now rewrite H.
Qed.

Lemma entries_of_other key k (l : list string) :
  String.eqb k key = false ->
  entries_of key (map (fun c => (k, ProjectApi.Text c)) l) = [].
Proof.
  intros H. unfold entries_of. induction l as [|c l IH]; cbn; [reflexivity|].
  rewrite H. exact IH.
Qed.

Lemma files_entries (fs : list (blob * string)) :
  entries_of "files" (flat_map file_entries fs)
  = map (fun ft => ProjectApi.Part (fst ft)) fs.
Proof.
  induction fs as [|[b t] l IH]; [reflexivity|].
  cbn [flat_map]. rewrite entries_of_app, IH. unfold file_entries, entries_of.
  cbn [fst snd]. now destruct (String.eqb t "").
Qed.

Lemma file_types_entries (fs : list (blob * string)) :
  entries_of "file_types" (flat_map file_entries fs)
  = map (fun ft => ProjectApi.Text (snd ft))
      (filter (fun ft => negb (String.eqb (snd ft) "")) fs).
Proof.
  induction fs as [|[b t] l IH]; [reflexivity|].
  cbn [flat_map]. rewrite entries_of_app, IH. unfold file_entries, entries_of.
  cbn [fst snd filter]. now destruct (String.eqb t "").
Qed.

(** What the form posts.  For the payload of the form,
    [projectApi.createProject] posts, in this order: the name, the domain,
    the complexity, the tech stack and the use cases, each trimmed and
    left out when blank; one [compliance] entry for each selected need;
    the duration, trimmed or left out; and for each file the file,
    followed by its type when the type is not empty.  So there is one
    [files] entry for each file, but a [file_types] entry only for the
    files that were given a type. *)
Theorem project_form_body (f : ProjectForm.form) :
  ProjectApi.createProject (ProjectForm.payload_data f)
    (Some (ProjectForm.payload_files f))
  = Ok (present "name" (ProjectForm.name f)
          ++ present "domain" (ProjectForm.domain f)
          ++ present "complexity" (ProjectForm.complexity f)
          ++ present "tech_stack" (ProjectForm.tech_stack f)
          ++ present "use_cases" (ProjectForm.use_cases f)
          ++ map (fun c => ("compliance", ProjectApi.Text c))
               (ProjectForm.compliance f)
          ++ present "duration" (ProjectForm.duration f)
          ++ flat_map file_entries (ProjectForm.files f))
  /\ (forall fd,
        ProjectApi.createProject (ProjectForm.payload_data f)
          (Some (ProjectForm.payload_files f)) = Ok fd ->
        entries_of "files" fd
        = map (fun ft => ProjectApi.Part (fst ft)) (ProjectForm.files f)
        /\ entries_of "file_types" fd
           = map (fun ft => ProjectApi.Text (snd ft))
               (filter (fun ft => negb (String.eqb (snd ft) ""))
                       (ProjectForm.files f))).
Proof.
  assert (E : ProjectApi.createProject (ProjectForm.payload_data f)
                (Some (ProjectForm.payload_files f))
              = Ok (present "name" (ProjectForm.name f)
                      ++ present "domain" (ProjectForm.domain f)
                      ++ present "complexity" (ProjectForm.complexity f)
                      ++ present "tech_stack" (ProjectForm.tech_stack f)
                      ++ present "use_cases" (ProjectForm.use_cases f)
                      ++ map (fun c => ("compliance", ProjectApi.Text c))
                           (ProjectForm.compliance f)
                      ++ present "duration" (ProjectForm.duration f)
                      ++ flat_map file_entries (ProjectForm.files f))).
  { unfold ProjectApi.createProject, ProjectForm.payload_data,
      ProjectForm.payload_files, ProjectForm.entries.
    cbn [prop get lookup String.eqb Ascii.eqb Bool.eqb].
    rewrite !appendIfPresent_text. cbn [app].
    rewrite append_uploads, append_compliance.
    now rewrite <- !app_assoc. }
  split; [exact E|].
  intros fd Hfd. rewrite E in Hfd. injection Hfd as <-.
  rewrite !entries_of_app.
  rewrite !entries_of_present, !entries_of_other by reflexivity.
  cbn [app]. split; [apply files_entries | apply file_types_entries].
Qed.

Lemma text_filled s :
  truthy (VStr s) && negb (String.eqb (trim (ToString (VStr s))) "") = false
  <-> trim s = "".
Proof.
  cbn [truthy ToString]. split.
  - intros H. destruct (String.eqb_spec (trim s) "") as [E|E]; [exact E|].
    rewrite andb_true_r in H. apply negb_false_iff, String.eqb_eq in H.
    subst. now elim E.
  - intros ->. apply andb_false_r.
Qed.

Lemma hasAtLeastOne_blank f : ProjectForm.hasAtLeastOne f = false <-> blank f.
Proof.
  unfold ProjectForm.hasAtLeastOne, ProjectForm.entries, blank.
  cbn [existsb snd]. rewrite !orb_false_iff, !text_filled.
  rewrite length_map.
  assert (Hc : negb (Nat.eqb (List.length (ProjectForm.compliance f)) 0) = false
               <-> ProjectForm.compliance f = []).
  { destruct (ProjectForm.compliance f); cbn; split; congruence. }
  assert (Hf : negb (Nat.eqb (List.length (ProjectForm.files f)) 0) = false
               <-> ProjectForm.files f = []).
  { destruct (ProjectForm.files f); cbn; split; congruence. }
  rewrite Hc, Hf. tauto.
Qed.

Lemma newErrors_none f : ProjectForm.newErrors f = [].
Proof.
  unfold ProjectForm.newErrors, ProjectForm.entries, ProjectForm.validateField.
  cbn [flat_map fst snd].
  repeat match goal with
         | |- context [if ?b then "" else ""] => destruct b
         end; reflexivity.
Qed.

(** Submitting the form.  A form with nothing filled in is not posted:
    the one effect is the toast that asks for a field or a file.  Every
    other form is posted as it is, for no field is ever found in error;
    [handleSubmit] does not reject and leaves [loading] false.  When the
    project is created, the success toast names it, the page goes to the
    exports of the project, with the scope as the draft when there is one,
    and the form is blank again.  When the creation fails the form keeps
    what was filled in, and the failure toast is shown. *)
Theorem submit_outcomes (r s : ProjectForm.store) (onSubmit : bool)
  (created : outcome result) :
  let f := ProjectForm.form_of r in
  let res := ProjectForm.handleSubmit r onSubmit created s in
  let s' := snd res in
  fst res = Ok tt
  /\ (blank f ->
      s' = ProjectForm.toast_show
             (ToastError "Please fill at least one field or upload a file.") s)
  /\ (~ blank f ->
      ProjectForm.payloads s' = ProjectForm.payloads s ++ [f]
      /\ ProjectForm.loading s' = false
      /\ ProjectForm.validationErrors s' = []
      /\ match created with
         | Ok out =>
             ProjectForm.form_of s' = ProjectForm.blank_form
             /\ ProjectForm.toasts s' = ProjectForm.toasts s ++ [created_toast f]
             /\ ProjectForm.navigations s'
                = ProjectForm.navigations s
                    ++ [(("/exports/" ++ ToString (res_projectId out))%string,
                         if truthy (res_scope out) then Some (res_scope out)
                         else None)]
             /\ ProjectForm.submitted s'
                = ProjectForm.submitted s
                    ++ (if onSubmit
                        then [(res_projectId out, res_scope out,
                               res_redirectUrl out)]
                        else [])
         | Throw _ =>
             ProjectForm.form_of s' = ProjectForm.form_of s
             /\ ProjectForm.toasts s'
                = ProjectForm.toasts s
                    ++ [ToastError "Failed to create and scope project."]
             /\ ProjectForm.navigations s' = ProjectForm.navigations s
             /\ ProjectForm.submitted s' = ProjectForm.submitted s
         end).
Proof.
  cbv zeta. unfold ProjectForm.handleSubmit.
  rewrite newErrors_none. cbn [List.length Nat.eqb negb].
  destruct (ProjectForm.hasAtLeastOne (ProjectForm.form_of r)) eqn:Hany.
  - cbn [negb].
    cbv [try_finally try_catch bind await modify ret throw].
    assert (Hnb : ~ blank (ProjectForm.form_of r)).
    { intros Hb. apply hasAtLeastOne_blank in Hb. congruence. }
    destruct created as [out|e].
    + destruct onSubmit; cbn.
      * split; [reflexivity|]. split; [intros Hb; contradiction|].
        intros _. unfold created_toast, or_else. cbn [truthy ToString].
        destruct (String.eqb (ProjectForm.name (ProjectForm.form_of r)) "");
          cbn; rewrite ?app_nil_r; repeat split.
      * split; [reflexivity|]. split; [intros Hb; contradiction|].
        intros _. unfold created_toast, or_else. cbn [truthy ToString].
        destruct (String.eqb (ProjectForm.name (ProjectForm.form_of r)) "");
          cbn; rewrite ?app_nil_r; repeat split.
    + cbn. split; [reflexivity|]. split; [intros Hb; contradiction|].
      intros _. repeat split.
  - cbn [negb]. cbv [modify]. cbn [fst snd]. split; [reflexivity|].
    split; [reflexivity|].
    intros Hnb. elim Hnb. now apply hasAtLeastOne_blank.
Qed.

(* ================================================================== *)
(** * The text of a draft reads back *)
(* ================================================================== *)

(** ** Strings *)

Lemma scan_string_quote_char c rest acc :
  scan_string (quote_char c ++ rest) acc = scan_string rest (piece_of c :: acc).
Proof.
  destruct c as [[] [] [] [] [] [] [] []]; reflexivity.
Qed.

Lemma scan_string_quote_body s rest acc :
  scan_string (quote_body s ++ dquote ++ rest) acc
  = Some (rev acc ++ map piece_of (list_ascii_of_string s), rest).
Proof.
  revert acc. induction s as [|c s IH]; intros acc.
  - cbn. now rewrite app_nil_r.
  - cbn [quote_body list_ascii_of_string map].
    rewrite string_app_assoc, scan_string_quote_char, IH. cbn [rev].
    now rewrite <- app_assoc.
Qed.

Lemma decode_piece_of c l :
  decode_pieces (piece_of c :: l) = String c (decode_pieces l).
Proof.
  destruct c as [[] [] [] [] [] [] [] []]; try reflexivity;
    destruct l as [|[b|n] l]; reflexivity.
Qed.

Lemma decode_pieces_of s :
  decode_pieces (map piece_of (list_ascii_of_string s)) = s.
Proof.
  induction s as [|c s IH]; [reflexivity|].
  cbn [list_ascii_of_string map]. now rewrite decode_piece_of, IH.
Qed.

(** A quoted string reads back as the string. *)
Lemma parse_string_quoted s rest :
  parse_string (quote_body s ++ dquote ++ rest) = Some (s, rest).
Proof.
  unfold parse_string. rewrite scan_string_quote_body. cbn [rev app].
  now rewrite decode_pieces_of.
Qed.

(** ** Numbers *)

Lemma take_digits_app s rest acc cnt a c r :
  take_digits s acc cnt = (a, c, r) ->
  number_end rest = true ->
  take_digits (s ++ rest) acc cnt = (a, c, (r ++ rest)%string).
Proof.
  revert acc cnt. induction s as [|x s IH]; intros acc cnt H Hend.
  - cbn in H. injection H as <- <- <-. cbn [append].
    destruct rest as [|y rest]; [reflexivity|]. cbn.
    cbn in Hend. destruct (is_digit y); [discriminate Hend | reflexivity].
  - cbn in H |- *. destruct (is_digit x).
    + now apply IH.
    + now injection H as <- <- <-.
Qed.

Lemma take_digits_some s acc cnt a c r :
  take_digits s acc cnt = (a, c, r) -> c <> cnt -> s <> "".
Proof. intros H Hc ->. cbn in H. injection H as _ <- _. now apply Hc. Qed.

Lemma take_digits_count s acc cnt a c r :
  take_digits s acc cnt = (a, c, r) -> (cnt <= c)%Z.
Proof.
  revert acc cnt. induction s as [|x s IH]; intros acc cnt H; cbn in H.
  - injection H as _ <- _. lia.
  - destruct (is_digit x).
    + apply IH in H. lia.
    + injection H as _ <- _. lia.
Qed.

Lemma scan_exponent_app r rest ex r' :
  scan_exponent r = Some (ex, r') ->
  number_end rest = true ->
  scan_exponent (r ++ rest) = Some (ex, (r' ++ rest)%string).
Proof.
  intros H Hend. destruct r as [|c r]; [discriminate H|].
  cbn [append]. unfold scan_exponent in *.
  destruct (Ascii.eqb c "e" || Ascii.eqb c "E"); [|discriminate H].
  destruct r as [|s r]; [cbn in H; discriminate H|].
  cbn [append].
  destruct s as [[] [] [] [] [] [] [] []];
    match type of H with
    | context [take_digits ?t 0%Z 0%Z] =>
        destruct (take_digits t 0%Z 0%Z) as [[ex0 cnt] rest0] eqn:E;
        first [ rewrite (take_digits_app t rest _ _ _ _ _ E Hend)
              | pose proof (take_digits_app t rest _ _ _ _ _ E Hend) as E';
                cbn [append] in E'; rewrite E' ];
        destruct (cnt =? 0)%Z; [discriminate H|];
        now injection H as <- <-
    end.
Qed.

Lemma parse_number_body s :
  parse_number s
  = match s with
    | String "-"%char t => number_body true t
    | _ => number_body false s
    end.
Proof.
  destruct s as [|c s]; [reflexivity|].
  destruct c as [[] [] [] [] [] [] [] []]; reflexivity.
Qed.

Lemma number_tail_app neg m e r rest y :
  number_tail neg m e r = Some (y, "") ->
  number_end rest = true ->
  number_tail neg m e (r ++ rest) = Some (y, rest).
Proof.
  intros H Hend. destruct r as [|c r].
  - cbn in H. injection H as <-. cbn [append].
    destruct rest as [|d rest]; [reflexivity|]. cbn.
    cbn in Hend. destruct (Ascii.eqb (lower_char d) "e"); [|reflexivity].
    rewrite andb_false_r in Hend. discriminate Hend.
  - cbn [append]. unfold number_tail in *.
    destruct (Ascii.eqb (lower_char c) "e"); [|discriminate H].
    destruct (scan_exponent (String c r)) as [[ex r']|] eqn:E; [|discriminate H].
    injection H as <- ->.
    pose proof (scan_exponent_app _ rest _ _ E Hend) as E'.
    cbn [append] in E'. now rewrite E'.
Qed.

Lemma number_frac_app i r1 rest m e r :
  number_frac i r1 = Some (m, e, r) ->
  number_end rest = true ->
  number_frac i (r1 ++ rest) = Some (m, e, (r ++ rest)%string).
Proof.
  intros H Hend. destruct r1 as [|c r2].
  - cbn in H. injection H as <- <- <-. cbn [append].
    destruct rest as [|d rest]; [reflexivity|].
    cbn in Hend. unfold number_frac.
    destruct d as [[] [] [] [] [] [] [] []]; try reflexivity; discriminate Hend.
  - cbn [append].
    destruct (Ascii.eqb_spec c "."%char) as [->|Hc].
    + unfold number_frac in *.
      destruct (take_digits r2 i 0%Z) as [[m0 nf] r3] eqn:E.
      rewrite (take_digits_app r2 rest _ _ _ _ _ E Hend).
      destruct (nf =? 0)%Z; [discriminate H|]. now injection H as <- <- <-.
    + assert (Hn : forall t, number_frac i (String c t) = Some (i, 0%Z, String c t)).
      { intros t. unfold number_frac.
        destruct c as [[] [] [] [] [] [] [] []]; try reflexivity. now elim Hc. }
      rewrite Hn in H. injection H as <- <- <-. now rewrite Hn.
Qed.

Lemma starts_with_app p s rest :
  s <> "" -> String.length p = 1 -> starts_with p (s ++ rest) = starts_with p s.
Proof.
  intros Hs Hp. destruct p as [|a [|b p]]; try discriminate Hp.
  destruct s as [|c s]; [now elim Hs|]. reflexivity.
Qed.

Lemma number_body_app neg r0 rest y :
  number_body neg r0 = Some (y, "") ->
  number_end rest = true ->
  number_body neg (r0 ++ rest) = Some (y, rest).
Proof.
  intros H Hend. unfold number_body in *.
  destruct (take_digits r0 0%Z 0%Z) as [[i ni] r1] eqn:E.
  rewrite (take_digits_app r0 rest _ _ _ _ _ E Hend).
  destruct (ni =? 0)%Z eqn:Hni; [discriminate H|].
  assert (Hr0 : r0 <> "").
  { apply (take_digits_some _ _ _ _ _ _ E). apply Z.eqb_neq in Hni. lia. }
  rewrite (starts_with_app "0" r0 rest Hr0 eq_refl).
  cbn [orb] in *.
  destruct (starts_with "0" r0 && negb (ni =? 1)%Z); [discriminate H|].
  destruct (number_frac i r1) as [[[m e] r]|] eqn:F; [|discriminate H].
  rewrite (number_frac_app _ _ rest _ _ _ F Hend).
  now apply number_tail_app.
Qed.

(** A number that reads to its end reads the same before what cannot go
    on a number. *)
Lemma parse_number_app s rest y :
  parse_number s = Some (y, "") ->
  number_end rest = true ->
  parse_number (s ++ rest) = Some (y, rest).
Proof.
  intros H Hend. rewrite parse_number_body in *.
  destruct s as [|c s].
  - discriminate H.
  - cbn [append].
    destruct (Ascii.eqb_spec c "-"%char) as [->|Hc].
    + now apply number_body_app.
    + assert (Hn : forall t (a b : option (float * string)),
                match String c t with
                | String "-"%char _ => a
                | _ => b
                end = b).
      { intros t a b. destruct c as [[] [] [] [] [] [] [] []]; try reflexivity.
        now elim Hc. }
      revert H.
      change (match String c s with
              | String "-"%char t => number_body true t
              | _ => number_body false (String c s)
              end)
        with (match String c s with
              | String "-"%char _ => number_body true s
              | _ => number_body false (String c s)
              end).
      rewrite (Hn s). intros H.
      change (match String c (s ++ rest) with
              | String "-"%char t => number_body true t
              | _ => number_body false (String c (s ++ rest))
              end)
        with (match String c (s ++ rest) with
              | String "-"%char _ => number_body true (s ++ rest)
              | _ => number_body false (String c (s ++ rest))
              end).
      rewrite (Hn s). exact (number_body_app false (String c s) rest y H Hend).
Qed.

Lemma parse_number_starts s y r :
  parse_number s = Some (y, r) ->
  exists c s', s = String c s' /\ number_start c = true.
Proof.
  intros H. rewrite parse_number_body in H. destruct s as [|c s'].
  - discriminate H.
  - exists c, s'. split; [reflexivity|]. unfold number_start.
    destruct (is_digit c) eqn:Hd; [reflexivity|].
    destruct (Ascii.eqb_spec c "-"%char) as [->|Hc]; [reflexivity|].
    exfalso. revert H.
    change (match String c s' with
            | String "-"%char t => number_body true t
            | _ => number_body false (String c s')
            end)
      with (match String c s' with
            | String "-"%char _ => number_body true s'
            | _ => number_body false (String c s')
            end).
    assert (Hn : forall t (a b : option (float * string)),
              match String c t with
              | String "-"%char _ => a
              | _ => b
              end = b).
    { intros t a b. destruct c as [[] [] [] [] [] [] [] []]; try reflexivity.
      now elim Hc. }
    rewrite (Hn s'). unfold number_body. cbn [take_digits]. rewrite Hd.
    cbn. discriminate.
Qed.

(** ** White space *)

Lemma length_app (a b : string) :
  String.length (a ++ b) = String.length a + String.length b.
Proof. induction a as [|c a IH]; simpl; congruence. Qed.

Lemma ws_only_app a b :
  ws_only a = true -> ws_only b = true -> ws_only (a ++ b) = true.
Proof.
  intros Ha Hb. induction a as [|c a IH]; [exact Hb|].
  simpl in *. apply andb_true_iff in Ha as [Hc Ha]. now rewrite Hc, IH.
Qed.

Lemma skip_ws_app w s : ws_only w = true -> skip_ws (w ++ s) = skip_ws s.
Proof.
  intros Hw. induction w as [|c w IH]; [reflexivity|].
  simpl in *. apply andb_true_iff in Hw as [Hc Hw]. rewrite Hc. now apply IH.
Qed.

Lemma solid_not_ws c : solid c = true -> json_ws c = false.
Proof.
  unfold solid. destruct (json_ws c); [discriminate|reflexivity].
Qed.

Lemma skip_ws_solid t : starts_solid t = true -> skip_ws t = t.
Proof.
  destruct t as [|c t]; [discriminate|]. intros H. apply solid_not_ws in H.
  simpl. now rewrite H.
Qed.

Lemma starts_solid_app t rest :
  starts_solid t = true -> starts_solid (t ++ rest) = true.
Proof. destruct t; [discriminate|]. exact (fun H => H). Qed.

Lemma parse_value_skip fuel w s :
  ws_only w = true -> parse_value fuel (w ++ s) = parse_value fuel s.
Proof.
  intros Hw. destruct fuel as [|f]; [reflexivity|].
  cbn [parse_value]. now rewrite (skip_ws_app w s Hw).
Qed.

Lemma parse_members_skip fuel w s acc :
  ws_only w = true -> parse_members fuel (w ++ s) acc = parse_members fuel s acc.
Proof.
  intros Hw. destruct fuel as [|f]; [reflexivity|].
  cbn [parse_members]. now rewrite (skip_ws_app w s Hw).
Qed.

Lemma parse_elements_skip fuel w s acc :
  ws_only w = true ->
  parse_elements fuel (w ++ s) acc = parse_elements fuel s acc.
Proof.
  intros Hw. destruct fuel as [|f]; [reflexivity|].
  cbn [parse_elements]. now rewrite (parse_value_skip f w s Hw).
Qed.

Lemma number_start_solid c : number_start c = true -> solid c = true.
Proof.
  intros H. destruct c as [[] [] [] [] [] [] [] []];
    try reflexivity; vm_compute in H; discriminate H.
Qed.

Lemma parse_value_number f c u :
  number_start c = true ->
  parse_value (S f) (String c u)
  = match parse_number (String c u) with
    | Some (x, r') => Some (VNum x, r')
    | None => None
    end.
Proof.
  intros H. destruct c as [[] [] [] [] [] [] [] []];
    try (vm_compute in H; discriminate H); reflexivity.
Qed.

(** ** Values *)

Lemma value_nested_ind (P : value -> Prop) :
  P VUndefined -> P VNull -> (forall b, P (VBool b)) ->
  (forall x, P (VNum x)) -> (forall s, P (VStr s)) ->
  (forall l, Forall P l -> P (VArr l)) ->
  (forall o, Forall (fun kv => P (snd kv)) o -> P (VObj o)) ->
  forall v, P v.
Proof.
  intros H1 H2 H3 H4 H5 H6 H7. fix IH 1.
  intros [ | | b | x | s | l | o].
  - exact H1.
  - exact H2.
  - apply H3.
  - apply H4.
  - apply H5.
  - apply H6. induction l as [|e l IHl]; constructor; [apply IH | exact IHl].
  - apply H7. induction o as [|kv o IHo]; constructor; [apply IH | exact IHo].
Qed.

Lemma jsonable_arr l : jsonable (VArr l) <-> Forall jsonable l.
Proof.
  induction l as [|e l IH]; simpl.
  - split; [constructor | trivial].
  - split.
    + intros [He Hl]. constructor; [exact He | now apply IH].
    + intros H. inversion H as [|? ? He Hl]; subst. split; [exact He | now apply IH].
Qed.

Lemma jsonable_obj o :
  jsonable (VObj o)
  <-> set_all o [] = o /\ Forall (fun kv => jsonable (snd kv)) o.
Proof.
  simpl. apply and_iff_compat_l.
  induction o as [|kv o IH]; simpl.
  - split; [constructor | trivial].
  - split.
    + intros [He Hl]. constructor; [exact He | now apply IH].
    + intros H. inversion H as [|? ? He Hl]; subst. split; [exact He | now apply IH].
Qed.

Lemma number_end_comma rest : number_end ("," ++ rest) = true.
Proof. reflexivity. Qed.

Lemma number_end_close (post closing rest : string) :
  ws_only post = true ->
  closing = "]" \/ closing = "}" ->
  number_end (post ++ closing ++ rest) = true.
Proof.
  intros Hw Hc. destruct post as [|c post].
  - destruct Hc as [-> | ->]; reflexivity.
  - simpl in Hw. apply andb_true_iff in Hw as [Hc' _]. cbn [append number_end].
    destruct c as [[] [] [] [] [] [] [] []];
      try reflexivity; vm_compute in Hc'; discriminate Hc'.
Qed.

Lemma join_cons sep x y l :
  join sep (x :: y :: l) = (x ++ sep ++ join sep (y :: l))%string.
Proof. reflexivity. Qed.

(** The items of an array, read one after the other. *)
Lemma parse_elements_items (T : value -> string) (pre post : string) l :
  ws_only pre = true -> ws_only post = true ->
  Forall (fun e => reads (T e) e) l -> l <> [] ->
  forall acc fuel rest,
    String.length (join ("," ++ pre) (map T l)) < fuel ->
    parse_elements fuel
      (join ("," ++ pre) (map T l) ++ post ++ "]" ++ rest)%string acc
    = Some (VArr (rev acc ++ l), rest).
Proof.
  intros Hpre Hpost Hall. induction Hall as [|e l [He Hread] Hall IH].
  - intros H. now elim H.
  - intros _ acc fuel rest Hfuel. destruct fuel as [|f]; [inversion Hfuel|].
    destruct l as [|e2 l].
    + cbn [map join] in *. cbn [parse_elements].
      rewrite (Hread f (post ++ "]" ++ rest)%string).
      * rewrite (skip_ws_app post _ Hpost). cbn [append skip_ws].
        reflexivity.
      * now apply number_end_close; [|left].
      * apply PeanoNat.lt_n_Sm_le, Hfuel.
    + cbn [map] in *. rewrite join_cons in *.
      rewrite !string_app_assoc. cbn [parse_elements].
      rewrite length_app in Hfuel.
      rewrite (Hread f).
      * cbn [append skip_ws]. change (json_ws ",") with false. cbn iota.
        rewrite (parse_elements_skip f pre _ _ Hpre).
        change (String "," pre) with ("," ++ pre)%string.
        change (String "]" rest) with ("]" ++ rest)%string.
        rewrite IH; [|discriminate|].
        -- simpl. now rewrite <- app_assoc.
        -- rewrite length_app in Hfuel.
           cbn [append String.length] in Hfuel |- *. lia.
      * reflexivity.
      * lia.
Qed.

(** One member of an object: its key, the colon, then its value. *)
Lemma parse_members_member f gap k t R acc :
  parse_members (S f)
    (QuoteJSONString k ++ (if String.eqb gap "" then ":" else ": ") ++ t ++ R)%string
    acc
  = match parse_value f (t ++ R)%string with
    | Some (v, r3) =>
        match skip_ws r3 with
        | String ","%char r4 => parse_members f r4 (set acc k v)
        | String "}"%char r4 => Some (VObj (set acc k v), r4)
        | _ => None
        end
    | None => None
    end.
Proof.
  unfold QuoteJSONString. rewrite !string_app_assoc.
  change (dquote ++ ?x)%string with (String (chr 34) x).
  cbn [parse_members skip_ws].
  change (json_ws (chr 34)) with false. cbn iota.
  change (code (chr 34) =? 34)%Z with true. cbn iota.
  rewrite parse_string_quoted.
  destruct (String.eqb gap "").
  - reflexivity.
  - cbn [append skip_ws]. change (json_ws ":") with false. cbn iota.
    change (String " " (t ++ R)%string) with (" " ++ (t ++ R))%string.
    now rewrite (parse_value_skip f " " (t ++ R)%string eq_refl).
Qed.

(** The members of an object, read one after the other. *)
Lemma parse_members_items (gap : string) (T : value -> string)
    (pre post : string) (o : props) :
  ws_only pre = true -> ws_only post = true ->
  Forall (fun kv => reads (T (snd kv)) (snd kv)) o -> o <> [] ->
  forall acc fuel rest,
    String.length (join ("," ++ pre) (map (member_of gap T) o)) < fuel ->
    parse_members fuel
      (join ("," ++ pre) (map (member_of gap T) o) ++ post ++ "}" ++ rest)%string
      acc
    = Some (VObj (set_all o acc), rest).
Proof.
  intros Hpre Hpost Hall. induction Hall as [|[k e] o [He Hread] Hall IH].
  - intros H. now elim H.
  - intros _ acc fuel rest Hfuel. destruct fuel as [|f]; [inversion Hfuel|].
    cbn [snd] in *.
    assert (Hlen : String.length (T e)
                   <= String.length (member_of gap T (k, e))).
    { unfold member_of. rewrite !length_app. cbn [snd]. lia. }
    destruct o as [|kv2 o].
    + cbn [map join] in *. unfold member_of at 1. cbn [fst snd].
      rewrite !string_app_assoc. rewrite parse_members_member.
      rewrite (Hread f (post ++ "}" ++ rest)%string).
      * rewrite (skip_ws_app post _ Hpost). reflexivity.
      * now apply number_end_close; [|right].
      * lia.
    + cbn [map] in *. rewrite join_cons in *.
      unfold member_of at 1. cbn [fst snd].
      rewrite !string_app_assoc. rewrite parse_members_member.
      rewrite length_app in Hfuel.
      rewrite (Hread f).
      * cbn [append skip_ws]. change (json_ws ",") with false. cbn iota.
        rewrite (parse_members_skip f pre _ _ Hpre).
        change (String "," pre) with ("," ++ pre)%string.
        change (String "}" rest) with ("}" ++ rest)%string.
        rewrite IH; [reflexivity|discriminate|].
        rewrite length_app in Hfuel.
        cbn [append String.length] in Hfuel |- *. lia.
      * reflexivity.
      * lia.
Qed.

Lemma wrap_items gap indent opening closing items :
  items <> [] ->
  wrap gap indent opening closing items
  = (opening ++ pre_of gap indent
       ++ join ("," ++ pre_of gap indent) items
       ++ post_of gap indent ++ closing)%string.
Proof.
  intros H. destruct items as [|x items]; [now elim H|].
  unfold wrap, pre_of, post_of. destruct (String.eqb gap "").
  - reflexivity.
  - now rewrite !string_app_assoc.
Qed.

Lemma ws_only_pre gap indent :
  ws_only gap = true -> ws_only indent = true ->
  ws_only (pre_of gap indent) = true.
Proof.
  intros Hg Hi. unfold pre_of. destruct (String.eqb gap ""); [reflexivity|].
  apply (ws_only_app newline); [reflexivity|]. now apply ws_only_app.
Qed.

Lemma ws_only_post gap indent :
  ws_only indent = true -> ws_only (post_of gap indent) = true.
Proof.
  intros Hi. unfold post_of. destruct (String.eqb gap ""); [reflexivity|].
  now apply (ws_only_app newline).
Qed.

Lemma starts_solid_join sep x l :
  starts_solid x = true -> starts_solid (join sep (x :: l)) = true.
Proof.
  intros H. destruct l as [|y l]; [exact H|].
  rewrite join_cons. now apply starts_solid_app.
Qed.

Lemma parse_value_array f w s :
  ws_only w = true -> starts_solid s = true ->
  parse_value (S f) ("[" ++ w ++ s) = parse_elements f s [].
Proof.
  intros Hw Hs.
  change (parse_value (S f) ("[" ++ w ++ s))
    with (match skip_ws (w ++ s) with
          | String "]"%char r' => Some (VArr [], r')
          | r' => parse_elements f r' []
          end).
  rewrite (skip_ws_app w s Hw), (skip_ws_solid s Hs).
  destruct s as [|c u]; [discriminate Hs|]. cbn [starts_solid] in Hs.
  destruct c as [[] [] [] [] [] [] [] []]; try reflexivity.
  vm_compute in Hs. discriminate Hs.
Qed.

Lemma parse_value_object f w s :
  ws_only w = true -> starts_solid s = true ->
  parse_value (S f) ("{" ++ w ++ s) = parse_members f s [].
Proof.
  intros Hw Hs.
  change (parse_value (S f) ("{" ++ w ++ s))
    with (match skip_ws (w ++ s) with
          | String "}"%char r' => Some (VObj [], r')
          | r' => parse_members f r' []
          end).
  rewrite (skip_ws_app w s Hw), (skip_ws_solid s Hs).
  destruct s as [|c u]; [discriminate Hs|]. cbn [starts_solid] in Hs.
  destruct c as [[] [] [] [] [] [] [] []]; try reflexivity.
  vm_compute in Hs. discriminate Hs.
Qed.

Lemma stringify_arr gap indent l :
  stringify_at gap indent (VArr l)
  = Some (wrap gap indent "[" "]" (map (item_text gap (indent ++ gap)) l)).
Proof. reflexivity. Qed.

Lemma stringify_obj gap indent o :
  Forall (fun kv => stringify_at gap (indent ++ gap) (snd kv) <> None) o ->
  stringify_at gap indent (VObj o)
  = Some (wrap gap indent "{" "}"
            (map (member_of gap (item_text gap (indent ++ gap))) o)).
Proof.
  intros H. cbn [stringify_at]. f_equal. f_equal.
  induction H as [|[k e] o He Ho IH]; [reflexivity|].
  cbn [flat_map map]. rewrite IH. cbn [snd] in He.
  unfold member_of, item_text. cbn [fst snd].
  destruct (stringify_at gap (indent ++ gap) e); [reflexivity|now elim He].
Qed.

(** Every value of [jsonable] has a text, and the text reads as the
    value. *)
Lemma stringify_reads v :
  jsonable v ->
  forall gap indent, ws_only gap = true -> ws_only indent = true ->
  exists t, stringify_at gap indent v = Some t /\ reads t v.
Proof.
  induction v as [ | | b | x | s | l IH | o IH] using value_nested_ind;
    intros Hv gap indent Hg Hi.
  - destruct Hv.
  - exists "null". split; [reflexivity|]. split; [reflexivity|].
    intros [|f] rest _ Hf; [inversion Hf|]. reflexivity.
  - exists (if b then "true" else "false"). split; [reflexivity|].
    split; [now destruct b|].
    intros [|f] rest _ Hf; [now destruct b; inversion Hf|].
    now destruct b.
  - destruct Hv as [Hfin Hnum]. cbn [stringify_at]. rewrite Hfin.
    exists (Number_toString x). split; [reflexivity|].
    destruct (parse_number_starts _ _ _ Hnum) as (c & s' & Ht & Hc).
    split.
    + rewrite Ht. exact (number_start_solid c Hc).
    + intros [|f] rest Hrest Hf; [rewrite Ht in Hf; inversion Hf|].
      pose proof (parse_number_app _ rest _ Hnum Hrest) as Happ.
      rewrite Ht in *. cbn [append] in *.
      now rewrite (parse_value_number f c _ Hc), Happ.
  - exists (QuoteJSONString s). split; [reflexivity|]. split; [reflexivity|].
    intros [|f] rest _ Hf; [inversion Hf|].
    unfold QuoteJSONString. rewrite !string_app_assoc.
    change (parse_value (S f) (dquote ++ quote_body s ++ dquote ++ rest))
      with (match parse_string (quote_body s ++ dquote ++ rest) with
            | Some (str, r') => Some (VStr str, r')
            | None => None
            end).
    now rewrite parse_string_quoted.
  - apply jsonable_arr in Hv. rewrite stringify_arr.
    eexists; split; [reflexivity|].
    destruct l as [|e l].
    + split; [reflexivity|].
      intros [|f] rest _ Hf; [inversion Hf|]. reflexivity.
    + assert (Hall : Forall (fun e => reads (item_text gap (indent ++ gap) e) e)
                       (e :: l)).
      { rewrite Forall_forall in *. intros a Ha.
        destruct (IH a Ha (Hv a Ha) gap (indent ++ gap)%string Hg
                    (ws_only_app _ _ Hi Hg)) as (t & Ht & Hr).
        unfold item_text. now rewrite Ht. }
      rewrite wrap_items by discriminate.
      split; [reflexivity|].
      intros [|f] rest Hrest Hf; [inversion Hf|].
      rewrite !string_app_assoc.
      rewrite parse_value_array.
      * rewrite (parse_elements_items _ _ _ (e :: l)
                   (ws_only_pre _ _ Hg Hi) (ws_only_post gap _ Hi) Hall);
          [reflexivity|discriminate|].
        rewrite !length_app in Hf. cbn [String.length] in Hf. lia.
      * exact (ws_only_pre _ _ Hg Hi).
      * apply starts_solid_app. cbn [map]. apply starts_solid_join.
        inversion Hall as [|? ? [He _] _]. exact He.
  - apply jsonable_obj in Hv as [Hord Hv].
    assert (Hall : Forall (fun kv =>
                             stringify_at gap (indent ++ gap) (snd kv) <> None
                             /\ reads (item_text gap (indent ++ gap) (snd kv))
                                  (snd kv)) o).
    { rewrite Forall_forall in *. intros a Ha.
      destruct (IH a Ha (Hv a Ha) gap (indent ++ gap)%string Hg
                  (ws_only_app _ _ Hi Hg)) as (t & Ht & Hr).
      unfold item_text. rewrite Ht. split; [discriminate|exact Hr]. }
    rewrite stringify_obj
      by (eapply Forall_impl; [|exact Hall]; now intros a [Ha _]).
    assert (Hreads : Forall (fun kv =>
                               reads (item_text gap (indent ++ gap) (snd kv))
                                 (snd kv)) o)
      by (eapply Forall_impl; [|exact Hall]; now intros a [_ Ha]).
    eexists; split; [reflexivity|].
    destruct o as [|kv o].
    + split; [reflexivity|].
      intros [|f] rest _ Hf; [inversion Hf|]. reflexivity.
    + rewrite wrap_items by discriminate.
      split; [reflexivity|].
      intros [|f] rest Hrest Hf; [inversion Hf|].
      rewrite !string_app_assoc.
      rewrite parse_value_object.
      * rewrite (parse_members_items gap _ _ _ (kv :: o)
                   (ws_only_pre _ _ Hg Hi) (ws_only_post gap _ Hi) Hreads);
          [now rewrite Hord|discriminate|].
        rewrite !length_app in Hf. cbn [String.length] in Hf. lia.
      * exact (ws_only_pre _ _ Hg Hi).
      * apply starts_solid_app. cbn [map]. apply starts_solid_join.
        reflexivity.
Qed.

Lemma solid_not_space c : solid c = true -> is_space c = false.
Proof.
  unfold solid. destruct (is_space c); [|reflexivity].
  rewrite andb_false_r. discriminate.
Qed.

Lemma trim_solid t : starts_solid t = true -> String.eqb (trim t) "" = false.
Proof.
  destruct t as [|c t]; [discriminate|]. cbn [starts_solid]. intros H.
  apply solid_not_space in H. unfold trim. cbn [trimStart]. rewrite H.
  destruct (trimEnd_keeps_prefix "" c t H) as [body' E].
  cbn [append] in E. now rewrite E.
Qed.

Lemma parse_reads t v : reads t v -> parse t = Some v.
Proof.
  intros [_ H]. unfold parse.
  rewrite <- (append_nil_r t) at 2.
  rewrite (H _ "" eq_refl) by lia. reflexivity.
Qed.

(** What the page writes into the JSON box reads back as what was
    written: for a value without [undefined], with finite numbers whose
    digits read back as the number and with objects in own-property
    order, [JSON.parse] of [JSON.stringify(v)] and of
    [JSON.stringify(v, null, 2)] is [v], and a page whose [jsonText] is
    the indented text has [v] as its [parsedDraft]. *)
Theorem draft_text_reads_back v :
  jsonable v ->
  parse (text_of (stringify v)) = Some v
  /\ parse (text_of (stringify2 v)) = Some v
  /\ (forall s : page,
        jsonText s = text_of (stringify2 v) -> parsedDraft s = v).
Proof.
  intros Hv.
  destruct (stringify_reads v Hv "" "" eq_refl eq_refl) as (t1 & E1 & R1).
  destruct (stringify_reads v Hv "  " "" eq_refl eq_refl) as (t2 & E2 & R2).
  unfold stringify, stringify2. rewrite E1, E2. cbn [text_of].
  split; [exact (parse_reads _ _ R1)|].
  split; [exact (parse_reads _ _ R2)|].
  intros s Hs. unfold parsedDraft, parse_draft. rewrite Hs.
  rewrite (trim_solid t2 (proj1 R2)). now rewrite (parse_reads _ _ R2).
Qed.

Lemma draft_text_reads_back_witness :
  jsonable resourcing_draft
  /\ parse (text_of (stringify2 resourcing_draft)) = Some resourcing_draft.
Proof.
  assert (H : jsonable resourcing_draft).
  { vm_compute. repeat split. }
  split; [exact H|].
  exact (proj1 (proj2 (draft_text_reads_back resourcing_draft H))).
Defined.

(* ================================================================== *)
(** * Finalizing and regenerating in the project context *)
(* ================================================================== *)

(** [finalizeScope] is not all or nothing.  It resolves only when the
    finalize call, the refresh and the three previews all succeed; then
    the refreshed project is merged into the projects with that id, the
    last preview scope is the JSON preview (the finalized scope when that
    is falsy), the redirect URL names the project, and the scope returned
    is the backend's (the submitted one when the backend sent none).
    When it rejects, the last preview scope and the redirect URL are as
    they were; the project list is as it was too, unless it was a preview
    that failed: then the list already holds the refreshed project. *)
Theorem finalizeScope_outcomes
  (id scopeData : value) (finalized refreshed : outcome value)
  (pr : previews_run) (s : state) :
  let res := finalizeScope id scopeData finalized refreshed pr s in
  match fst res with
  | Ok out =>
      exists data full merged j,
        finalized = Ok data /\ refreshed = Ok full
        /\ replaceById (projects s) id full = Ok merged
        /\ json_outcome pr = Ok j /\ all_fulfilled pr
        /\ projects (snd res) = merged
        /\ lastPreviewScope (snd res)
           = or_else j (finalized_scope data scopeData)
        /\ lastRedirectUrl (snd res) = exports_url id
        /\ res_scope out = finalized_scope data scopeData
        /\ fst (fst (res_previews out)) = j
  | Throw _ =>
      lastPreviewScope (snd res) = lastPreviewScope s
      /\ lastRedirectUrl (snd res) = lastRedirectUrl s
      /\ (projects (snd res) = projects s
          \/ (some_failed pr
              /\ exists data full,
                   finalized = Ok data /\ refreshed = Ok full
                   /\ replaceById (projects s) id full
                      = Ok (projects (snd res))))
  end.
Proof.
  cbv zeta. unfold finalizeScope.
  destruct finalized as [data|e]; [|monad_steps; repeat split; now left].
  destruct refreshed as [full|e]; [|monad_steps; repeat split; now left].
  monad_steps.
  destruct (replaceById (projects s) id full) as [merged|e] eqn:Hrp;
    [|monad_steps; repeat split; now left].
  monad_steps.
  match goal with
  | |- context [previews_all pr ?st] =>
      destruct (previews_all_spec pr st)
        as (evs & _ & [(j & x & p & Hj & Hx & Hp & E & _)|(Hf & e & E)]);
      rewrite E
  end.
  - monad_steps. exists data, full, merged, j.
    repeat split; try assumption; try reflexivity.
    intros []; unfold preview_error; now rewrite ?Hj, ?Hx, ?Hp.
  - monad_steps. repeat split. right. split; [exact Hf|].
    now exists data, full.
Qed.

(** [regenerateScope] changes the last preview scope or nothing.  When
    the fetch of the finalized export fails with anything but a 400 it
    rejects with that error and issues no preview.  Otherwise it issues
    the three previews; it resolves, with the JSON preview, only when all
    three succeed; the last preview scope is then that preview ([null]
    when it is falsy), and the project list and the redirect URL are as
    they were.  When it rejects nothing of the shared state has
    changed. *)
Theorem regenerateScope_outcomes
  (draftScope : value) (exported : outcome value) (pr : previews_run)
  (s : state) :
  let res := regenerateScope draftScope exported pr s in
  match fst res with
  | Ok j =>
      json_outcome pr = Ok j /\ all_fulfilled pr
      /\ (is_ok exported = true
          \/ exists e, exported = Throw e /\ status_is e 400 = true)
      /\ projects (snd res) = projects s
      /\ lastRedirectUrl (snd res) = lastRedirectUrl s
      /\ lastPreviewScope (snd res) = or_else j VNull
  | Throw _ => same_fields (snd res) s
  end
  /\ (forall e,
        exported = Throw e -> status_is e 400 = false ->
        fst res = Throw e
        /\ log (snd res)
           = (log s ++ [Issued ExportToJson; Failed ExportToJson])%list).
Proof.
  cbv zeta. unfold regenerateScope. split.
  - assert (Hpv : forall st,
              projects st = projects s ->
              lastPreviewScope st = lastPreviewScope s ->
              lastRedirectUrl st = lastRedirectUrl s ->
              match previews_all pr st with
              | (Ok pv, st') =>
                  json_outcome pr = Ok (fst (fst pv)) /\ all_fulfilled pr
                  /\ same_fields st' s
              | (Throw _, st') => same_fields st' s
              end).
    { intros st H1 H2 H3.
      destruct (previews_all_spec pr st)
        as (evs & _ & [(j & x & p & Hj & Hx & Hp & E & _)|(Hf & e & E)]);
        rewrite E; cbn; repeat split; try assumption.
      intros []; unfold preview_error; now rewrite ?Hj, ?Hx, ?Hp. }
    destruct exported as [d|e].
    + monad_steps.
      match goal with
      | |- context [previews_all pr ?st] =>
          pose proof (Hpv st eq_refl eq_refl eq_refl) as H;
          destruct (previews_all pr st) as [[pv|e] st']
      end.
      * destruct H as (Hj & Hall & H1 & H2 & H3). monad_steps.
        repeat split; try assumption. now left.
      * monad_steps. exact H.
    + destruct (status_is e 400) eqn:H400.
      * monad_steps. rewrite H400. monad_steps.
        match goal with
        | |- context [previews_all pr ?st] =>
            pose proof (Hpv st eq_refl eq_refl eq_refl) as H;
            destruct (previews_all pr st) as [[pv|e'] st']
        end.
        -- destruct H as (Hj & Hall & H1 & H2 & H3). monad_steps.
           repeat split; try assumption. right. now exists e.
        -- monad_steps. exact H.
      * monad_steps. rewrite H400. monad_steps. repeat split.
  - intros e -> H400. monad_steps. rewrite H400. monad_steps.
    split; [reflexivity|]. now rewrite <- app_assoc.
Qed.
